(** * MLDecay: a shallow embedding of the decay-index engine of MLDecay.py

    The development follows the class [MLDecayIndices] of MLDecay.py:
    taxon formatting, the score-file parser, the engine session, the joint
    AU test, the constrained search of one branch, the branch loop of
    [calculate_decay_indices] with its joint-test pass, and the site
    summary of [_calculate_site_likelihoods].

    Conventions.
    - A Python [str] is a [string] whose characters are the code points
      below 256; Python [float] is the kernel's binary64 [float].
    - [None] is [None]; a raised exception is the [Raise] branch of [result].
    - The working directory [temp_path] is a finite map from file names to
      file contents; the PAUP engine and Python's [float], [int], [str] and
      [re] are parameters of the development, gathered in [externals]. *)

From Stdlib Require Import ZArith Ascii String Floats Uint63 Lia.
From Stdlib Require Import DecimalString DecimalNat DecimalZ.
From stdpp Require Import gmap strings list sorting.

Set Warnings "-inexact-float,-register-all".
Set Default Proof Using "Type".

(** ** Python strings *)

Module PyStr.

(** [str.isspace] on one code point below 256: TAB..CR, FS..US, SPACE,
    NEL and NBSP.  This is also the class [\s] of [re] on [str]. *)
Definition isspace (c : ascii) : bool :=
  let n := nat_of_ascii c in
  ((9 <=? n) && (n <=? 13)) || ((28 <=? n) && (n <=? 32))
  || (n =? 133) || (n =? 160).

(** The line boundaries of [str.splitlines]. *)
Definition is_linebreak (c : ascii) : bool :=
  let n := nat_of_ascii c in
  ((10 <=? n) && (n <=? 13)) || ((28 <=? n) && (n <=? 30)) || (n =? 133).

Definition lower_char (c : ascii) : ascii :=
  let n := nat_of_ascii c in
  if ((65 <=? n) && (n <=? 90))
     || ((192 <=? n) && (n <=? 222) && negb (n =? 215))
  then ascii_of_nat (n + 32) else c.

Fixpoint lower (s : string) : string :=
  match s with
  | EmptyString => EmptyString
  | String c s' => String (lower_char c) (lower s')
  end.

Fixpoint lstrip (s : string) : string :=
  match s with
  | EmptyString => EmptyString
  | String c s' => if isspace c then lstrip s' else s
  end.

Fixpoint rstrip (s : string) : string :=
  match s with
  | EmptyString => EmptyString
  | String c s' =>
      match rstrip s' with
      | EmptyString => if isspace c then EmptyString else String c EmptyString
      | r => String c r
      end
  end.

Definition strip (s : string) : string := lstrip (rstrip s).

(** [s.split()]: the maximal runs of non-blank characters. *)
Fixpoint split_from (cur : option string) (s : string) : list string :=
  match s with
  | EmptyString => match cur with Some w => [w] | None => [] end
  | String c s' =>
      if isspace c then
        match cur with
        | Some w => w :: split_from None s'
        | None => split_from None s'
        end
      else
        split_from
          (Some (match cur with
                 | Some w => w +:+ String c EmptyString
                 | None => String c EmptyString
                 end)) s'
  end.

Definition split (s : string) : list string := split_from None s.

(** [s.splitlines()]: no line ends kept, CR LF is one boundary, no empty
    last line. *)
Fixpoint splitlines_from (cur : string) (s : string) : list string :=
  match s with
  | EmptyString => match cur with EmptyString => [] | _ => [cur] end
  | String c s' =>
      if is_linebreak c then
        cur :: match s' with
               | String c' s'' =>
                   if (nat_of_ascii c =? 13) && (nat_of_ascii c' =? 10)
                   then splitlines_from EmptyString s''
                   else splitlines_from EmptyString s'
               | EmptyString => []
               end
      else splitlines_from (cur +:+ String c EmptyString) s'
  end.

Definition splitlines (s : string) : list string :=
  splitlines_from EmptyString s.

(** [sep.join(l)] *)
Definition join (sep : string) (l : list string) : string :=
  String.concat sep l.

(** [sub in s] *)
Fixpoint contains (sub s : string) : bool :=
  match s with
  | EmptyString => String.prefix sub EmptyString
  | String _ s' => String.prefix sub s || contains sub s'
  end.

(** [c in s] for a one-character [c]. *)
Fixpoint has_char (c : ascii) (s : string) : bool :=
  match s with
  | EmptyString => false
  | String d s' => Ascii.eqb c d || has_char c s'
  end.

(** [s.replace(old, new)] for one-character [old] and [new]. *)
Fixpoint replace_char (old new : ascii) (s : string) : string :=
  match s with
  | EmptyString => EmptyString
  | String c s' =>
      String (if Ascii.eqb c old then new else c) (replace_char old new s')
  end.

(** [s.replace(old, new, 1)]: the first occurrence only. *)
Fixpoint replace_first (old new s : string) : string :=
  match s with
  | EmptyString => if String.eqb old EmptyString then new else EmptyString
  | String c s' =>
      if String.prefix old s
      then new +:+ String.substring (String.length old)
                     (String.length s - String.length old) s
      else String c (replace_first old new s')
  end.

(** [l.index(x)] when [x in l]. *)
Fixpoint index_of (x : string) (l : list string) : option nat :=
  match l with
  | [] => None
  | y :: l' => if String.eqb x y then Some 0
               else S <$> index_of x l'
  end.

(** [str(n)] for a natural number. *)
Definition of_nat (n : nat) : string :=
  NilEmpty.string_of_uint (Nat.to_uint n).

(** Truth value of a string: non-empty. *)
Definition truthy (s : string) : bool :=
  match s with EmptyString => false | _ => true end.

(** Membership of a character, as a proposition. *)
Fixpoint In_str (c : ascii) (s : string) : Prop :=
  match s with
  | EmptyString => False
  | String d s' => c = d \/ In_str c s'
  end.

(** [c.upper()] for one code point below 256.  The small sharp s becomes
    SS.  The micro sign (181) and the y with diaeresis (255) have
    upper-case forms above 255, which the strings of this development do
    not hold; they are left as they are: like their upper-case forms they
    are no ASCII character, and the code compares upper-cased text with
    ASCII text only. *)
Definition upper_char (c : ascii) : string :=
  let n := nat_of_ascii c in
  if n =? 223 then "SS"
  else if ((97 <=? n) && (n <=? 122))
          || ((224 <=? n) && (n <=? 254) && negb (n =? 247))
  then String (ascii_of_nat (n - 32)) EmptyString
  else String c EmptyString.

Fixpoint upper (s : string) : string :=
  match s with
  | EmptyString => EmptyString
  | String c s' => upper_char c +:+ upper s'
  end.

(** [s.split(sep)] for a one-character [sep]: never an empty list. *)
Fixpoint split_on (sep : ascii) (s : string) : list string :=
  match s with
  | EmptyString => [EmptyString]
  | String c s' =>
      if Ascii.eqb c sep then EmptyString :: split_on sep s'
      else match split_on sep s' with
           | piece :: pieces => String c piece :: pieces
           | [] => [String c EmptyString]
           end
  end.

(** [str(z)] for an [int]. *)
Definition of_Z (z : Z) : string :=
  NilEmpty.string_of_int (Z.to_int z).

(** [x in names] for a list of strings. *)
Definition in_names (x : string) (names : list string) : bool :=
  existsb (String.eqb x) names.

(** [s.endswith(suffix)] *)
Definition endswith (suffix s : string) : bool :=
  (String.length suffix <=? String.length s)
  && String.eqb suffix
       (String.substring (String.length s - String.length suffix)
          (String.length suffix) s).

End PyStr.

(** ** Taxon names for the engine: [_format_taxon_for_paup] *)

(** The characters listed in the class of the regular expression, other
    than [\s]: round, square and curly brackets, slash, backslash, comma,
    semicolon, equals, star, backquote, double quote, single quote and the
    angle brackets. *)
Definition nexus_special_chars : string :=
  "()[]{}/\,;=*`" +:+ String (ascii_of_nat 34) "'<>".

Definition in_quote_class (c : ascii) : bool :=
  PyStr.isspace c || PyStr.has_char c nexus_special_chars.

(** [re.search(r'[...]', taxon_name)], as a truth value. *)
Fixpoint re_search_quote_class (s : string) : bool :=
  match s with
  | EmptyString => false
  | String c s' => in_quote_class c || re_search_quote_class s'
  end.

Definition single_quote : ascii := ascii_of_nat 39.

Definition _format_taxon_for_paup (taxon_name : string) : string :=
  if re_search_quote_class taxon_name || PyStr.has_char ":" taxon_name
  then String single_quote
         (PyStr.replace_char single_quote "_" taxon_name
          +:+ String single_quote EmptyString)
  else taxon_name.

(** ** Python dictionaries

    A [dict] keeps its keys in insertion order; assigning to a key that is
    present replaces its value in place. *)

Module PyDict.
Section Dict.
Context {V : Type}.

Definition t : Type := list (string * V).

Fixpoint get (k : string) (d : t) : option V :=
  match d with
  | [] => None
  | (k', v) :: d' => if String.eqb k k' then Some v else get k d'
  end.

(** [d[k] = v] *)
Fixpoint set (k : string) (v : V) (d : t) : t :=
  match d with
  | [] => [(k, v)]
  | (k', v') :: d' =>
      if String.eqb k k' then (k', v) :: d' else (k', v') :: set k v d'
  end.

(** An in-place change of the value stored under [k], if any. *)
Fixpoint alter (f : V -> V) (k : string) (d : t) : t :=
  match d with
  | [] => []
  | (k', v') :: d' =>
      if String.eqb k k' then (k', f v') :: d' else (k', v') :: alter f k d'
  end.

Definition keys (d : t) : list string := map fst d.

Definition truthy (d : t) : bool :=
  match d with [] => false | _ => true end.
End Dict.
Arguments t : clear implicits.
End PyDict.

(** ** Floats *)

Module PyFloat.
Local Open Scope float_scope.

(** [float(n)] for a count. *)
Definition of_nat (n : nat) : float := of_uint63 (Uint63.of_Z (Z.of_nat n)).

(** [sum(l)] over floats: additions from the left, starting from zero. *)
Definition sum (l : list float) : float := fold_left PrimFloat.add l 0.

(** [a < b], [a > b] *)
Definition lt (a b : float) : bool := PrimFloat.ltb a b.
Definition gt (a b : float) : bool := PrimFloat.ltb b a.
End PyFloat.

(** ** Exceptions and results *)

Inductive exn : Type :=
| FileNotFoundError
| CalledProcessError (returncode : Z)
| TimeoutExpired
| OSError
| ValueError
| AttributeError.

Inductive result (A : Type) : Type :=
| Ok (a : A)
| Raise (e : exn).
Arguments Ok {A} a.
Arguments Raise {A} e.

(** A number passed as [timeout_sec]: an [int] or a [float]. *)
Inductive py_num : Type :=
| PyInt (z : Z)
| PyFloat (f : float).

(** ** Topologies (Bio.Phylo)

    A clade has a name and an ordered list of child clades; it is terminal
    when it has no child.  A tree is its root clade. *)

Inductive clade : Type :=
| Clade (name : string) (clades : list clade).

Definition clade_name (c : clade) : string :=
  match c with Clade n _ => n end.

Definition clade_clades (c : clade) : list clade :=
  match c with Clade _ cs => cs end.

(** [get_terminals()]: the leaves, in preorder. *)
Fixpoint get_terminals (c : clade) : list clade :=
  match c with
  | Clade _ [] => [c]
  | Clade _ cs => flat_map get_terminals cs
  end.

(** [get_nonterminals()]: the clades that have children, in preorder. *)
Fixpoint get_nonterminals (c : clade) : list clade :=
  match c with
  | Clade _ [] => []
  | Clade _ cs => c :: flat_map get_nonterminals cs
  end.

(** ** The working directory and the engine *)

(** A match object of [re.finditer] for a pattern with two groups. *)
Record re_match : Type := ReMatch {
  m_start : nat;
  m_end : nat;
  m_group1 : string;
  m_group2 : string
}.

(** What one run of the engine can end in: it exits with a return code,
    it is killed at the timeout, or the process cannot be started. *)
Inductive paup_outcome : Type :=
| Exited (returncode : Z) (stdout stderr : string)
| TimedOut (stdout stderr : string)
| LaunchFailed.

(** The collaborators that are not code of MLDecay.py. *)
Class Externals : Type := {
  (** [float(s)]; [None] stands for ValueError. *)
  py_float : string -> option float;
  (** [int(s)]; [None] stands for ValueError. *)
  py_int : string -> option Z;
  (** The text of a float inside an f-string. *)
  py_str_float : float -> string;
  (** [re.findall(pattern, text, re.IGNORECASE)] for a one-group pattern. *)
  re_findall : string -> string -> list string;
  (** [re.finditer(pattern, text)] for a two-group pattern. *)
  re_finditer : string -> string -> list re_match;
  (** [Phylo.read(path, 'newick')] on the text of the file. *)
  phylo_read : string -> result clade;
  (** The engine: the scripts run so far, the script to run, the timeout
      and the working directory give the outcome and the directory the
      engine leaves behind. *)
  paup : list string -> string -> py_num -> gmap string string ->
         paup_outcome * gmap string string
}.

(** ** File names and text constants *)

Definition NEXUS_ALIGNMENT_FN : string := "alignment.nex".
Definition ML_TREE_FN : string := "ml_tree.tre".
Definition ML_SCORE_FN : string := "ml_score.txt".
Definition ML_SEARCH_NEX_FN : string := "ml_search.nex".
Definition ML_LOG_FN : string := "paup_ml.log".
Definition AU_TEST_NEX_FN : string := "au_test.nex".
Definition AU_TEST_SCORE_FN : string := "au_test_results.txt".
Definition AU_LOG_FN : string := "paup_au.log".

Definition nl : string := String (ascii_of_nat 10) EmptyString.
Definition tab : string := String (ascii_of_nat 9) EmptyString.

(** ** The state of a run *)

(** The working directory and the scripts handed to the engine so far. *)
Record world : Type := World {
  files : gmap string string;
  invocations : list string
}.

(** [(self.temp_path / fn).write_text(content)] *)
Definition write_text (fn content : string) (w : world) : world :=
  World (<[fn := content]> (files w)) (invocations w).

(** [path.exists() and path.stat().st_size > 0] *)
Definition exists_nonempty (fn : string) (w : world) : bool :=
  match files w !! fn with
  | Some content => PyStr.truthy content
  | None => false
  end.

Record completed_process : Type := CompletedProcess {
  cp_returncode : Z;
  cp_stdout : string;
  cp_stderr : string
}.

Section Engine.
Context `{Externals}.

Definition str_num (n : py_num) : string :=
  match n with
  | PyInt z => NilEmpty.string_of_int (Z.to_int z)
  | PyFloat f => py_str_float f
  end.

(** The text left in the log file by a run that exits. *)
Definition log_text_exited (stdout stderr : string) : string :=
  "--- STDOUT ---" +:+ nl
  +:+ (if PyStr.truthy stdout then stdout
       else "No stdout captured." +:+ nl)
  +:+ (if PyStr.truthy stderr
       then nl +:+ "--- STDERR ---" +:+ nl +:+ stderr
       else EmptyString).

(** The text left in the log file by a run killed at the timeout. *)
Definition log_text_timeout (timeout_sec : py_num) (stdout stderr : string)
  : string :=
  "--- PAUP* Execution Timed Out (" +:+ str_num timeout_sec +:+ "s) ---"
  +:+ nl
  +:+ (if PyStr.truthy stdout
       then "--- STDOUT (partial) ---" +:+ nl +:+ stdout else EmptyString)
  +:+ (if PyStr.truthy stderr
       then nl +:+ "--- STDERR (partial) ---" +:+ nl +:+ stderr
       else EmptyString).

(** [_run_paup_command_file]: the log file is opened for writing first;
    the engine runs; its captured output is written to the log; a
    non-zero exit, a timeout or a failure to start is raised. *)
Definition _run_paup_command_file
    (paup_cmd_filename_str log_filename_str : string)
    (timeout_sec : py_num) (w : world)
  : result completed_process * world :=
  match files w !! paup_cmd_filename_str with
  | None => (Raise FileNotFoundError, w)
  | Some _ =>
      let opened := <[log_filename_str := EmptyString]> (files w) in
      let ran := invocations w ++ [paup_cmd_filename_str] in
      match paup (invocations w) paup_cmd_filename_str timeout_sec opened with
      | (LaunchFailed, _) => (Raise OSError, World opened ran)
      | (TimedOut stdout stderr, fs) =>
          (Raise TimeoutExpired,
           World (<[log_filename_str :=
                      log_text_timeout timeout_sec stdout stderr]> fs) ran)
      | (Exited retcode stdout stderr, fs) =>
          let w' :=
            World (<[log_filename_str := log_text_exited stdout stderr]> fs)
                  ran in
          if (retcode =? 0)%Z
          then (Ok (CompletedProcess retcode stdout stderr), w')
          else (Raise (CalledProcessError retcode), w')
      end
  end.

(** *** The score-file parser: [_parse_likelihood_from_score_file] *)

(** [' '.join(line_text.strip().lower().split())] *)
Definition normalize_line (line_text : string) : string :=
  PyStr.join " " (PyStr.split (PyStr.lower (PyStr.strip line_text))).

(** The test that makes a line a header candidate. *)
Definition header_like (norm_line : string) : bool :=
  PyStr.contains "tree" norm_line
  && (PyStr.contains "-lnl" norm_line
      || PyStr.contains "loglk" norm_line
      || PyStr.contains "likelihood" norm_line).

Definition lnl_col_names : list string :=
  ["-lnl"; "loglk"; "likelihood"; "-loglk"].

(** The inner loop over the column names: the index of the first name
    that is one of [headers]. *)
Fixpoint find_lnl_col (col_names headers : list string) : option nat :=
  match col_names with
  | [] => None
  | col_name :: rest =>
      match PyStr.index_of col_name headers with
      | Some i => Some i
      | None => find_lnl_col rest headers
      end
  end.

(** The header loop from line [i] on.  [header_idx] is the value the
    variable has so far ([None] for -1); the result is the final
    [(header_idx, lnl_col_idx)]. *)
Fixpoint find_header (i : nat) (header_idx : option nat)
    (lines : list string) : option nat * option nat :=
  match lines with
  | [] => (header_idx, None)
  | line_text :: rest =>
      let norm_line := normalize_line line_text in
      if header_like norm_line then
        match find_lnl_col lnl_col_names (PyStr.split norm_line) with
        | Some c => (Some i, Some c)
        | None => find_header (S i) (Some i) rest
        end
      else find_header (S i) header_idx rest
  end.

(** The loop over the data lines after the header. *)
Fixpoint scan_rows (lnl_col_idx : nat) (rows : list string) : option float :=
  match rows with
  | [] => None
  | row :: rest =>
      let data_line_text := PyStr.strip row in
      if negb (PyStr.truthy data_line_text) then scan_rows lnl_col_idx rest
      else
        let parts := PyStr.split data_line_text in
        match parts !! lnl_col_idx with
        | Some val_str =>
            if PyStr.has_char "*" val_str then scan_rows lnl_col_idx rest
            else
              match py_float val_str with
              | Some likelihood => Some likelihood
              | None => scan_rows lnl_col_idx rest
              end
        | None => scan_rows lnl_col_idx rest
        end
  end.

(** The parser on the lines of the file. *)
Definition parse_score_lines (lines : list string) : option float :=
  match find_header 0 None lines with
  | (Some header_idx, Some lnl_col_idx) =>
      scan_rows lnl_col_idx (drop (S header_idx) lines)
  | _ => None
  end.

Definition _parse_likelihood_from_score_file (score_file : string)
    (w : world) : option float :=
  match files w !! score_file with
  | None => None
  | Some content => parse_score_lines (PyStr.splitlines content)
  end.

End Engine.

(** ** Records of the analysis *)

(** One entry of [site_data]. *)
Record site_info : Type := SiteInfo {
  lnL_ML : float;
  lnL_constrained : float;
  delta_lnL : float;
  supports_branch : bool
}.

(** The dictionary returned by [_calculate_site_likelihoods]. *)
Record site_analysis : Type := SiteAnalysis {
  site_data : list (Z * site_info);
  supporting_sites : nat;
  conflicting_sites : nat;
  neutral_sites : nat;
  support_ratio : float;
  sum_supporting_delta : float;
  sum_conflicting_delta : float;
  weighted_support_ratio : float
}.

(** One value of the result of the AU test. *)
Record au_entry : Type := AUEntry {
  au_lnL : float;
  au_AU_pvalue : option float
}.

(** One value of [constraint_info_map]; [ci_site] holds the keys merged in
    by the site analysis, when it gave a result. *)
Record constraint_info : Type := ConstraintInfo {
  ci_taxa : list string;
  ci_paup_tree_index : nat;
  ci_constrained_lnl : option float;
  ci_lnl_diff : option float;
  ci_tree_filename : string;
  ci_site : option site_analysis
}.

(** One value of [decay_indices]. *)
Record decay_record : Type := DecayRecord {
  taxa : list string;
  lnl_diff : option float;
  constrained_lnl : option float;
  AU_pvalue : option float;
  significant_AU : option bool;
  site : option site_analysis
}.

(** The attributes of the object that the modelled methods read or write.
    [starting_tree] is [None] when no path was given, and otherwise the
    content of the file at that path, if it exists. *)
Record self_state : Type := Self {
  alignment_ids : list string;
  threads : nat;
  data_type : string;
  parsmodel : bool;
  paup_model_cmds : string;
  user_paup_block : option string;
  starting_tree : option (option string);
  files_to_cleanup : list string;
  ml_tree : option clade;
  ml_likelihood : option float;
  decay_indices : PyDict.t decay_record
}.

Definition set_ml (t : option clade) (l : option float) (fc : list string)
    (s : self_state) : self_state :=
  Self (alignment_ids s) (threads s) (data_type s) (parsmodel s)
       (paup_model_cmds s) (user_paup_block s) (starting_tree s)
       fc t l (decay_indices s).

Definition set_decay (l : option float) (d : PyDict.t decay_record)
    (s : self_state) : self_state :=
  Self (alignment_ids s) (threads s) (data_type s) (parsmodel s)
       (paup_model_cmds s) (user_paup_block s) (starting_tree s)
       (files_to_cleanup s) (ml_tree s) l d.

(** ** Scripts *)

(** [_get_paup_model_setup_cmds] *)
Definition _get_paup_model_setup_cmds (self : self_state) : string :=
  match user_paup_block self with
  | None =>
      let model_params_only :=
        PyStr.replace_first "lset " EmptyString (paup_model_cmds self) in
      let base_cmds :=
        ["lset nthreads=" +:+ PyStr.of_nat (threads self) +:+ " "
           +:+ model_params_only;
         "set criterion=likelihood;"]
        ++ (if String.eqb (data_type self) "discrete"
            then "options deftype=unord polytcount=minsteps;"
                 :: (if parsmodel self then ["set parsmodel=yes;"] else [])
            else []) in
      PyStr.join nl (map (fun cmd => "    " +:+ cmd) base_cmds)
  | Some _ => paup_model_cmds self
  end.

(** The text of a script: [#NEXUS], [begin paup;], the commands, [quit;],
    [end;]. *)
Definition paup_script (script_cmds : list string) : string :=
  "#NEXUS" +:+ nl +:+ "begin paup;" +:+ nl
  +:+ PyStr.join nl script_cmds
  +:+ nl +:+ "quit;" +:+ nl +:+ "end;" +:+ nl.

(** The first two lines of every script. *)
Definition script_head (self : self_state) : list string :=
  ["execute " +:+ NEXUS_ALIGNMENT_FN +:+ ";";
   _get_paup_model_setup_cmds self].

(** The patterns of the fall-back search in the log. *)
Definition lnl_log_patterns : list string :=
  ["-ln\s*L\s*=\s*([0-9.]+)";
   "likelihood\s*=\s*([0-9.]+)";
   "score\s*=\s*([0-9.]+)"].

Section Methods.
Context `{Externals}.

(** The loop over the patterns: the last match of the first pattern that
    matches, as a float; [float] may raise ValueError. *)
Fixpoint lnl_from_log (patterns : list string) (text : string)
  : result (option float) :=
  match patterns with
  | [] => Ok None
  | p :: rest =>
      match last (re_findall p text) with
      | Some m_last =>
          match py_float m_last with
          | Some v => Ok (Some v)
          | None => Raise ValueError
          end
      | None => lnl_from_log rest text
      end
  end.

(** *** The joint test: [run_au_test] *)

(** The class [MLDecayIndices] defines no attribute [_parse_au_results]:
    the name occurs once in MLDecay.py, in the call inside [run_au_test].
    Evaluating [self._parse_au_results] raises AttributeError. *)
Definition _parse_au_results (log_file : string) (w : world)
  : result (gmap Z au_entry) :=
  Raise AttributeError.

(** [max(1800, 600 * num_trees / 10)] *)
Definition au_timeout (num_trees : nat) : py_num :=
  let scaled := (PyFloat.of_nat (600 * num_trees) / 10)%float in
  if PyFloat.gt scaled 1800%float then PyFloat scaled else PyInt 1800.

Definition au_script_cmds (self : self_state)
    (tree_filenames_relative : list string) : list string :=
  script_head self
  ++ ["gettrees file=" +:+ default EmptyString (head tree_filenames_relative)
        +:+ " mode=3 storebrlens=yes;"]
  ++ map (fun rel_fn => "gettrees file=" +:+ rel_fn
                        +:+ " mode=7 storebrlens=yes;")
         (tail tree_filenames_relative)
  ++ ["lscores 1-" +:+ PyStr.of_nat (length tree_filenames_relative)
        +:+ " / autest=yes scorefile=" +:+ AU_TEST_SCORE_FN
        +:+ " replace=yes;"].

Definition run_au_test (self : self_state)
    (tree_filenames_relative : list string) (w : world)
  : option (gmap Z au_entry) * world :=
  match tree_filenames_relative with
  | [] => (None, w)
  | first :: _ =>
      let num_trees := length tree_filenames_relative in
      if num_trees <? 2 then
        match (num_trees =? 1) && String.eqb first ML_TREE_FN,
              ml_likelihood self with
        | true, Some ml =>
            (Some {[ 1%Z := AUEntry ml (Some 1%float) ]}, w)
        | _, _ => (None, w)
        end
      else
        let w1 :=
          write_text AU_TEST_NEX_FN
            (paup_script (au_script_cmds self tree_filenames_relative)) w in
        match _run_paup_command_file AU_TEST_NEX_FN AU_LOG_FN
                (au_timeout num_trees) w1 with
        | (Ok _, w2) =>
            match _parse_au_results AU_LOG_FN w2 with
            | Ok r => (Some r, w2)
            | Raise _ => (None, w2)
            end
        | (Raise _, w2) => (None, w2)
        end
  end.

(** *** The constrained search of one branch:
    [_generate_and_score_constraint_tree] *)

Definition constr_tree_fn (tree_idx : nat) : string :=
  "constraint_tree_" +:+ PyStr.of_nat tree_idx +:+ ".tre".
Definition constr_score_fn (tree_idx : nat) : string :=
  "constraint_score_" +:+ PyStr.of_nat tree_idx +:+ ".txt".
Definition constr_cmd_fn (tree_idx : nat) : string :=
  "constraint_search_" +:+ PyStr.of_nat tree_idx +:+ ".nex".
Definition constr_log_fn (tree_idx : nat) : string :=
  "paup_constraint_" +:+ PyStr.of_nat tree_idx +:+ ".log".

Definition savetrees_cmd (fn : string) : string :=
  "savetrees file=" +:+ fn +:+ " format=newick brlens=yes replace=yes;".
Definition lscores_cmd (fn : string) : string :=
  "lscores 1 / scorefile=" +:+ fn +:+ " replace=yes;".

Definition constraint_script_cmds (self : self_state)
    (formatted_clade_taxa : list string) (tree_idx : nat) : list string :=
  let clade_spec :=
    "((" +:+ PyStr.join ", " formatted_clade_taxa +:+ "));" in
  script_head self
  ++ ["constraints clade_constraint (MONOPHYLY) = " +:+ clade_spec;
      "set maxtrees=100 increase=auto;"]
  ++ match user_paup_block self with
     | None =>
         ["hsearch start=stepwise addseq=random nreps=1;";
          "hsearch start=1 enforce=yes converse=yes constraints=clade_constraint;";
          savetrees_cmd (constr_tree_fn tree_idx);
          lscores_cmd (constr_score_fn tree_idx)]
     | Some block =>
         let block_lower := PyStr.lower block in
         (if negb (existsb (fun cmd => PyStr.contains cmd block_lower)
                           ["hsearch"; "bandb"; "alltrees"])
          then ["hsearch start=stepwise addseq=random nreps=1;"] else [])
         ++ ["hsearch start=1 enforce=yes converse=yes constraints=clade_constraint;"]
         ++ (if negb (PyStr.contains "savetrees" block_lower)
             then [savetrees_cmd (constr_tree_fn tree_idx)] else [])
         ++ (if negb (PyStr.contains "lscores" block_lower)
                && negb (PyStr.contains "lscore" block_lower)
             then [lscores_cmd (constr_score_fn tree_idx)] else [])
     end.

(** The result is the pair (relative tree file name or [None],
    likelihood or [None]). *)
Definition _generate_and_score_constraint_tree (self : self_state)
    (clade_taxa : list string) (tree_idx : nat) (w : world)
  : (option string * option float) * world :=
  let formatted_clade_taxa := map _format_taxon_for_paup clade_taxa in
  match formatted_clade_taxa with
  | [] => ((None, None), w)
  | _ :: _ =>
      if length clade_taxa =? length (alignment_ids self)
      then ((None, None), w)
      else
        let w1 :=
          write_text (constr_cmd_fn tree_idx)
            (paup_script
               (constraint_script_cmds self formatted_clade_taxa tree_idx))
            w in
        match _run_paup_command_file (constr_cmd_fn tree_idx)
                (constr_log_fn tree_idx) (PyInt 600) w1 with
        | (Raise _, w2) => ((None, None), w2)
        | (Ok _, w2) =>
            let constrained_lnl :=
              _parse_likelihood_from_score_file (constr_score_fn tree_idx)
                w2 in
            if exists_nonempty (constr_tree_fn tree_idx) w2
            then ((Some (constr_tree_fn tree_idx), constrained_lnl), w2)
            else
              match constrained_lnl with
              | Some _ => ((None, constrained_lnl), w2)
              | None =>
                  match files w2 !! constr_log_fn tree_idx with
                  | None => ((None, None), w2)
                  | Some log_content =>
                      match lnl_from_log lnl_log_patterns log_content with
                      | Ok lnl => ((None, lnl), w2)
                      | Raise _ => ((None, None), w2)
                      end
                  end
              end
        end
  end.

(** *** Site likelihoods: [_calculate_site_likelihoods] *)

Definition tree_header_pattern : string := "(\d+)\t([-\d\.]+)\t-\t-".
Definition site_lnl_pattern : string := "\t\t(\d+)\t([-\d\.]+)".

(** [sum(1 for d in deltas if p(d))] *)
Definition count_if (p : float -> bool) (deltas : list float) : nat :=
  length (List.filter p deltas).

Definition is_supporting (d : float) : bool := PyFloat.lt d 0%float.
Definition is_conflicting (d : float) : bool := PyFloat.gt d 0%float.
Definition is_neutral (d : float) : bool := PyFloat.lt (abs d) 1e-6%float.

(** The summary statistics computed from the deltas, returned together
    with [site_data]. *)
Definition site_summary (sd : list (Z * site_info)) (deltas : list float)
  : site_analysis :=
  let supporting := count_if is_supporting deltas in
  let conflicting := count_if is_conflicting deltas in
  let neutral := count_if is_neutral deltas in
  let sum_supporting := PyFloat.sum (List.filter is_supporting deltas) in
  let sum_conflicting := PyFloat.sum (List.filter is_conflicting deltas) in
  let weighted :=
    if PyFloat.gt sum_conflicting 0%float
    then (abs sum_supporting / sum_conflicting)%float
    else infinity in
  let ratio :=
    if 0 <? conflicting
    then (PyFloat.of_nat supporting / PyFloat.of_nat conflicting)%float
    else infinity in
  SiteAnalysis sd supporting conflicting neutral ratio
               sum_supporting sum_conflicting weighted.

(** [site_data]: one entry per site present in both dictionaries, in
    increasing order of the site number. *)
Definition make_site_data (tree1_lnl tree2_lnl : gmap Z float)
  : list (Z * site_info) :=
  let all_sites :=
    merge_sort Z.le (elements (dom tree1_lnl ∩ dom tree2_lnl)) in
  omap (fun site_num =>
          match tree1_lnl !! site_num, tree2_lnl !! site_num with
          | Some ml_lnl, Some constrained =>
              let delta := (ml_lnl - constrained)%float in
              Some (site_num,
                    SiteInfo ml_lnl constrained delta (is_supporting delta))
          | _, _ => None
          end) all_sites.

(** The part of the method after the two dictionaries are filled. *)
Definition analyse_site_lnl (tree1_lnl tree2_lnl : gmap Z float)
  : option site_analysis :=
  if size tree1_lnl =? 0 then None
  else if size tree2_lnl =? 0 then None
  else
    let sd := make_site_data tree1_lnl tree2_lnl in
    match sd with
    | [] => None
    | _ :: _ => Some (site_summary sd (map (fun e => delta_lnL (snd e)) sd))
    end.

(** [text[a:b]] and [text[a:]] *)
Definition slice (a b : nat) (text : string) : string :=
  String.substring a (b - a) text.
Definition slice_from (a : nat) (text : string) : string :=
  String.substring a (String.length text - a) text.

(** The loop over the site lines of one section. *)
Fixpoint add_sites (site_matches : list re_match) (d : gmap Z float)
  : result (gmap Z float) :=
  match site_matches with
  | [] => Ok d
  | site_match :: rest =>
      match py_int (m_group1 site_match) with
      | None => Raise ValueError
      | Some site_num =>
          match py_float (m_group2 site_match) with
          | None => Raise ValueError
          | Some lnl_val => add_sites rest (<[site_num := lnl_val]> d)
          end
      end
  end.

(** The loop over [enumerate(tree_headers[:2])], from index [i] on. *)
Fixpoint read_sections (content : string) (tree_headers : list re_match)
    (i : nat) (todo : list re_match) (tree1_lnl tree2_lnl : gmap Z float)
  : result (gmap Z float * gmap Z float) :=
  match todo with
  | [] => Ok (tree1_lnl, tree2_lnl)
  | header_match :: rest =>
      match py_int (m_group1 header_match) with
      | None => Raise ValueError
      | Some tree_num =>
          let section_text :=
            if i <? length tree_headers - 1 then
              match tree_headers !! (i + 1) with
              | Some next_header =>
                  slice (m_end header_match) (m_start next_header) content
              | None => EmptyString
              end
            else slice_from (m_end header_match) content in
          let site_matches := re_finditer site_lnl_pattern section_text in
          if (tree_num =? 1)%Z then
            match add_sites site_matches tree1_lnl with
            | Ok t1 => read_sections content tree_headers (S i) rest t1
                         tree2_lnl
            | Raise e => Raise e
            end
          else
            match add_sites site_matches tree2_lnl with
            | Ok t2 => read_sections content tree_headers (S i) rest
                         tree1_lnl t2
            | Raise e => Raise e
            end
      end
  end.

(** The method from the reading of the site-likelihood file on. *)
Definition parse_site_lnl (site_lnl_content : string)
  : option site_analysis :=
  let tree_headers := re_finditer tree_header_pattern site_lnl_content in
  if length tree_headers <? 2 then None
  else
    match read_sections site_lnl_content tree_headers 0
            (take 2 tree_headers) ∅ ∅ with
    | Ok (tree1_lnl, tree2_lnl) => analyse_site_lnl tree1_lnl tree2_lnl
    | Raise _ => None
    end.

Definition _calculate_site_likelihoods (self : self_state)
    (tree_files_list : list string) (branch_id : string) (w : world)
  : option site_analysis * world :=
  match tree_files_list with
  | [ml_file; constrained_file] =>
      let site_lnl_file := "site_lnl_" +:+ branch_id +:+ ".txt" in
      let site_script_file := "site_analysis_" +:+ branch_id +:+ ".nex" in
      let site_log_file := "site_analysis_" +:+ branch_id +:+ ".log" in
      let script_cmds :=
        script_head self
        ++ ["gettrees file=" +:+ ml_file +:+ " mode=3 storebrlens=yes;";
            "gettrees file=" +:+ constrained_file
              +:+ " mode=7 storebrlens=yes;";
            "lscores 1-2 / sitelikes=yes scorefile=" +:+ site_lnl_file
              +:+ " replace=yes;"] in
      let w1 := write_text site_script_file (paup_script script_cmds) w in
      match _run_paup_command_file site_script_file site_log_file
              (PyInt 600) w1 with
      | (Raise _, w2) => (None, w2)
      | (Ok _, w2) =>
          match files w2 !! site_lnl_file with
          | None => (None, w2)
          | Some site_lnl_content => (parse_site_lnl site_lnl_content, w2)
          end
      end
  | _ => (None, w)
  end.

(** *** The optimum: [_clean_newick_tree] and [build_ml_tree] *)

(** [content.split(';')[0]] *)
Fixpoint before_semicolon (s : string) : string :=
  match s with
  | EmptyString => EmptyString
  | String c s' =>
      if Ascii.eqb c ";" then EmptyString else String c (before_semicolon s')
  end.

(** [re.search(r';(.+)', content, re.DOTALL)], as a truth value: some
    semicolon is followed by at least one character. *)
Fixpoint text_after_semicolon (s : string) : bool :=
  match s with
  | EmptyString => false
  | String c s' =>
      (Ascii.eqb c ";" && PyStr.truthy s') || text_after_semicolon s'
  end.

(** The result is the path to read the tree from. *)
Definition _clean_newick_tree (self : self_state) (tree_path : string)
    (w : world) : string * self_state * world :=
  match files w !! tree_path with
  | None => (tree_path, self, w)
  | Some content =>
      if text_after_semicolon content then
        let cleaned_path := tree_path +:+ ".cleaned" in
        (cleaned_path,
         set_ml (ml_tree self) (ml_likelihood self)
                (files_to_cleanup self ++ [cleaned_path]) self,
         write_text cleaned_path (before_semicolon content +:+ ";") w)
      else (tree_path, self, w)
  end.

Definition ml_script_cmds (self : self_state) : list string :=
  script_head self
  ++ match user_paup_block self with
     | None =>
         match starting_tree self with
         | Some (Some _) =>
             ["gettrees file=start_tree.tre;";
              "lscores 1 / userbrlen=yes;"; "hsearch start=current;"]
         | _ => ["hsearch start=stepwise addseq=random nreps=10;"]
         end
         ++ [savetrees_cmd ML_TREE_FN; lscores_cmd ML_SCORE_FN]
     | Some block =>
         let block_lower := PyStr.lower block in
         (if negb (PyStr.contains "savetrees" block_lower)
          then [savetrees_cmd ML_TREE_FN] else [])
         ++ (if negb (PyStr.contains "lscores" block_lower)
                && negb (PyStr.contains "lscore" block_lower)
             then [lscores_cmd ML_SCORE_FN] else [])
     end.

Definition build_ml_tree (self : self_state) (w : world)
  : result unit * self_state * world :=
  let w0 :=
    match user_paup_block self, starting_tree self with
    | None, Some (Some start_content) =>
        write_text "start_tree.tre" start_content w
    | _, _ => w
    end in
  let w1 := write_text ML_SEARCH_NEX_FN (paup_script (ml_script_cmds self))
              w0 in
  match _run_paup_command_file ML_SEARCH_NEX_FN ML_LOG_FN (PyInt 3600) w1
  with
  | (Raise e, w2) => (Raise e, self, w2)
  | (Ok paup_result, w2) =>
      let parsed := _parse_likelihood_from_score_file ML_SCORE_FN w2 in
      let fallback :=
        match parsed with
        | None =>
            if PyStr.truthy (cp_stdout paup_result)
            then lnl_from_log lnl_log_patterns (cp_stdout paup_result)
            else Ok None
        | Some _ => Ok parsed
        end in
      match fallback with
      | Raise e =>
          (Raise e,
           set_ml (ml_tree self) None (files_to_cleanup self) self, w2)
      | Ok lnl =>
          let self1 := set_ml (ml_tree self) lnl (files_to_cleanup self)
                         self in
          if exists_nonempty ML_TREE_FN w2 then
            let '(cleaned_tree_path, self2, w3) :=
              _clean_newick_tree self1 ML_TREE_FN w2 in
            match files w3 !! cleaned_tree_path with
            | None => (Raise FileNotFoundError, self2, w3)
            | Some newick =>
                match phylo_read newick with
                | Ok t =>
                    (Ok tt,
                     set_ml (Some t) lnl (files_to_cleanup self2) self2, w3)
                | Raise e => (Raise e, self2, w3)
                end
            end
          else (Raise FileNotFoundError, self1, w2)
      end
  end.

(** *** The decay indices: [calculate_decay_indices] *)

(** The variables of the branch loop. *)
Record loop_state : Type := LoopState {
  all_tree_files_rel : list string;
  constraint_info_map : PyDict.t constraint_info;
  loop_world : world
}.

(** The test of the [continue] of the loop:
    [len(clade_taxa_names) <= 1 or
     len(clade_taxa_names) >= total_taxa_count - 1]. *)
Definition trivial_branch (n_clade total_taxa_count : nat) : bool :=
  (Z.of_nat n_clade <=? 1)%Z
  || (Z.of_nat n_clade >=? Z.of_nat total_taxa_count - 1)%Z.

Definition clade_id_of (clade_log_idx : nat) : string :=
  "Clade_" +:+ PyStr.of_nat clade_log_idx.

(** The names of the leaves under a clade. *)
Definition clade_taxa (clade_obj : clade) : list string :=
  map clade_name (get_terminals clade_obj).

(** One turn of the loop, for the clade at position [i] of
    [internal_clades]. *)
Definition branch_step (self : self_state) (total_taxa_count : nat)
    (i : nat) (clade_obj : clade) (st : loop_state) : loop_state :=
  let clade_log_idx := i + 1 in
  let clade_taxa_names := clade_taxa clade_obj in
  if trivial_branch (length clade_taxa_names) total_taxa_count then st
  else
    let '((rel_constr_tree_fn, constr_lnl), w') :=
      _generate_and_score_constraint_tree self clade_taxa_names
        clade_log_idx (loop_world st) in
    match rel_constr_tree_fn with
    | Some fn =>
        if PyStr.truthy fn then
          let trees := all_tree_files_rel st ++ [fn] in
          let diff :=
            match constr_lnl, ml_likelihood self with
            | Some c, Some ml => Some (c - ml)%float
            | _, _ => None
            end in
          LoopState trees
            (PyDict.set (clade_id_of clade_log_idx)
               (ConstraintInfo clade_taxa_names (length trees) constr_lnl
                  diff fn None)
               (constraint_info_map st))
            w'
        else LoopState (all_tree_files_rel st) (constraint_info_map st) w'
    | None => LoopState (all_tree_files_rel st) (constraint_info_map st) w'
    end.

(** The loop over [enumerate(internal_clades)], from position [i] on. *)
Fixpoint branch_loop (self : self_state) (total_taxa_count : nat)
    (i : nat) (internal_clades : list clade) (st : loop_state)
  : loop_state :=
  match internal_clades with
  | [] => st
  | clade_obj :: rest =>
      branch_loop self total_taxa_count (S i) rest
        (branch_step self total_taxa_count i clade_obj st)
  end.

Definition with_site (res : site_analysis) (cdata : constraint_info)
  : constraint_info :=
  ConstraintInfo (ci_taxa cdata) (ci_paup_tree_index cdata)
    (ci_constrained_lnl cdata) (ci_lnl_diff cdata) (ci_tree_filename cdata)
    (Some res).

(** One turn of the site-analysis loop. *)
Definition site_step (self : self_state)
    (st : PyDict.t constraint_info * world)
    (item : string * constraint_info)
  : PyDict.t constraint_info * world :=
  let '(clade_id, cdata) := item in
  if PyStr.truthy (ci_tree_filename cdata) then
    let '(site_analysis_result, w') :=
      _calculate_site_likelihoods self [ML_TREE_FN; ci_tree_filename cdata]
        clade_id (snd st) in
    match site_analysis_result with
    | Some res => (PyDict.alter (with_site res) clade_id (fst st), w')
    | None => (fst st, w')
    end
  else st.

(** The record a branch starts with in [decay_indices]. *)
Definition initial_record (cdata : constraint_info) : decay_record :=
  DecayRecord (ci_taxa cdata) (ci_lnl_diff cdata) (ci_constrained_lnl cdata)
    None None (ci_site cdata).

(** The first loop of the last phase: one record per entry of
    [constraint_info_map]. *)
Definition populate (cmap : PyDict.t constraint_info)
  : PyDict.t decay_record :=
  fold_left (fun d item => PyDict.set (fst item) (initial_record (snd item)) d)
    cmap [].

(** The re-computation of every difference after the optimum changed. *)
Definition recalc_diff (ml : float) (r : decay_record) : decay_record :=
  match constrained_lnl r with
  | Some c =>
      DecayRecord (taxa r) (Some (c - ml)%float) (constrained_lnl r)
        (AU_pvalue r) (significant_AU r) (site r)
  | None => r
  end.

(** The update of the optimum from tree 1 of the test. *)
Definition au_update_ml (au : gmap Z au_entry) (ml : option float)
    (d : PyDict.t decay_record) : option float * PyDict.t decay_record :=
  match au !! 1%Z, ml with
  | Some e, Some m =>
      if PyFloat.gt (abs (au_lnL e - m)) 1e-3%float
      then (Some (au_lnL e),
            map (fun kv => (fst kv, recalc_diff (au_lnL e) (snd kv))) d)
      else (ml, d)
  | _, _ => (ml, d)
  end.

(** The update of one record from the entry of its tree in the test. *)
Definition au_update_record (e : au_entry) (ml : option float)
    (r : decay_record) : decay_record :=
  let sig :=
    match au_AU_pvalue e with
    | Some p => Some (PyFloat.lt p 0.05%float)
    | None => significant_AU r
    end in
  let overwrite :=
    match constrained_lnl r with
    | None => true
    | Some current => PyFloat.gt (abs (current - au_lnL e)) 1e-3%float
    end in
  if overwrite then
    DecayRecord (taxa r)
      (match ml with
       | Some m => Some (au_lnL e - m)%float
       | None => lnl_diff r
       end)
      (Some (au_lnL e)) (au_AU_pvalue e) sig (site r)
  else
    DecayRecord (taxa r) (lnl_diff r) (constrained_lnl r) (au_AU_pvalue e)
      sig (site r).

(** One turn of the loop that attaches the results of the test. *)
Definition au_step (au : gmap Z au_entry) (ml : option float)
    (d : PyDict.t decay_record) (item : string * constraint_info)
  : PyDict.t decay_record :=
  match au !! Z.of_nat (ci_paup_tree_index (snd item)) with
  | Some e => PyDict.alter (au_update_record e ml) (fst item) d
  | None => d
  end.

(** Truth value of the result of the test: not [None] and not empty. *)
Definition au_truthy (au_test_results : option (gmap Z au_entry))
  : option (gmap Z au_entry) :=
  match au_test_results with
  | Some au => if size au =? 0 then None else Some au
  | None => None
  end.

(** The last phase: from [self.decay_indices = {}] to the return.  The
    result is the final optimum likelihood and the final records. *)
Definition finalize (cmap : PyDict.t constraint_info)
    (au_test_results : option (gmap Z au_entry)) (ml : option float)
  : option float * PyDict.t decay_record :=
  let d0 := populate cmap in
  match au_truthy au_test_results with
  | Some au =>
      let '(ml', d1) := au_update_ml au ml d0 in
      (ml', fold_left (au_step au ml') cmap d1)
  | None => (ml, d0)
  end.

(** The variables of the branch loop before its first turn. *)
Definition loop_start (w : world) : loop_state :=
  LoopState [ML_TREE_FN] [] w.

(** The branch loop over the internal clades of the optimum tree. *)
Definition run_branch_loop (self : self_state) (tree : clade) (w : world)
  : loop_state :=
  branch_loop self (length (get_terminals tree)) 0 (get_nonterminals tree)
    (loop_start w).

(** The site-analysis loop over a snapshot of [constraint_info_map], when
    it was asked for. *)
Definition site_phase (perform_site_analysis : bool) (self : self_state)
    (cmap : PyDict.t constraint_info) (w : world)
  : PyDict.t constraint_info * world :=
  if perform_site_analysis
  then fold_left (site_step self) cmap (cmap, w)
  else (cmap, w).

(** The method from the check of the optimum on.  The result is the
    returned dictionary, with the object and the working directory. *)
Definition decay_from_optimum (perform_site_analysis : bool)
    (self : self_state) (w : world)
  : PyDict.t decay_record * self_state * world :=
  match ml_tree self, ml_likelihood self with
  | Some tree, Some _ =>
      match get_nonterminals tree with
      | [] => ([], self, w)
      | _ :: _ =>
          let st := run_branch_loop self tree w in
          match constraint_info_map st with
          | [] => ([], set_decay (ml_likelihood self) [] self, loop_world st)
          | _ :: _ =>
              let '(cmap, w1) :=
                site_phase perform_site_analysis self
                  (constraint_info_map st) (loop_world st) in
              let '(au_test_results, w2) :=
                run_au_test self (all_tree_files_rel st) w1 in
              let '(ml', d) :=
                finalize cmap au_test_results (ml_likelihood self) in
              (d, set_decay ml' d self, w2)
          end
      end
  | _, _ => ([], self, w)
  end.

Definition calculate_decay_indices (perform_site_analysis : bool)
    (self : self_state) (w : world)
  : PyDict.t decay_record * self_state * world :=
  match ml_tree self with
  | None =>
      match build_ml_tree self w with
      | (Ok _, self', w') =>
          decay_from_optimum perform_site_analysis self' w'
      | (Raise _, self', w') => ([], self', w')
      end
  | Some _ => decay_from_optimum perform_site_analysis self w
  end.

End Methods.

(** ** Reference collaborators

    Instances of the collaborators on which the model can be run: [float]
    and [int] on plain decimal notation, and engines that write given
    files.  They serve the examples at concrete inputs only. *)

Module Fixtures.

Definition digit_of (c : ascii) : option Z :=
  let n := nat_of_ascii c in
  if (48 <=? n) && (n <=? 57) then Some (Z.of_nat (n - 48)) else None.

(** The value of a run of decimal digits after the digits read so far. *)
Fixpoint digits_from (acc : Z) (s : string) : option Z :=
  match s with
  | EmptyString => Some acc
  | String c s' =>
      match digit_of c with
      | Some d => digits_from (10 * acc + d) s'
      | None => None
      end
  end.

(** [int(s)] for an unsigned run of digits. *)
Definition int_of_string (s : string) : option Z :=
  match s with
  | EmptyString => None
  | _ => digits_from 0 s
  end.

(** The digits of [s] up to the point, and the digits after it. *)
Fixpoint split_point (s : string) : string * option string :=
  match s with
  | EmptyString => (EmptyString, None)
  | String c s' =>
      if Ascii.eqb c "." then (EmptyString, Some s')
      else let '(a, b) := split_point s' in (String c a, b)
  end.

(** [float(s)] for an optional sign, digits, and an optional point with
    digits, when the digits fit 15 places; the quotient of two exactly
    represented integers is rounded once, as the conversion is. *)
Definition unsigned_float_of_string (s : string) : option float :=
  let '(int_part, frac) := split_point s in
  let frac_part := default EmptyString frac in
  let all_digits := int_part +:+ frac_part in
  if (String.length all_digits =? 0) || (15 <? String.length all_digits)
  then None
  else
    match digits_from 0 all_digits with
    | Some m =>
        Some (of_uint63 (Uint63.of_Z m)
              / of_uint63 (Uint63.of_Z (10 ^ Z.of_nat (String.length frac_part))))%float
    | None => None
    end.

Definition float_of_string (s : string) : option float :=
  match s with
  | String "-" s' => PrimFloat.opp <$> unsigned_float_of_string s'
  | String "+" s' => unsigned_float_of_string s'
  | _ => unsigned_float_of_string s
  end.

(** An engine given as a table: the files a script leaves behind, with
    its return code. *)
Definition table_engine (table : list (string * (Z * list (string * string))))
    (_ : list string) (script : string) (_ : py_num)
    (fs : gmap string string) : paup_outcome * gmap string string :=
  match PyDict.get script table with
  | Some (rc, outputs) =>
      (Exited rc "done" EmptyString,
       fold_left (fun m kv => <[fst kv := snd kv]> m) outputs fs)
  | None => (LaunchFailed, fs)
  end.

(** The collaborators around a table engine; the regular expressions
    find nothing and no tree file is readable. *)
Definition externals_of
    (table : list (string * (Z * list (string * string)))) : Externals :=
  {| py_float := float_of_string;
     py_int := int_of_string;
     py_str_float := fun _ => "nan";
     re_findall := fun _ _ => [];
     re_finditer := fun _ _ => [];
     phylo_read := fun _ => Raise ValueError;
     paup := table_engine table |}.

(** An object with one thread, a DNA model and no user block. *)
Definition self_of (ids : list string) (tree : option clade)
    (ml : option float) : self_state :=
  Self ids 1 "dna" false "lset nst=6;" None None [] tree ml [].

(** An empty working directory in which no script was run. *)
Definition empty_world : world := World ∅ [].

(** An engine for which the joint test exits with code 0. *)
Definition au_table : list (string * (Z * list (string * string))) :=
  [("au_test.nex", (0%Z, [("au_test_results.txt", "Tree -lnL")]))].

(** A working directory that holds one score file. *)
Definition score_world (content : string) : world :=
  World {[ "score.txt" := content ]} [].

(** A score file with the header and the data row of the example, and
    one whose first data row holds stars in the likelihood column. *)
Definition score_plain : string :=
  "Tree" +:+ tab +:+ "-lnL" +:+ nl +:+ "1  -1234.5678" +:+ nl.
Definition score_stars : string :=
  "  TREE   -LnL" +:+ nl +:+ "1  **********" +:+ nl +:+ "2  -99.5" +:+ nl.

(** A tree on five taxa with the internal clades (A,B) and (C,D) below
    the root. *)
Definition leaf (name : string) : clade := Clade name [].
Definition clade_AB : clade := Clade EmptyString [leaf "A"; leaf "B"].
Definition clade_CD : clade := Clade EmptyString [leaf "C"; leaf "D"].
Definition five_taxa : clade :=
  Clade EmptyString [clade_AB; clade_CD; leaf "E"].

(** An engine whose search for branch 2 leaves a tree file and a score
    file, and whose search for branch 3 leaves a score file and no tree
    file; the joint test exits with code 0. *)
Definition partial_table : list (string * (Z * list (string * string))) :=
  [("constraint_search_2.nex",
    (0%Z, [("constraint_tree_2.tre", "((C,D),(A,E),B);");
           ("constraint_score_2.txt",
            "Tree" +:+ tab +:+ "-lnL" +:+ nl +:+ "1" +:+ tab +:+ "1005.2"
            +:+ nl)]));
   ("constraint_search_3.nex",
    (0%Z, [("constraint_score_3.txt",
            "Tree" +:+ tab +:+ "-lnL" +:+ nl +:+ "1" +:+ tab +:+ "1000.1"
            +:+ nl)]));
   ("au_test.nex", (0%Z, []))].

(** An object whose optimum is the five-taxon tree with likelihood 1000. *)
Definition five_taxa_self : self_state :=
  self_of ["A"; "B"; "C"; "D"; "E"] (Some five_taxa) (Some 1000%float).

(** An entry of [constraint_info_map] for branch 2. *)
Definition one_branch_map : PyDict.t constraint_info :=
  [("Clade_2",
    ConstraintInfo ["A"; "B"] 2 (Some 1005.2%float)
      (Some (1005.2 - 1000)%float) "constraint_tree_2.tre" None)].

End Fixtures.


(** ** Notions used to state the properties of the branch loop *)

Section LoopNotions.
Context `{Externals}.

(** The loop variables when the turn for position [i] of
    [internal_clades] starts. *)
Definition state_before (self : self_state) (tree : clade) (w : world)
    (i : nat) : loop_state :=
  branch_loop self (length (get_terminals tree)) 0
    (take i (get_nonterminals tree)) (loop_start w).

(** The constrained search of the turn for position [i], run in the state
    the turn starts in. *)
Definition search_of (self : self_state) (i : nat) (clade_obj : clade)
    (st : loop_state) : (option string * option float) * world :=
  _generate_and_score_constraint_tree self (clade_taxa clade_obj) (i + 1)
    (loop_world st).

(** The search of a turn produced a tree: it returned a non-empty file
    name. *)
Definition produced_tree (r : (option string * option float) * world)
    : bool :=
  match fst (fst r) with
  | Some fn => PyStr.truthy fn
  | None => false
  end.

(** The entry a turn stores in [constraint_info_map], if it stores one. *)
Definition stored_info (self : self_state) (total_taxa_count : nat)
    (i : nat) (clade_obj : clade) (st : loop_state)
  : option constraint_info :=
  if trivial_branch (length (clade_taxa clade_obj)) total_taxa_count
  then None
  else
    let r := search_of self i clade_obj st in
    match fst (fst r) with
    | Some fn =>
        if PyStr.truthy fn then
          Some (ConstraintInfo (clade_taxa clade_obj)
                  (length (all_tree_files_rel st ++ [fn]))
                  (snd (fst r))
                  (match snd (fst r), ml_likelihood self with
                   | Some c, Some ml => Some (c - ml)%float
                   | _, _ => None
                   end)
                  fn None)
        else None
    | None => None
    end.

(** The list of tree files holds the optimum tree and one file for every
    entry of [constraint_info_map]. *)
Definition trees_cover (st : loop_state) : Prop :=
  1 <= length (all_tree_files_rel st)
  /\ (constraint_info_map st <> [] -> 2 <= length (all_tree_files_rel st)).

(** What a branch contributes to its record apart from the site analysis
    and the joint test: taxa, difference and constrained likelihood. *)
Definition info_summary (info : constraint_info)
  : list string * option float * option float :=
  (ci_taxa info, ci_lnl_diff info, ci_constrained_lnl info).

(** The same three fields of a record, with its p-value and its flag. *)
Definition record_summary (r : decay_record)
  : list string * option float * option float * option float * option bool :=
  (taxa r, lnl_diff r, constrained_lnl r, AU_pvalue r, significant_AU r).

(** The entry stored for position [k] of the internal clades of [tree]
    in a run that starts in [w], if any. *)
Definition stored_at (self : self_state) (tree : clade) (w : world) (k : nat)
  : option constraint_info :=
  match get_nonterminals tree !! k with
  | Some c =>
      stored_info self (length (get_terminals tree)) k c
        (state_before self tree w k)
  | None => None
  end.

(** The turn for a clade hands a script to the engine: the clade passes
    the size test and does not hold as many taxa as the alignment. *)
Definition attempted (self : self_state) (total_taxa_count : nat)
    (clade_obj : clade) : bool :=
  negb (trivial_branch (length (clade_taxa clade_obj)) total_taxa_count)
  && negb (length (clade_taxa clade_obj) =? length (alignment_ids self)).

(** The scripts of the constrained searches of the loop from position
    [i] on, in the order they are run. *)
Fixpoint loop_scripts (self : self_state) (total_taxa_count : nat) (i : nat)
    (internal_clades : list clade) : list string :=
  match internal_clades with
  | [] => []
  | clade_obj :: rest =>
      (if attempted self total_taxa_count clade_obj
       then [constr_cmd_fn (i + 1)] else [])
      ++ loop_scripts self total_taxa_count (S i) rest
  end.

(** A script name that is not the name of a constrained search. *)
Definition other_script (s : string) : Prop :=
  String.prefix "constraint_search_" s = false.

(** The list of tree files starts with the optimum tree, and the tree
    index of every entry is the position of its file in the list. *)
Definition indexed (st : loop_state) : Prop :=
  head (all_tree_files_rel st) = Some ML_TREE_FN
  /\ forall cid info,
       In (cid, info) (constraint_info_map st) ->
       2 <= ci_paup_tree_index info <= length (all_tree_files_rel st)
       /\ all_tree_files_rel st !! (ci_paup_tree_index info - 1)
          = Some (ci_tree_filename info).

(** The entries of [constraint_info_map] and the working directory of a
    run when its joint test starts: after the branch loop and the site
    analysis. *)
Definition before_joint_test (perform_site_analysis : bool)
    (self : self_state) (tree : clade) (w : world)
  : PyDict.t constraint_info * world :=
  let st := run_branch_loop self tree w in
  site_phase perform_site_analysis self (constraint_info_map st)
    (loop_world st).

(** The joint test of a run: the call of [run_au_test] on the tree files
    of the branch loop. *)
Definition joint_test_of (perform_site_analysis : bool)
    (self : self_state) (tree : clade) (w : world)
  : option (gmap Z au_entry) * world :=
  run_au_test self (all_tree_files_rel (run_branch_loop self tree w))
    (snd (before_joint_test perform_site_analysis self tree w)).

End LoopNotions.

(** ** Notions and inputs used to state the properties of the pure parts *)

(** The quoted form of a name. *)
Definition quoted (taxon_name : string) : string :=
  String single_quote
    (PyStr.replace_char single_quote "_" taxon_name
     +:+ String single_quote EmptyString).

(** The deltas of the example. *)
Definition example_deltas : list float := [-0.5; -0.3; 0.2; 0]%float.

(** Two dictionaries of site likelihoods whose deltas are the example's. *)
Definition example_tree1 : gmap Z float :=
  <[4%Z := 0%float]>
    (<[3%Z := 0.2%float]>
       (<[2%Z := (-0.3)%float]> (<[1%Z := (-0.5)%float]> ∅))).
Definition example_tree2 : gmap Z float :=
  <[4%Z := 0%float]>
    (<[3%Z := 0%float]> (<[2%Z := 0%float]> (<[1%Z := 0%float]> ∅))).

(** One site whose delta lies strictly between -1e-6 and 0. *)
Definition overlap_deltas : list float := [-1e-7]%float.

(** A record whose difference is its constrained likelihood minus [ml],
    when it has a constrained likelihood. *)
Definition diff_agrees (ml : float) (r : decay_record) : Prop :=
  forall c, constrained_lnl r = Some c -> lnl_diff r = Some (c - ml)%float.

(** * Construction of the object: threads and model settings *)

(** The [threads] argument of the constructor: [None], the text given on
    the command line, or an [int] (a [bool] is an [int] in Python: 1 or
    0) or a [float] given by a caller. *)
Inductive threads_arg : Type :=
| ThreadsNone
| ThreadsStr (s : string)
| ThreadsInt (z : Z)
| ThreadsFloat (f : float).

(** What the thread block of the constructor ends in: a thread count, or
    an exception that the block does not catch, which ends the
    constructor. *)
Inductive threads_outcome : Type :=
| Threads (n : Z)
| TypeError
| OverflowError.

(** [int(f)] for a [float]: the value cut off towards zero; it raises
    ValueError for a NaN and OverflowError for an infinity. *)
Inductive int_of_float_result : Type :=
| IntOfFloat (z : Z)
| IntValueError
| IntOverflowError.

Definition int_of_float (f : float) : int_of_float_result :=
  match Prim2SF f with
  | S754_zero _ => IntOfFloat 0
  | S754_infinity _ => IntOverflowError
  | S754_nan => IntValueError
  | S754_finite negative m e =>
      let magnitude :=
        if (0 <=? e)%Z then (Z.pos m * 2 ^ e)%Z
        else (Z.pos m / 2 ^ (- e))%Z in
      IntOfFloat (if negative then (- magnitude)%Z else magnitude)
  end.

Definition set_model (p : bool) (cmds : string) (s : self_state)
  : self_state :=
  Self (alignment_ids s) (threads s) (data_type s) p cmds
       (user_paup_block s) (starting_tree s) (files_to_cleanup s)
       (ml_tree s) (ml_likelihood s) (decay_indices s).

(** [x if x else None] for an optional text: [None] and the empty text
    are both false. *)
Definition given (x : option string) : option string :=
  match x with
  | Some s => if PyStr.truthy s then Some s else None
  | None => None
  end.

(** [next((p.split('=')[1] for p in cmd_parts if key in p), None)] *)
Fixpoint next_value (key : string) (cmd_parts : list string)
  : option string :=
  match cmd_parts with
  | [] => None
  | p :: rest =>
      if PyStr.contains key p
      then Some (nth 1 (PyStr.split_on "="%char p) EmptyString)
      else next_value key rest
  end.

Definition valid_protein_models : list string :=
  ["JTT"; "WAG"; "LG"; "DAYHOFF"; "MTREV"; "CPREV"; "BLOSUM62"; "HIVB";
   "HIVW"].

Section Construction.
Context `{Externals}.

(** The thread count chosen by [__init__] on a machine with [cpu_count]
    cores. *)
Definition limit_threads (n cpu_count : Z) : Z :=
  if (n <? 1)%Z then 1%Z
  else if (cpu_count <? n)%Z then cpu_count
  else n.

Definition init_threads (threads : threads_arg) (cpu_count : Z)
  : threads_outcome :=
  match threads with
  | ThreadsStr s =>
      if String.eqb s "auto" then
        if (2 <? cpu_count)%Z then Threads (cpu_count - 2)
        else if (1 <? cpu_count)%Z then Threads (cpu_count - 1)
        else Threads 1
      else if String.eqb (PyStr.lower s) "all" then Threads cpu_count
      else match py_int s with
           | Some n => Threads (limit_threads n cpu_count)
           | None => Threads 1
           end
  | ThreadsInt n =>
      if String.eqb (PyStr.lower (PyStr.of_Z n)) "all"
      then Threads cpu_count
      else Threads (limit_threads n cpu_count)
  | ThreadsFloat f =>
      if String.eqb (PyStr.lower (py_str_float f)) "all"
      then Threads cpu_count
      else match int_of_float f with
           | IntOfFloat n => Threads (limit_threads n cpu_count)
           | IntValueError => Threads 1
           | IntOverflowError => OverflowError
           end
  | ThreadsNone => TypeError
  end.

(** The substitution part of the command for DNA data. *)
Definition dna_cmd_parts (base_model_name : string)
    (base_freq : option string) (nst : option Z) : list string :=
  let cmd_parts :=
    [match nst with
     | Some n => "nst=" +:+ PyStr.of_Z n
     | None =>
         if String.eqb base_model_name "GTR" then "nst=6"
         else if PyStr.in_names base_model_name ["HKY"; "K2P"; "K80"; "TN93"]
         then "nst=2"
         else if PyStr.in_names base_model_name ["JC"; "JC69"; "F81"]
         then "nst=1"
         else "nst=6"
     end] in
  let current_nst := next_value "nst=" cmd_parts in
  let nst_is_none := match nst with None => true | Some _ => false end in
  let cmd_parts :=
    cmd_parts
    ++ (if bool_decide (current_nst = Some "6")
           || (String.eqb base_model_name "GTR" && nst_is_none)
        then ["rmatrix=estimate"]
        else if bool_decide (current_nst = Some "2")
                || (PyStr.in_names base_model_name ["HKY"; "K2P"]
                    && nst_is_none)
        then ["tratio=estimate"]
        else []) in
  cmd_parts
  ++ [match given base_freq with
      | Some bf => "basefreq=" +:+ bf
      | None =>
          if PyStr.in_names base_model_name ["JC"; "K2P"; "JC69"; "K80"]
          then "basefreq=equal"
          else "basefreq=estimate"
      end].

Definition protein_cmd_parts (base_model_name : string)
    (protein_model : option string) : list string :=
  [match given protein_model with
   | Some pm => "protein=" +:+ PyStr.lower pm
   | None =>
       if PyStr.in_names (PyStr.upper base_model_name) valid_protein_models
       then "protein=" +:+ PyStr.lower base_model_name
       else "protein=jtt"
   end].

Definition discrete_cmd_parts (base_freq : option string) : list string :=
  ["nst=1";
   match given base_freq with
   | Some bf => "basefreq=" +:+ bf
   | None => "basefreq=equal"
   end].

(** The rate variation and invariable sites, added for all data types to
    the parts so far. *)
Definition rate_cmd_parts (has_gamma has_invar : bool)
    (gamma_shape prop_invar : option float) (rates : option string)
    (cmd_parts : list string) : list string :=
  let cmd_parts :=
    cmd_parts
    ++ [match given rates with
        | Some r => "rates=" +:+ r
        | None => if has_gamma then "rates=gamma" else "rates=equal"
        end] in
  let current_rates :=
    match next_value "rates=" cmd_parts with
    | Some v => v
    | None => "equal"
    end in
  let gamma_in_force := String.eqb current_rates "gamma" || has_gamma in
  let cmd_parts :=
    cmd_parts
    ++ (match gamma_shape with
        | Some shape =>
            if gamma_in_force then ["shape=" +:+ py_str_float shape]
            else []
        | None => if gamma_in_force then ["shape=estimate"] else []
        end) in
  cmd_parts
  ++ [match prop_invar with
      | Some p => "pinvar=" +:+ py_str_float p
      | None => if has_invar then "pinvar=estimate" else "pinvar=0"
      end].

(** The list [cmd_parts] at the end of [_convert_model_to_paup]. *)
Definition model_cmd_parts (data_type model_str : string)
    (gamma_shape prop_invar : option float)
    (base_freq rates protein_model : option string) (nst : option Z)
  : list string :=
  let has_gamma := PyStr.contains "+G" (PyStr.upper model_str) in
  let has_invar := PyStr.contains "+I" (PyStr.upper model_str) in
  let base_model_name :=
    PyStr.upper (hd EmptyString (PyStr.split_on "+"%char model_str)) in
  rate_cmd_parts has_gamma has_invar gamma_shape prop_invar rates
    (if String.eqb data_type "dna"
     then dna_cmd_parts base_model_name base_freq nst
     else if String.eqb data_type "protein"
     then protein_cmd_parts base_model_name protein_model
     else if String.eqb data_type "discrete"
     then discrete_cmd_parts base_freq
     else []).

(** [_convert_model_to_paup]: the command, and the object with
    [parsmodel] set when the data is discrete. *)
Definition _convert_model_to_paup (self : self_state) (model_str : string)
    (gamma_shape prop_invar : option float)
    (base_freq rates protein_model : option string) (nst : option Z)
    (parsmodel_user_intent : option bool) : string * self_state :=
  ("lset "
   +:+ PyStr.join " "
         (model_cmd_parts (data_type self) model_str gamma_shape prop_invar
            base_freq rates protein_model nst)
   +:+ ";",
   if String.eqb (data_type self) "discrete"
   then set_model (match parsmodel_user_intent with
                   | None => true
                   | Some intent => intent
                   end) (paup_model_cmds self) self
   else self).

(** The model settings of [__init__]: [parsmodel] starts as [False]; the
    command comes from the model arguments unless a block of the user is
    given, which is then taken as it is. *)
Definition init_model_settings (self : self_state) (model_str : string)
    (gamma_shape prop_invar : option float)
    (base_freq rates protein_model : option string) (nst : option Z)
    (parsmodel_arg : option bool) : self_state :=
  let self := set_model false (paup_model_cmds self) self in
  match user_paup_block self with
  | None =>
      let '(cmds, self) :=
        _convert_model_to_paup self model_str gamma_shape prop_invar
          base_freq rates protein_model nst parsmodel_arg in
      set_model (parsmodel self) cmds self
  | Some block => set_model (parsmodel self) block self
  end.

End Construction.

(** * The alignment file: [_convert_to_nexus] *)

(** A record of the alignment: its id and the text of its sequence. *)
Record seq_record : Type := SeqRecord {
  rec_id : string;
  rec_seq : string
}.

(** The alignment of the object (Bio.Align): its records in order, and
    the number that its [get_alignment_length()] reports. *)
Record alignment : Type := Alignment {
  records : list seq_record;
  get_alignment_length : nat
}.

Definition double_quote : string := String (ascii_of_nat 34) EmptyString.

(** The line written for one record. *)
Definition nexus_row (record : seq_record) : string :=
  "  " +:+ _format_taxon_for_paup (rec_id record) +:+ " "
  +:+ rec_seq record +:+ nl.

(** Everything written to the file, in the order of the writes. *)
Definition nexus_text (data_type : string) (aln : alignment) : string :=
  let dt :=
    if String.eqb data_type "protein" then "PROTEIN"
    else if String.eqb data_type "discrete" then "STANDARD"
    else "DNA" in
  "#NEXUS" +:+ nl +:+ nl
  +:+ "BEGIN DATA;" +:+ nl
  +:+ "  DIMENSIONS NTAX=" +:+ PyStr.of_nat (length (records aln))
  +:+ " NCHAR=" +:+ PyStr.of_nat (get_alignment_length aln) +:+ ";" +:+ nl
  +:+ "  FORMAT DATATYPE=" +:+ dt +:+ " MISSING=? GAP=- INTERLEAVE=NO"
  +:+ (if String.eqb data_type "discrete"
       then " SYMBOLS=" +:+ double_quote +:+ "01" +:+ double_quote
       else EmptyString)
  +:+ ";" +:+ nl
  +:+ "  MATRIX" +:+ nl
  +:+ String.concat EmptyString (map nexus_row (records aln))
  +:+ "  ;" +:+ nl +:+ "END;" +:+ nl
  +:+ (if String.eqb data_type "discrete"
       then nl +:+ "BEGIN ASSUMPTIONS;" +:+ nl
            +:+ "  OPTIONS DEFTYPE=UNORD POLYTCOUNT=MINSTEPS;" +:+ nl
            +:+ "END;" +:+ nl
       else EmptyString).

(** [_convert_to_nexus]: the file [alignment.nex] of the working
    directory is written anew. *)
Definition _convert_to_nexus (self : self_state) (aln : alignment)
    (w : world) : world :=
  write_text NEXUS_ALIGNMENT_FN (nexus_text (data_type self) aln) w.

(** A model argument whose text holds no equals sign. *)
Definition no_equals_sign (x : option string) : Prop :=
  forall s, x = Some s -> PyStr.has_char "="%char s = false.

(** * The bootstrap run and the final clean-up *)

Definition BOOTSTRAP_NEX_FN : string := "bootstrap_search.nex".
Definition BOOTSTRAP_LOG_FN : string := "paup_bootstrap.log".
Definition BOOTSTRAP_TREE_FN : string := "bootstrap_trees.tre".

Definition bootstrap_script_cmds (self : self_state) (num_replicates : Z)
  : list string :=
  script_head self
  ++ ["bootstrap nreps=" +:+ PyStr.of_Z num_replicates
      +:+ " search=heuristic keepall=no treefile=" +:+ BOOTSTRAP_TREE_FN
      +:+ " replace=yes / start=stepwise addseq=random nreps=1;";
      "savetrees file=" +:+ BOOTSTRAP_TREE_FN
      +:+ " format=newick brlens=yes replace=yes supportValues=nodeLabels;"].

Section Bootstrap.
Context `{Externals}.

(** [run_bootstrap_analysis]: the tree returned, which on success is also
    kept in the attribute [bootstrap_tree]; every exception of the
    session and of the reading of the tree is caught and gives [None]. *)
Definition run_bootstrap_analysis (self : self_state) (num_replicates : Z)
    (w : world) : option clade * self_state * world :=
  let w1 := write_text BOOTSTRAP_NEX_FN
              (paup_script (bootstrap_script_cmds self num_replicates)) w in
  match _run_paup_command_file BOOTSTRAP_NEX_FN BOOTSTRAP_LOG_FN
          (PyInt (Z.max 3600 (60 * num_replicates))) w1
  with
  | (Raise _, w2) => (None, self, w2)
  | (Ok _, w2) =>
      if exists_nonempty BOOTSTRAP_TREE_FN w2 then
        let '(cleaned_tree_path, self2, w3) :=
          _clean_newick_tree self BOOTSTRAP_TREE_FN w2 in
        match files w3 !! cleaned_tree_path with
        | None => (None, self2, w3)
        | Some newick =>
            match phylo_read newick with
            | Ok bootstrap_tree => (Some bootstrap_tree, self2, w3)
            | Raise _ => (None, self2, w3)
            end
        end
      else (None, self, w2)
  end.

End Bootstrap.

(** A pattern of [Path.glob] with one star, given as the text before and
    the text after the star, on a file system that tells upper from lower
    case. *)
Definition glob_star (pattern : string * string) (name : string) : bool :=
  String.prefix (fst pattern) name
  && PyStr.endswith (snd pattern) name
  && (String.length (fst pattern) + String.length (snd pattern)
      <=? String.length name).

Definition intermediate_patterns : list (string * string) :=
  [(EmptyString, ".cleaned");
   ("constraint_tree_", ".tre");
   ("site_lnl_", ".txt");
   ("ml_tree_for_", "_annotation.nwk")].

(** A name that one of the patterns matches. *)
Definition is_intermediate (name : string) : bool :=
  existsb (fun pattern => glob_star pattern name) intermediate_patterns.

(** [cleanup_intermediate_files]; [debug] and [keep_files] are the two
    flags of the object.  The files marked for deletion go first, then
    the files that a pattern matches, pattern after pattern. *)
Definition cleanup_intermediate_files (debug keep_files : bool)
    (self : self_state) (w : world) : world :=
  if debug || keep_files then w
  else
    let unmarked :=
      fold_left (fun fs file_path => delete file_path fs)
        (files_to_cleanup self) (files w) in
    World
      (fold_left
         (fun fs pattern =>
            filter (fun entry => glob_star pattern (fst entry) = false) fs)
         intermediate_patterns unmarked)
      (invocations w).

(** * Properties *)

(** ** Strings *)

Lemma has_char_In (c : ascii) (s : string) :
  PyStr.has_char c s = true <-> PyStr.In_str c s.
Proof.
  induction s as [|d s IH]; simpl.
  - split; [discriminate | tauto].
  - rewrite orb_true_iff, IH, Ascii.eqb_eq. tauto.
Qed.

Lemma has_char_false (c : ascii) (s : string) :
  PyStr.has_char c s = false <-> ~ PyStr.In_str c s.
Proof.
  rewrite <- has_char_In. destruct (PyStr.has_char c s); split; intros; congruence.
Qed.

Lemma in_quote_class_spec (c : ascii) :
  in_quote_class c = true <->
  PyStr.isspace c = true \/ PyStr.In_str c nexus_special_chars.
Proof.
  unfold in_quote_class. rewrite orb_true_iff, has_char_In. tauto.
Qed.

Lemma re_search_quote_class_spec (s : string) :
  re_search_quote_class s = true <->
  exists c, PyStr.In_str c s /\ in_quote_class c = true.
Proof.
  induction s as [|d s IH]; simpl.
  - split; [discriminate | intros (c & [] & _)].
  - rewrite orb_true_iff, IH. split.
    + intros [Hd | (c & Hc & Hq)]; [exists d | exists c]; auto.
    + intros (c & [-> | Hc] & Hq); [left | right; exists c]; auto.
Qed.

Lemma string_length_app (s1 s2 : string) :
  String.length (s1 +:+ s2) = String.length s1 + String.length s2.
Proof. induction s1 as [|c s1 IH]; simpl; [reflexivity | by rewrite IH]. Qed.

Lemma replace_char_length (old new : ascii) (s : string) :
  String.length (PyStr.replace_char old new s) = String.length s.
Proof. induction s as [|c s IH]; simpl; [reflexivity | by rewrite IH]. Qed.

Lemma replace_char_gone (old new : ascii) (s : string) :
  old <> new -> ~ PyStr.In_str old (PyStr.replace_char old new s).
Proof.
  intros Hne. induction s as [|c s IH]; simpl; [tauto |].
  intros [Heq | Hin]; [| tauto].
  destruct (Ascii.eqb c old) eqn:E; [congruence |].
  apply Ascii.eqb_neq in E. congruence.
Qed.

Lemma single_quote_in_class : in_quote_class single_quote = true.
Proof. reflexivity. Qed.

Lemma quoted_longer (s : string) :
  String.length (quoted s) = S (S (String.length s)).
Proof.
  unfold quoted. simpl. rewrite string_length_app, replace_char_length.
  simpl. lia.
Qed.

(** ** The score-file parser *)

Section ScoreFile.
Context `{Externals}.

Lemma find_header_skip (pre rest : list string) (i : nat)
    (header_idx : option nat) :
  Forall (fun l => header_like (normalize_line l) = false) pre ->
  find_header i header_idx (pre ++ rest)
  = find_header (i + length pre) header_idx rest.
Proof.
  intros Hpre. revert i.
  induction Hpre as [|l pre Hl _ IH]; intros i; cbn [find_header app length].
  - by rewrite Nat.add_0_r.
  - rewrite Hl, IH. f_equal. lia.
Qed.

(** A header found in a prefix of the lines is the header of the file,
    and it lies inside the prefix. *)
Lemma find_header_found (pre rest : list string) (i : nat)
    (header_idx : option nat) (h c : nat) :
  find_header i header_idx pre = (Some h, Some c) ->
  find_header i header_idx (pre ++ rest) = (Some h, Some c)
  /\ i <= h < i + length pre.
Proof.
  revert i header_idx.
  induction pre as [|l pre IH]; intros i header_idx;
    cbn [find_header app length].
  - discriminate.
  - destruct (header_like (normalize_line l)).
    + destruct (find_lnl_col lnl_col_names (PyStr.split (normalize_line l))).
      * intros Heq. inversion Heq; subst. split; [reflexivity | lia].
      * intros Hf. destruct (IH _ _ Hf) as [-> ?]. split; [reflexivity | lia].
    + intros Hf. destruct (IH _ _ Hf) as [-> ?]. split; [reflexivity | lia].
Qed.

Lemma scan_rows_app (c : nat) (rows1 rows2 : list string) :
  scan_rows c (rows1 ++ rows2)
  = match scan_rows c rows1 with
    | Some v => Some v
    | None => scan_rows c rows2
    end.
Proof.
  induction rows1 as [|r rows1 IH]; simpl; [reflexivity |].
  destruct (negb (PyStr.truthy (PyStr.strip r))); [exact IH |].
  destruct (PyStr.split (PyStr.strip r) !! c) as [val|]; [| exact IH].
  destruct (PyStr.has_char "*" val); [exact IH |].
  destruct (py_float val); [reflexivity | exact IH].
Qed.

(** A row whose likelihood column holds a star is passed over. *)
Lemma scan_rows_star (c : nat) (row val : string) (rest : list string) :
  PyStr.split (PyStr.strip row) !! c = Some val ->
  PyStr.has_char "*" val = true ->
  scan_rows c (row :: rest) = scan_rows c rest.
Proof.
  intros Hval Hstar. simpl.
  destruct (negb (PyStr.truthy (PyStr.strip row))); [reflexivity |].
  by rewrite Hval, Hstar.
Qed.

(** C7. A score file whose header row normalises to [tree -lnl] and
    whose next row is [1  -1234.5678] parses to the float of
    [-1234.5678]; and in any file, a row after the header whose
    likelihood column holds a star is passed over: the parser returns
    what it returns on the file without that row. *)
Theorem parse_likelihood_from_score_file_rows :
  (forall (w : world) (score_file content : string)
          (pre rest : list string) (header : string) (v : float),
      files w !! score_file = Some content ->
      PyStr.splitlines content
      = pre ++ header :: "1  -1234.5678" :: rest ->
      Forall (fun l => header_like (normalize_line l) = false) pre ->
      normalize_line header = "tree -lnl" ->
      py_float "-1234.5678" = Some v ->
      _parse_likelihood_from_score_file score_file w = Some v)
  /\ (forall (w : world) (score_file content : string)
             (pre post : list string) (row val : string) (h c : nat),
         files w !! score_file = Some content ->
         PyStr.splitlines content = pre ++ row :: post ->
         find_header 0 None pre = (Some h, Some c) ->
         PyStr.split (PyStr.strip row) !! c = Some val ->
         PyStr.has_char "*" val = true ->
         _parse_likelihood_from_score_file score_file w
         = parse_score_lines (pre ++ post)).
Proof.
  split.
  - intros w score_file content pre rest header v Hfile Hlines Hpre Hnorm Hv.
    unfold _parse_likelihood_from_score_file, parse_score_lines.
    rewrite Hfile, Hlines, find_header_skip by done.
    simpl find_header. rewrite Hnorm. simpl.
    replace (drop (S (length pre))
               (pre ++ header :: "1  -1234.5678" :: rest))
      with ("1  -1234.5678" :: rest)
      by (clear; induction pre; simpl; auto).
    simpl.
    match goal with
    | |- context [py_float ?s] =>
        let s' := eval vm_compute in s in change s with s'
    end.
    by rewrite Hv.
  - intros w score_file content pre post row val h c
           Hfile Hlines Hhead Hval Hstar.
    unfold _parse_likelihood_from_score_file, parse_score_lines.
    rewrite Hfile, Hlines.
    destruct (find_header_found pre (row :: post) 0 None h c Hhead)
      as [-> Hh].
    destruct (find_header_found pre post 0 None h c Hhead) as [-> _].
    rewrite !drop_app_le by lia.
    rewrite !scan_rows_app, (scan_rows_star c row val post) by done.
    reflexivity.
Qed.

End ScoreFile.

(** ** The site summary *)

Section SiteSummary.
Local Open Scope float_scope.

Lemma count_if_cons (p : float -> bool) (d : float) (l : list float) :
  count_if p (d :: l) = ((if p d then 1 else 0) + count_if p l)%nat.
Proof. unfold count_if. simpl. by destruct (p d). Qed.

Lemma count_if_le (p : float -> bool) (l : list float) :
  (count_if p l <= length l)%nat.
Proof.
  induction l as [|d l IH]; [done |].
  rewrite count_if_cons. simpl. destruct (p d); lia.
Qed.

(** C8. The summary counts the deltas below zero as supporting, those
    above zero as conflicting and those of magnitude below 1e-6 as
    neutral; the plain ratio is supporting over conflicting and the
    weighted ratio is the magnitude of the sum of the negative deltas
    over the sum of the positive ones, each ratio being infinity when
    its denominator is zero; on the deltas -0.5, -0.3, 0.2, 0.0 the
    summary is 2, 1, 1, 2.0 and 4.0, also when the deltas come from two
    dictionaries of site likelihoods. *)
Theorem site_summary_statistics :
  (forall (sd : list (Z * site_info)) (deltas : list float),
      let r := site_summary sd deltas in
      supporting_sites r = length (List.filter (fun d => d <? 0) deltas)
      /\ conflicting_sites r = length (List.filter (fun d => 0 <? d) deltas)
      /\ neutral_sites r
         = length (List.filter (fun d => abs d <? 1e-6) deltas)
      /\ sum_supporting_delta r
         = PyFloat.sum (List.filter (fun d => d <? 0) deltas)
      /\ sum_conflicting_delta r
         = PyFloat.sum (List.filter (fun d => 0 <? d) deltas)
      /\ support_ratio r
         = (if (conflicting_sites r =? 0)%nat then infinity
            else PyFloat.of_nat (supporting_sites r)
                 / PyFloat.of_nat (conflicting_sites r))
      /\ weighted_support_ratio r
         = (if 0 <? sum_conflicting_delta r
            then abs (sum_supporting_delta r) / sum_conflicting_delta r
            else infinity)
      /\ (sum_conflicting_delta r = 0 ->
          weighted_support_ratio r = infinity))
  /\ (let r := site_summary [] example_deltas in
      supporting_sites r = 2%nat /\ conflicting_sites r = 1%nat
      /\ neutral_sites r = 1%nat /\ support_ratio r = 2
      /\ weighted_support_ratio r = 4)
  /\ (exists r, analyse_site_lnl example_tree1 example_tree2 = Some r
                /\ map (fun e => delta_lnL (snd e)) (site_data r)
                   = example_deltas
                /\ supporting_sites r = 2%nat
                /\ conflicting_sites r = 1%nat
                /\ neutral_sites r = 1%nat /\ support_ratio r = 2
                /\ weighted_support_ratio r = 4).
Proof.
  split; [| split].
  - intros sd deltas r. subst r. cbn -[PyFloat.sum List.filter].
    repeat split; try reflexivity.
    + unfold count_if, is_conflicting, PyFloat.gt.
      by destruct (length (List.filter (fun d => 0 <? d) deltas)).
    + unfold is_conflicting, PyFloat.gt. intros ->. reflexivity.
  - vm_compute. repeat split; reflexivity.
  - eexists. split; [vm_compute; reflexivity |].
    vm_compute. repeat split; reflexivity.
Qed.

Lemma SFltb_flip (m0 m : positive) (e0 e : Z) :
  match (match (e0 ?= e)%Z with
         | Eq => CompOpp (PosDef.Pos.compare_cont Eq m0 m)
         | Lt => Gt
         | Gt => Lt
         end) with Lt => true | _ => false end = true ->
  match (match (e ?= e0)%Z with
         | Eq => PosDef.Pos.compare_cont Eq m m0
         | Lt => Lt
         | Gt => Gt
         end) with Lt => true | _ => false end = true.
Proof.
  rewrite (Z.compare_antisym e0 e).
  pose proof (Pos.compare_antisym m0 m) as Hp. unfold Pos.compare in Hp.
  rewrite Hp.
  destruct (e0 ?= e)%Z; cbn [CompOpp]; auto.
Qed.

Lemma Prim2SF_tolerance :
  Prim2SF 1e-6 = S754_finite false 4722366482869645 (-72).
Proof. vm_compute. reflexivity. Qed.

Lemma Prim2SF_neg_tolerance :
  Prim2SF (-1e-6) = S754_finite true 4722366482869645 (-72).
Proof. vm_compute. reflexivity. Qed.

Lemma Prim2SF_zero : Prim2SF 0 = S754_zero false.
Proof. vm_compute. reflexivity. Qed.

(** A delta strictly between -1e-6 and 0 has magnitude below 1e-6. *)
Lemma abs_small_neg (d : float) :
  (-1e-6 <? d) = true -> (d <? 0) = true -> (abs d <? 1e-6) = true.
Proof.
  rewrite !FloatAxioms.ltb_spec, FloatAxioms.abs_spec.
  rewrite Prim2SF_tolerance, Prim2SF_neg_tolerance, Prim2SF_zero.
  destruct (Prim2SF d) as [s|s| |s m e]; unfold SFltb, SFcompare, SFabs;
    intros H1 H2.
  - reflexivity.
  - destruct s; inversion H1; inversion H2.
  - inversion H1.
  - destruct s; [| inversion H2].
    exact (SFltb_flip _ _ _ _ H1).
Qed.

(** A delta strictly between 0 and 1e-6 has magnitude below 1e-6. *)
Lemma abs_small_pos (d : float) :
  (0 <? d) = true -> (d <? 1e-6) = true -> (abs d <? 1e-6) = true.
Proof.
  rewrite !FloatAxioms.ltb_spec, FloatAxioms.abs_spec.
  rewrite Prim2SF_tolerance, Prim2SF_zero.
  destruct (Prim2SF d) as [s|s| |s m e]; unfold SFltb, SFcompare, SFabs;
    intros H1 H2.
  - reflexivity.
  - destruct s; inversion H1; inversion H2.
  - inversion H1.
  - destruct s; [inversion H1 |]. exact H2.
Qed.

(** C9. The three counts do not partition the sites: a delta strictly
    between -1e-6 and 0 adds one to the supporting count and one to the
    neutral count, a delta strictly between 0 and 1e-6 adds one to the
    conflicting count and one to the neutral count, and for the single
    delta -1e-7 the three counts sum to 2. *)
Theorem site_counts_overlap :
  (forall (d : float) (l : list float),
      (-1e-6 <? d) = true -> (d <? 0) = true ->
      count_if is_supporting (d :: l) = S (count_if is_supporting l)
      /\ count_if is_neutral (d :: l) = S (count_if is_neutral l))
  /\ (forall (d : float) (l : list float),
         (0 <? d) = true -> (d <? 1e-6) = true ->
         count_if is_conflicting (d :: l) = S (count_if is_conflicting l)
         /\ count_if is_neutral (d :: l) = S (count_if is_neutral l))
  /\ (let r := site_summary [] overlap_deltas in
      supporting_sites r = 1%nat /\ conflicting_sites r = 0%nat
      /\ neutral_sites r = 1%nat
      /\ (length overlap_deltas
          < supporting_sites r + conflicting_sites r + neutral_sites r)%nat).
Proof.
  split; [| split].
  - intros d l Hlo Hneg. rewrite !count_if_cons.
    unfold is_supporting, is_neutral, PyFloat.lt.
    by rewrite Hneg, (abs_small_neg d Hlo Hneg).
  - intros d l Hpos Hhi. rewrite !count_if_cons.
    unfold is_conflicting, is_neutral, PyFloat.lt, PyFloat.gt.
    by rewrite Hpos, (abs_small_pos d Hpos Hhi).
  - vm_compute. repeat split; lia.
Qed.

(** C9 at the deltas -1e-7 and 1e-7. *)
Lemma site_counts_overlap_witness :
  (count_if is_supporting [-1e-7] = 1%nat
   /\ count_if is_neutral [-1e-7] = 1%nat)
  /\ (count_if is_conflicting [1e-7] = 1%nat
      /\ count_if is_neutral [1e-7] = 1%nat).
Proof.
  destruct site_counts_overlap as (Hneg & Hpos & _).
  split.
  - apply (Hneg (-1e-7) []); reflexivity.
  - apply (Hpos 1e-7 []); reflexivity.
Defined.

End SiteSummary.

(** ** The joint test *)

Section JointTest.
Context `{Externals}.

(** With two trees or more the result is [None], whatever the engine
    does: the parser of the log is not there. *)
Lemma run_au_test_many (self : self_state) (trees : list string) (w : world) :
  2 <= length trees -> fst (run_au_test self trees w) = None.
Proof.
  intros Hlen. unfold run_au_test.
  destruct trees as [|first rest]; [reflexivity |].
  destruct (length (first :: rest) <? 2) eqn:E.
  - apply Nat.ltb_lt in E. lia.
  - destruct (_run_paup_command_file _ _ _ _) as [[c|e] w2]; reflexivity.
Qed.

(** C3, amended. With exactly one file name the working directory and the
    list of scripts run are left as they were, so the engine is not
    invoked; the result gives tree 1 the optimum likelihood and the
    p-value 1.0 when the name is that of the optimum tree file and the
    optimum likelihood is known, and is [None] otherwise. *)
Theorem run_au_test_single_tree (self : self_state) (fn : string) (w : world) :
  snd (run_au_test self [fn] w) = w
  /\ (forall ml, fn = ML_TREE_FN -> ml_likelihood self = Some ml ->
                 fst (run_au_test self [fn] w)
                 = Some {[ 1%Z := AUEntry ml (Some 1%float) ]})
  /\ (ml_likelihood self = None -> fst (run_au_test self [fn] w) = None)
  /\ (fn <> ML_TREE_FN -> fst (run_au_test self [fn] w) = None).
Proof.
  unfold run_au_test. cbn [length Nat.ltb Nat.leb Nat.eqb andb].
  repeat split.
  - destruct (String.eqb fn ML_TREE_FN), (ml_likelihood self); reflexivity.
  - intros ml -> ->. reflexivity.
  - intros ->. by destruct (String.eqb fn ML_TREE_FN).
  - intros Hne. apply String.eqb_neq in Hne. by rewrite Hne.
Qed.

End JointTest.

(** C3 at a run whose optimum likelihood is -1000. *)
Lemma run_au_test_single_tree_witness :
  run_au_test (H := Fixtures.externals_of [])
    (Fixtures.self_of [] None (Some (-1000)%float)) [ML_TREE_FN]
    Fixtures.empty_world
  = (Some {[ 1%Z := AUEntry (-1000)%float (Some 1%float) ]},
     Fixtures.empty_world).
Proof.
  pose proof (run_au_test_single_tree (H := Fixtures.externals_of [])
                (Fixtures.self_of [] None (Some (-1000)%float)) ML_TREE_FN
                Fixtures.empty_world) as (Hw & Hres & _).
  specialize (Hres (-1000)%float eq_refl eq_refl).
  destruct (run_au_test _ _ _) as [r w']. simpl in *. by subst.
Defined.

(** C3 as stated fails when the optimum likelihood is not known: the sole
    tree is the optimum tree file and the result is [None]. *)
Lemma run_au_test_single_tree_unknown_likelihood :
  run_au_test (H := Fixtures.externals_of [])
    (Fixtures.self_of [] None None) [ML_TREE_FN] Fixtures.empty_world
  = (None, Fixtures.empty_world).
Proof. reflexivity. Qed.

(** C1 at the trees [ml_tree.tre] and [constraint_tree_2.tre], with an
    engine that runs the test and exits with code 0: the engine is
    invoked once and the result is [None]. *)
Lemma run_au_test_two_trees_no_result :
  let r := run_au_test (H := Fixtures.externals_of Fixtures.au_table)
             (Fixtures.self_of [] None (Some (-1000)%float))
             [ML_TREE_FN; "constraint_tree_2.tre"] Fixtures.empty_world in
  fst r = None /\ invocations (snd r) = [AU_TEST_NEX_FN].
Proof. vm_compute. split; reflexivity. Qed.

(** C7 at a file with the header [Tree -lnL] and the row [1  -1234.5678],
    and at a file whose first data row holds stars. *)
Lemma parse_likelihood_from_score_file_rows_witness :
  _parse_likelihood_from_score_file (H := Fixtures.externals_of [])
    "score.txt" (Fixtures.score_world Fixtures.score_plain)
  = Some (-1234.5678)%float
  /\ _parse_likelihood_from_score_file (H := Fixtures.externals_of [])
       "score.txt" (Fixtures.score_world Fixtures.score_stars)
     = Some (-99.5)%float.
Proof.
  destruct (parse_likelihood_from_score_file_rows
              (H := Fixtures.externals_of [])) as [Hrow Hstar].
  split.
  - apply (Hrow (Fixtures.score_world Fixtures.score_plain) "score.txt"
             Fixtures.score_plain [] []
             ("Tree" +:+ tab +:+ "-lnL") (-1234.5678)%float);
      [reflexivity | reflexivity | constructor | reflexivity | reflexivity].
  - rewrite (Hstar (Fixtures.score_world Fixtures.score_stars) "score.txt"
               Fixtures.score_stars ["  TREE   -LnL"] ["2  -99.5"]
               "1  **********" "**********" 0 1);
      reflexivity.
Defined.

(** ** Dictionaries *)

Section DictFacts.
Context {V : Type}.
Implicit Types (d : PyDict.t V) (k : string) (v : V).

Lemma dict_get_set_eq k v d : PyDict.get k (PyDict.set k v d) = Some v.
Proof.
  induction d as [|[k' v'] d IH]; simpl.
  - by rewrite String.eqb_refl.
  - destruct (String.eqb k k') eqn:E; simpl; rewrite E; [reflexivity | exact IH].
Qed.

Lemma dict_get_set_ne k k' v d :
  k <> k' -> PyDict.get k' (PyDict.set k v d) = PyDict.get k' d.
Proof.
  intros Hne. induction d as [|[k0 v0] d IH]; simpl.
  - apply not_eq_sym, String.eqb_neq in Hne. by rewrite Hne.
  - destruct (String.eqb k k0) eqn:E; simpl.
    + apply String.eqb_eq in E as <-.
      apply not_eq_sym, String.eqb_neq in Hne. by rewrite Hne.
    + by rewrite IH.
Qed.

Lemma dict_get_alter (f : V -> V) k k' d :
  PyDict.get k' (PyDict.alter f k d)
  = if String.eqb k' k then f <$> PyDict.get k' d else PyDict.get k' d.
Proof.
  induction d as [|[k0 v0] d IH]; simpl.
  - by destruct (String.eqb k' k).
  - destruct (String.eqb k k0) eqn:E; simpl.
    + apply String.eqb_eq in E as ->.
      destruct (String.eqb k' k0) eqn:E'; reflexivity.
    + destruct (String.eqb k' k0) eqn:E'; [| exact IH].
      apply String.eqb_eq in E' as ->.
      rewrite String.eqb_sym in E. by rewrite E.
Qed.

Lemma dict_keys_alter (f : V -> V) k d :
  PyDict.keys (PyDict.alter f k d) = PyDict.keys d.
Proof.
  unfold PyDict.keys. induction d as [|[k0 v0] d IH]; simpl; [reflexivity |].
  destruct (String.eqb k k0); simpl; [reflexivity | by rewrite IH].
Qed.

Lemma dict_get_None k d : PyDict.get k d = None <-> k ∉ PyDict.keys d.
Proof.
  unfold PyDict.keys. induction d as [|[k0 v0] d IH]; simpl.
  - split; [intros _; apply not_elem_of_nil | done].
  - rewrite not_elem_of_cons. destruct (String.eqb_spec k k0) as [-> | Hne].
    + split; [discriminate | intros [? _]; done].
    + rewrite IH. tauto.
Qed.

Lemma dict_get_In k v d : PyDict.get k d = Some v -> In (k, v) d.
Proof.
  induction d as [|[k0 v0] d IH]; simpl; [discriminate |].
  destruct (String.eqb_spec k k0) as [-> | Hne].
  - intros [= ->]. by left.
  - intros Hg. right. by apply IH.
Qed.

(** Assigning to an absent key appends the entry. *)
Lemma dict_set_fresh k v d :
  k ∉ PyDict.keys d -> PyDict.set k v d = d ++ [(k, v)].
Proof.
  unfold PyDict.keys. induction d as [|[k0 v0] d IH]; simpl; [reflexivity |].
  rewrite not_elem_of_cons. intros [Hne Hnin].
  apply String.eqb_neq in Hne. rewrite Hne. by rewrite IH.
Qed.

Lemma dict_keys_set k v d :
  PyDict.keys (PyDict.set k v d) = PyDict.keys d
  \/ ((k ∉ PyDict.keys d)
      /\ PyDict.keys (PyDict.set k v d) = PyDict.keys d ++ [k]).
Proof.
  unfold PyDict.keys. induction d as [|[k0 v0] d IH]; simpl.
  - right. split; [apply not_elem_of_nil | reflexivity].
  - destruct (String.eqb_spec k k0) as [-> | Hne]; simpl; [by left |].
    destruct IH as [-> | [Hnin ->]]; [by left |].
    right. split; [| reflexivity]. rewrite not_elem_of_cons. tauto.
Qed.

Lemma dict_set_NoDup k v d :
  NoDup (PyDict.keys d) -> NoDup (PyDict.keys (PyDict.set k v d)).
Proof.
  intros Hnd. destruct (dict_keys_set k v d) as [-> | [Hnin ->]]; [done |].
  apply NoDup_app. split; [done |]. split.
  - intros x Hx Hk. apply list_elem_of_singleton in Hk as ->. done.
  - apply NoDup_singleton.
Qed.

Lemma dict_get_map {W : Type} (f : V -> W) k d :
  PyDict.get k (map (fun kv => (fst kv, f (snd kv))) d) = f <$> PyDict.get k d.
Proof.
  induction d as [|[k0 v0] d IH]; simpl; [reflexivity |].
  destruct (String.eqb k k0); [reflexivity | exact IH].
Qed.

Lemma dict_keys_map {W : Type} (f : V -> W) d :
  PyDict.keys (map (fun kv => (fst kv, f (snd kv))) d) = PyDict.keys d.
Proof.
  unfold PyDict.keys. induction d as [|[k0 v0] d IH]; simpl; congruence.
Qed.

End DictFacts.

(** ** The last phase of the decay computation *)

Lemma populate_from (cmap : PyDict.t constraint_info)
    (acc : PyDict.t decay_record) :
  NoDup (PyDict.keys acc ++ PyDict.keys cmap) ->
  fold_left (fun d item => PyDict.set (fst item) (initial_record (snd item)) d)
    cmap acc
  = acc ++ map (fun kv => (fst kv, initial_record (snd kv))) cmap.
Proof.
  revert acc. induction cmap as [|[k c] cmap IH]; intros acc Hnd; simpl.
  - by rewrite app_nil_r.
  - change (PyDict.keys ((k, c) :: cmap)) with (k :: PyDict.keys cmap) in Hnd.
    apply NoDup_app in Hnd as (Hacc & Hdisj & Hcm).
    apply NoDup_cons in Hcm as [Hk Hcm].
    assert (Hfresh : k ∉ PyDict.keys acc).
    { intros Hin. apply (Hdisj k Hin). by left. }
    rewrite (dict_set_fresh k _ acc Hfresh), IH.
    + by rewrite <- app_assoc.
    + unfold PyDict.keys in *. rewrite map_app. simpl.
      rewrite <- app_assoc. simpl.
      apply NoDup_app. split; [done |]. split.
      * intros x Hx Hin. apply elem_of_cons in Hin as [-> | Hin]; [done |].
        apply (Hdisj x Hx). by right.
      * apply NoDup_cons. done.
Qed.

(** With distinct keys, the first loop of the last phase keeps the keys
    and their order and gives each branch its initial record. *)
Lemma populate_map (cmap : PyDict.t constraint_info) :
  NoDup (PyDict.keys cmap) ->
  populate cmap = map (fun kv => (fst kv, initial_record (snd kv))) cmap.
Proof. intros Hnd. unfold populate. by rewrite populate_from. Qed.

(** What the first loop stores under a key, whatever the keys are. *)
Lemma populate_get_In (cmap : PyDict.t constraint_info)
    (acc : PyDict.t decay_record) (cid : string) (r : decay_record) :
  PyDict.get cid
    (fold_left (fun d item => PyDict.set (fst item) (initial_record (snd item)) d)
       cmap acc) = Some r ->
  (exists cdata, In (cid, cdata) cmap /\ r = initial_record cdata)
  \/ PyDict.get cid acc = Some r.
Proof.
  revert acc. induction cmap as [|[k c] cmap IH]; intros acc; simpl.
  - by right.
  - intros Hg. destruct (IH _ Hg) as [(cdata & Hin & ->) | Hacc].
    + left. exists cdata. split; [by right | reflexivity].
    + destruct (String.eqb_spec k cid) as [-> | Hne].
      * rewrite dict_get_set_eq in Hacc. injection Hacc as <-.
        left. exists c. split; [by left | reflexivity].
      * rewrite dict_get_set_ne in Hacc by done. by right.
Qed.

Lemma populate_has_key (cmap : PyDict.t constraint_info)
    (acc : PyDict.t decay_record) (cid : string) :
  (cid ∈ PyDict.keys cmap \/ is_Some (PyDict.get cid acc)) ->
  is_Some (PyDict.get cid
    (fold_left (fun d item => PyDict.set (fst item) (initial_record (snd item)) d)
       cmap acc)).
Proof.
  revert acc. induction cmap as [|[k c] cmap IH]; intros acc; simpl.
  - intros [Hin | Hs]; [by apply elem_of_nil in Hin | done].
  - intros Hor. apply IH.
    destruct (String.eqb_spec k cid) as [-> | Hne].
    + right. rewrite dict_get_set_eq. by eexists.
    + rewrite dict_get_set_ne by done.
      destruct Hor as [Hin | Hs]; [| by right].
      left. change (PyDict.keys ((k, c) :: cmap)) with (k :: PyDict.keys cmap) in Hin.
      apply elem_of_cons in Hin as [-> | Hin]; done.
Qed.

Lemma au_truthy_falsy (au : option (gmap Z au_entry)) :
  au = None \/ au = Some ∅ -> au_truthy au = None.
Proof. intros [-> | ->]; reflexivity. Qed.

(** The last phase after a joint test that failed (its result is [None])
    or returned no data (an empty result): the optimum likelihood stays
    as it was and every entry of [constraint_info_map] gives one record,
    which keeps the difference and the constrained likelihood of the
    entry and has neither a p-value nor a significance flag. *)
Lemma finalize_falsy_au (cmap : PyDict.t constraint_info)
    (au : option (gmap Z au_entry)) (ml : option float) :
  au = None \/ au = Some ∅ ->
  finalize cmap au ml = (ml, populate cmap)
  /\ (forall cid cdata, In (cid, cdata) cmap ->
        is_Some (PyDict.get cid (snd (finalize cmap au ml))))
  /\ (forall cid r,
        PyDict.get cid (snd (finalize cmap au ml)) = Some r ->
        exists cdata,
          In (cid, cdata) cmap
          /\ lnl_diff r = ci_lnl_diff cdata
          /\ constrained_lnl r = ci_constrained_lnl cdata
          /\ taxa r = ci_taxa cdata
          /\ AU_pvalue r = None
          /\ significant_AU r = None).
Proof.
  intros Hau.
  assert (E : finalize cmap au ml = (ml, populate cmap)).
  { unfold finalize. by rewrite (au_truthy_falsy au Hau). }
  rewrite E. simpl. split; [reflexivity |]. split.
  - intros cid cdata Hin. apply populate_has_key. left.
    unfold PyDict.keys. apply list_elem_of_In, in_map_iff.
    by exists (cid, cdata).
  - intros cid r Hg. apply populate_get_In in Hg as [(cdata & Hin & ->) | Hg].
    + exists cdata. by repeat split.
    + discriminate.
Qed.

(** ** Names of branches and of their files *)

Lemma of_nat_inj (n m : nat) : PyStr.of_nat n = PyStr.of_nat m -> n = m.
Proof.
  unfold PyStr.of_nat. intros E.
  apply (f_equal NilEmpty.uint_of_string) in E.
  rewrite !NilEmpty.usu in E. injection E as E.
  apply (f_equal Nat.of_uint) in E.
  by rewrite !DecimalNat.Unsigned.of_to in E.
Qed.

Lemma clade_id_of_inj (n m : nat) : clade_id_of n = clade_id_of m -> n = m.
Proof.
  unfold clade_id_of. cbn [String.app]. intros E.
  injection E as E. by apply of_nat_inj.
Qed.

Lemma string_app_inj_r (a b c : string) : a +:+ c = b +:+ c -> a = b.
Proof.
  intros E.
  assert (Hlen : String.length a = String.length b).
  { apply (f_equal String.length) in E. rewrite !string_length_app in E. lia. }
  revert b E Hlen. induction a as [|x a IH]; intros [|y b] E Hlen;
    simpl in *; try discriminate; [reflexivity |].
  injection E as -> E. f_equal. apply IH; [done | lia].
Qed.

Lemma constr_cmd_fn_inj (n m : nat) : constr_cmd_fn n = constr_cmd_fn m -> n = m.
Proof.
  unfold constr_cmd_fn. cbn [String.app]. intros E. injection E as E.
  by apply of_nat_inj, (string_app_inj_r _ _ ".nex").
Qed.

(** ** The branch loop *)

Section BranchLoop.
Context `{Externals}.
Variable self : self_state.
Variable total : nat.

(** One turn, by what it stores. *)
Lemma branch_step_spec (i : nat) (c : clade) (st : loop_state) :
  branch_step self total i c st
  = match stored_info self total i c st with
    | Some info =>
        LoopState (all_tree_files_rel st ++ [ci_tree_filename info])
          (PyDict.set (clade_id_of (i + 1)) info (constraint_info_map st))
          (snd (search_of self i c st))
    | None =>
        if trivial_branch (length (clade_taxa c)) total then st
        else LoopState (all_tree_files_rel st) (constraint_info_map st)
               (snd (search_of self i c st))
    end.
Proof.
  unfold branch_step, stored_info, search_of.
  destruct (trivial_branch (length (clade_taxa c)) total); [reflexivity |].
  destruct (_generate_and_score_constraint_tree self (clade_taxa c) (i + 1)
              (loop_world st)) as [[rel lnl] w'].
  simpl. destruct rel as [fn|]; [| reflexivity].
  destruct (PyStr.truthy fn); reflexivity.
Qed.

Lemma branch_loop_app (i : nat) (a b : list clade) (st : loop_state) :
  branch_loop self total i (a ++ b) st
  = branch_loop self total (i + length a) b (branch_loop self total i a st).
Proof.
  revert i st. induction a as [|c a IH]; intros i st; simpl.
  - by rewrite Nat.add_0_r.
  - rewrite IH. f_equal. lia.
Qed.

Lemma branch_step_get_other (i : nat) (c : clade) (st : loop_state) (j : nat) :
  j <> i ->
  PyDict.get (clade_id_of (j + 1))
    (constraint_info_map (branch_step self total i c st))
  = PyDict.get (clade_id_of (j + 1)) (constraint_info_map st).
Proof.
  intros Hne. rewrite branch_step_spec.
  destruct (stored_info self total i c st) as [info|].
  - simpl. apply dict_get_set_ne. intros E. apply clade_id_of_inj in E. lia.
  - by destruct (trivial_branch _ _).
Qed.

Lemma branch_step_get_same (i : nat) (c : clade) (st : loop_state) :
  PyDict.get (clade_id_of (i + 1)) (constraint_info_map st) = None ->
  PyDict.get (clade_id_of (i + 1))
    (constraint_info_map (branch_step self total i c st))
  = stored_info self total i c st.
Proof.
  intros Hfresh. rewrite branch_step_spec.
  destruct (stored_info self total i c st) as [info|].
  - simpl. apply dict_get_set_eq.
  - by destruct (trivial_branch _ _).
Qed.

(** What the loop leaves under the key of position [k]: the entry stored
    by the turn for that position, run in the state it starts in. *)
Lemma branch_loop_get (cl : list clade) (i0 : nat) (st : loop_state) (k : nat) :
  (forall j, i0 <= j ->
     PyDict.get (clade_id_of (j + 1)) (constraint_info_map st) = None) ->
  PyDict.get (clade_id_of (k + 1))
    (constraint_info_map (branch_loop self total i0 cl st))
  = if k <? i0 then PyDict.get (clade_id_of (k + 1)) (constraint_info_map st)
    else
      match cl !! (k - i0) with
      | Some c =>
          stored_info self total k c
            (branch_loop self total i0 (take (k - i0) cl) st)
      | None => None
      end.
Proof.
  revert i0 st. induction cl as [|c cl IH]; intros i0 st Hfresh; simpl.
  - destruct (Nat.ltb_spec k i0); [reflexivity |]. by apply Hfresh.
  - rewrite IH.
    2:{ intros j Hj. rewrite branch_step_get_other by lia. apply Hfresh. lia. }
    destruct (Nat.ltb_spec k (S i0)) as [Hlt | Hge].
    + destruct (Nat.ltb_spec k i0) as [Hlt' | Hge'].
      * apply branch_step_get_other. lia.
      * assert (k = i0) as -> by lia. rewrite Nat.sub_diag. simpl.
        apply branch_step_get_same, Hfresh. lia.
    + destruct (Nat.ltb_spec k i0) as [Hlt' | _]; [lia |].
      replace (k - i0) with (S (k - S i0)) by lia. reflexivity.
Qed.

Lemma branch_step_NoDup (i : nat) (c : clade) (st : loop_state) :
  NoDup (PyDict.keys (constraint_info_map st)) ->
  NoDup (PyDict.keys (constraint_info_map (branch_step self total i c st))).
Proof.
  intros Hnd. rewrite branch_step_spec.
  destruct (stored_info self total i c st) as [info|].
  - simpl. by apply dict_set_NoDup.
  - by destruct (trivial_branch _ _).
Qed.

Lemma branch_loop_NoDup (cl : list clade) (i : nat) (st : loop_state) :
  NoDup (PyDict.keys (constraint_info_map st)) ->
  NoDup (PyDict.keys (constraint_info_map (branch_loop self total i cl st))).
Proof.
  revert i st. induction cl as [|c cl IH]; intros i st Hnd; simpl; [done |].
  by apply IH, branch_step_NoDup.
Qed.

Lemma dict_set_nonempty {V : Type} (k : string) (v : V) (d : PyDict.t V) :
  PyDict.set k v d <> [].
Proof. destruct d as [|[k' v'] d]; simpl; [done |]. by destruct (String.eqb k k'). Qed.

Lemma branch_step_trees (i : nat) (c : clade) (st : loop_state) :
  trees_cover st -> trees_cover (branch_step self total i c st).
Proof.
  intros [H1 H2]. rewrite branch_step_spec.
  destruct (stored_info self total i c st) as [info|].
  - unfold trees_cover. simpl. rewrite length_app. simpl. lia.
  - by destruct (trivial_branch _ _).
Qed.

Lemma branch_loop_trees (cl : list clade) (i : nat) (st : loop_state) :
  trees_cover st -> trees_cover (branch_loop self total i cl st).
Proof.
  revert i st. induction cl as [|c cl IH]; intros i st Hc; simpl; [done |].
  by apply IH, branch_step_trees.
Qed.

End BranchLoop.

(** ** The site-analysis loop *)

Section SitePhase.
Context `{Externals}.
Variable self : self_state.

Lemma info_summary_with_site (res : site_analysis) (c : constraint_info) :
  info_summary (with_site res c) = info_summary c.
Proof. reflexivity. Qed.

Lemma site_step_get (st : PyDict.t constraint_info * world)
    (item : string * constraint_info) (k : string) :
  info_summary <$> PyDict.get k (fst (site_step self st item))
  = info_summary <$> PyDict.get k (fst st).
Proof.
  unfold site_step. destruct item as [clade_id cdata].
  destruct (PyStr.truthy (ci_tree_filename cdata)); [| reflexivity].
  destruct (_calculate_site_likelihoods _ _ _ _) as [[res|] w']; [| reflexivity].
  simpl. rewrite dict_get_alter.
  destruct (String.eqb k clade_id); [| reflexivity].
  by destruct (PyDict.get k (fst st)).
Qed.

Lemma site_step_keys (st : PyDict.t constraint_info * world)
    (item : string * constraint_info) :
  PyDict.keys (fst (site_step self st item)) = PyDict.keys (fst st).
Proof.
  unfold site_step. destruct item as [clade_id cdata].
  destruct (PyStr.truthy (ci_tree_filename cdata)); [| reflexivity].
  destruct (_calculate_site_likelihoods _ _ _ _) as [[res|] w']; [| reflexivity].
  simpl. apply dict_keys_alter.
Qed.

Lemma site_fold_get (items : list (string * constraint_info))
    (st : PyDict.t constraint_info * world) (k : string) :
  info_summary <$> PyDict.get k (fst (fold_left (site_step self) items st))
  = info_summary <$> PyDict.get k (fst st).
Proof.
  revert st. induction items as [|item items IH]; intros st; simpl; [done |].
  by rewrite IH, site_step_get.
Qed.

Lemma site_fold_keys (items : list (string * constraint_info))
    (st : PyDict.t constraint_info * world) :
  PyDict.keys (fst (fold_left (site_step self) items st)) = PyDict.keys (fst st).
Proof.
  revert st. induction items as [|item items IH]; intros st; simpl; [done |].
  by rewrite IH, site_step_keys.
Qed.

(** The site analysis changes neither the keys nor the taxa, difference
    and constrained likelihood of an entry. *)
Lemma site_phase_get (perform : bool) (cmap : PyDict.t constraint_info)
    (w : world) (k : string) :
  info_summary <$> PyDict.get k (fst (site_phase perform self cmap w))
  = info_summary <$> PyDict.get k cmap.
Proof.
  unfold site_phase. destruct perform; [| reflexivity].
  apply (site_fold_get cmap (cmap, w)).
Qed.

Lemma site_phase_keys (perform : bool) (cmap : PyDict.t constraint_info)
    (w : world) :
  PyDict.keys (fst (site_phase perform self cmap w)) = PyDict.keys cmap.
Proof.
  unfold site_phase. destruct perform; [| reflexivity].
  apply (site_fold_keys cmap (cmap, w)).
Qed.

End SitePhase.

(** ** The whole computation *)

Section Run.
Context `{Externals}.

Lemma initial_record_summary (cdata : constraint_info) :
  record_summary (initial_record cdata)
  = (info_summary cdata, None, None).
Proof. reflexivity. Qed.

Lemma loop_start_fresh (w : world) (k : string) :
  PyDict.get k (constraint_info_map (loop_start w)) = None.
Proof. reflexivity. Qed.

(** The entry the branch loop leaves for position [k]. *)
Lemma run_branch_loop_get (self : self_state) (tree : clade) (w : world)
    (k : nat) :
  PyDict.get (clade_id_of (k + 1))
    (constraint_info_map (run_branch_loop self tree w))
  = stored_at self tree w k.
Proof.
  unfold run_branch_loop, stored_at, state_before.
  rewrite branch_loop_get by (intros; apply loop_start_fresh).
  simpl. by rewrite Nat.sub_0_r.
Qed.

(** The records of a run that starts from a known optimum: the optimum
    likelihood is not changed, and the record of position [k] holds the
    taxa, the difference and the constrained likelihood of the entry
    stored by the turn for [k], with no p-value and no flag. *)
Lemma decay_run_records (perform : bool) (self : self_state) (w : world)
    (tree : clade) (ml : float) :
  ml_tree self = Some tree ->
  ml_likelihood self = Some ml ->
  let run := calculate_decay_indices perform self w in
  ml_likelihood (snd (fst run)) = Some ml
  /\ forall k,
       record_summary <$> PyDict.get (clade_id_of (k + 1)) (fst (fst run))
       = (fun info => (info_summary info, None, None))
           <$> stored_at self tree w k.
Proof.
  intros Htree Hml run. subst run.
  unfold calculate_decay_indices, decay_from_optimum. rewrite Htree, Hml.
  destruct (get_nonterminals tree) as [|c0 cl] eqn:Ecl.
  { simpl. split; [done |]. intros k. unfold stored_at. by rewrite Ecl. }
  clear c0 cl Ecl.
  pose proof (run_branch_loop_get self tree w) as Hget.
  pose proof (branch_loop_NoDup self (length (get_terminals tree))
                (get_nonterminals tree) 0 (loop_start w)
                (NoDup_nil_2 : NoDup (PyDict.keys (constraint_info_map (loop_start w)))))
    as Hnd.
  pose proof (branch_loop_trees self (length (get_terminals tree))
                (get_nonterminals tree) 0 (loop_start w)) as Hcov.
  fold (run_branch_loop self tree w) in Hnd, Hcov.
  destruct (constraint_info_map (run_branch_loop self tree w))
    as [|e0 cmap0] eqn:Ecm.
  { simpl. split; [done |]. intros k. by rewrite <- Hget. }
  rewrite <- Ecm in *.
  set (st := run_branch_loop self tree w) in *.
  destruct (site_phase perform self (constraint_info_map st) (loop_world st))
    as [cmap w1] eqn:Esite.
  assert (Hlen : 2 <= length (all_tree_files_rel st)).
  { destruct Hcov as [_ Hcov]; [split; simpl; [lia | done] |].
    apply Hcov. by rewrite Ecm. }
  pose proof (run_au_test_many self (all_tree_files_rel st) w1 Hlen) as Hau.
  destruct (run_au_test self (all_tree_files_rel st) w1) as [au w2].
  simpl in Hau. subst au.
  unfold finalize. simpl. split; [done |]. intros k.
  assert (Hkeys : PyDict.keys cmap = PyDict.keys (constraint_info_map st)).
  { pose proof (site_phase_keys self perform (constraint_info_map st)
                  (loop_world st)) as Hk. by rewrite Esite in Hk. }
  rewrite populate_map by (by rewrite Hkeys).
  rewrite dict_get_map.
  pose proof (site_phase_get self perform (constraint_info_map st)
                (loop_world st) (clade_id_of (k + 1))) as Hs.
  rewrite Esite in Hs. simpl in Hs. rewrite Hget in Hs.
  destruct (PyDict.get (clade_id_of (k + 1)) cmap) as [cd|],
           (stored_at self tree w k) as [info|]; simpl in *;
    try discriminate; [| reflexivity].
  rewrite initial_record_summary. unfold info_summary in *. congruence.
Qed.

End Run.

(** ** Records and constrained searches *)

Section Records.
Context `{Externals}.

Lemma stored_info_Some (self : self_state) (total i : nat) (c : clade)
    (st : loop_state) :
  is_Some (stored_info self total i c st)
  <-> trivial_branch (length (clade_taxa c)) total = false
      /\ produced_tree (search_of self i c st) = true.
Proof.
  unfold stored_info, produced_tree.
  destruct (trivial_branch (length (clade_taxa c)) total).
  - split; [intros [? ?]; discriminate | intros [? _]; discriminate].
  - destruct (fst (fst (search_of self i c st))) as [fn|].
    + destruct (PyStr.truthy fn).
      * split; [done | intros _; by eexists].
      * split; [intros [? ?]; discriminate | intros [_ ?]; discriminate].
    + split; [intros [? ?]; discriminate | intros [_ ?]; discriminate].
Qed.

Lemma stored_info_fields (self : self_state) (total i : nat) (c : clade)
    (st : loop_state) (info : constraint_info) :
  stored_info self total i c st = Some info ->
  ci_taxa info = clade_taxa c
  /\ ci_constrained_lnl info = snd (fst (search_of self i c st))
  /\ ci_lnl_diff info
     = match snd (fst (search_of self i c st)), ml_likelihood self with
       | Some lnl, Some ml => Some (lnl - ml)%float
       | _, _ => None
       end.
Proof.
  unfold stored_info.
  destruct (trivial_branch (length (clade_taxa c)) total); [discriminate |].
  destruct (fst (fst (search_of self i c st))) as [fn|]; [| discriminate].
  destruct (PyStr.truthy fn); [| discriminate].
  intros [= <-]. by repeat split.
Qed.

(** C2, amended. In a run that starts from a known optimum, the branch
    at position [k] of the internal clades has a record in the result
    exactly when it passes the size test and its constrained search,
    run in the state its turn starts in, returns a tree file name; a
    search that returns no tree file leaves no record, whatever
    likelihood it returns. *)
Theorem decay_record_iff_tree (perform : bool) (self : self_state)
    (w : world) (tree : clade) (ml : float) (k : nat) (c : clade) :
  ml_tree self = Some tree ->
  ml_likelihood self = Some ml ->
  get_nonterminals tree !! k = Some c ->
  let d := fst (fst (calculate_decay_indices perform self w)) in
  let search := search_of self k c (state_before self tree w k) in
  (is_Some (PyDict.get (clade_id_of (k + 1)) d)
   <-> trivial_branch (length (clade_taxa c)) (length (get_terminals tree))
       = false
       /\ produced_tree search = true)
  /\ (fst (fst search) = None -> PyDict.get (clade_id_of (k + 1)) d = None).
Proof.
  intros Htree Hml Hc d search.
  destruct (decay_run_records perform self w tree ml Htree Hml) as [_ Hrec].
  specialize (Hrec k). fold d in Hrec.
  unfold stored_at in Hrec. rewrite Hc in Hrec.
  pose proof (stored_info_Some self (length (get_terminals tree)) k c
                (state_before self tree w k)) as Hiff.
  fold search in Hiff.
  assert (Hsame : is_Some (PyDict.get (clade_id_of (k + 1)) d)
                  <-> is_Some (stored_info self (length (get_terminals tree))
                                 k c (state_before self tree w k))).
  { destruct (PyDict.get (clade_id_of (k + 1)) d),
             (stored_info self (length (get_terminals tree)) k c
                (state_before self tree w k)); simpl in Hrec;
      try discriminate; split; intros [? ?]; try discriminate; by eexists. }
  split.
  - by rewrite Hsame.
  - intros Hnone.
    destruct (PyDict.get (clade_id_of (k + 1)) d) as [r|] eqn:E; [| done].
    assert (Hs : is_Some (Some r)) by (by eexists).
    apply Hsame, Hiff in Hs as [_ Hp]. unfold produced_tree in Hp.
    by rewrite Hnone in Hp.
Qed.

(** C5. In a run that starts from a known optimum, the optimum
    likelihood is not changed, and for every branch that passes the size
    test and whose constrained search returns a tree file and a
    likelihood, the record holds that likelihood and, as its difference,
    that likelihood minus the optimum likelihood: the very float of the
    subtraction, hence within any tolerance of it. *)
Theorem lnl_diff_constrained_minus_optimum (perform : bool)
    (self : self_state) (w : world) (tree : clade) (ml : float)
    (k : nat) (c : clade) (lnl : float) :
  ml_tree self = Some tree ->
  ml_likelihood self = Some ml ->
  get_nonterminals tree !! k = Some c ->
  let run := calculate_decay_indices perform self w in
  let search := search_of self k c (state_before self tree w k) in
  trivial_branch (length (clade_taxa c)) (length (get_terminals tree)) = false ->
  produced_tree search = true ->
  snd (fst search) = Some lnl ->
  ml_likelihood (snd (fst run)) = Some ml
  /\ exists r,
       PyDict.get (clade_id_of (k + 1)) (fst (fst run)) = Some r
       /\ constrained_lnl r = Some lnl
       /\ lnl_diff r = Some (lnl - ml)%float.
Proof.
  intros Htree Hml Hc run search Htriv Hprod Hlnl.
  destruct (decay_run_records perform self w tree ml Htree Hml) as [Hopt Hrec].
  split; [exact Hopt |].
  specialize (Hrec k). fold run in Hrec.
  unfold stored_at in Hrec. rewrite Hc in Hrec.
  destruct (proj2 (stored_info_Some self (length (get_terminals tree)) k c
                     (state_before self tree w k)) (conj Htriv Hprod))
    as [info Hinfo].
  rewrite Hinfo in Hrec.
  destruct (stored_info_fields _ _ _ _ _ _ Hinfo) as (_ & Hcl & Hdiff).
  fold search in Hcl, Hdiff. rewrite Hlnl in Hcl, Hdiff. rewrite Hml in Hdiff.
  destruct (PyDict.get (clade_id_of (k + 1)) (fst (fst run))) as [r|];
    [| discriminate].
  exists r. split; [reflexivity |].
  simpl in Hrec. unfold record_summary, info_summary in Hrec.
  injection Hrec as _ Hd Hcr _ _. by rewrite Hd, Hcr.
Qed.

End Records.

(** C2 as stated fails: the search for branch 3 returns a likelihood and
    no tree file, and the result holds a record for branch 2 only. *)
Lemma likelihood_without_tree_gives_no_record :
  let run := calculate_decay_indices
               (H := Fixtures.externals_of Fixtures.partial_table) false
               Fixtures.five_taxa_self Fixtures.empty_world in
  PyDict.keys (fst (fst run)) = ["Clade_2"]
  /\ fst (search_of (H := Fixtures.externals_of Fixtures.partial_table)
            Fixtures.five_taxa_self 2 Fixtures.clade_CD
            (state_before (H := Fixtures.externals_of Fixtures.partial_table)
               Fixtures.five_taxa_self Fixtures.five_taxa
               Fixtures.empty_world 2))
     = (None, Some 1000.1%float).
Proof. vm_compute. split; reflexivity. Qed.

(** C2, amended, at branch 2 of the five-taxon run: the search returns a
    tree file and the branch has a record. *)
Lemma decay_record_iff_tree_witness :
  is_Some
    (PyDict.get (clade_id_of (1 + 1))
       (fst (fst (calculate_decay_indices
                    (H := Fixtures.externals_of Fixtures.partial_table) false
                    Fixtures.five_taxa_self Fixtures.empty_world)))).
Proof.
  pose proof (decay_record_iff_tree
                (H := Fixtures.externals_of Fixtures.partial_table) false
                Fixtures.five_taxa_self Fixtures.empty_world
                Fixtures.five_taxa 1000%float 1 Fixtures.clade_AB
                eq_refl eq_refl eq_refl) as [Hiff _].
  apply Hiff. split; vm_compute; reflexivity.
Defined.

(** C5 at branch 2 of the five-taxon run. *)
Lemma lnl_diff_constrained_minus_optimum_witness :
  exists r,
    PyDict.get (clade_id_of (1 + 1))
      (fst (fst (calculate_decay_indices
                   (H := Fixtures.externals_of Fixtures.partial_table) false
                   Fixtures.five_taxa_self Fixtures.empty_world))) = Some r
    /\ constrained_lnl r = Some 1005.2%float
    /\ lnl_diff r = Some (1005.2 - 1000)%float.
Proof.
  apply (lnl_diff_constrained_minus_optimum
           (H := Fixtures.externals_of Fixtures.partial_table) false
           Fixtures.five_taxa_self Fixtures.empty_world
           Fixtures.five_taxa 1000%float 1 Fixtures.clade_AB 1005.2%float);
    vm_compute; reflexivity.
Defined.

(** ** The scripts handed to the engine *)

Section Invocations.
Context `{Externals}.

Lemma run_paup_invocations (cmd log content : string) (t : py_num) (w : world) :
  files w !! cmd = Some content ->
  invocations (snd (_run_paup_command_file cmd log t w))
  = invocations w ++ [cmd].
Proof.
  intros Hcmd. unfold _run_paup_command_file. rewrite Hcmd.
  destruct (paup _ _ _ _) as [[rc out err | out err |] fs]; try reflexivity.
  by destruct (rc =? 0)%Z.
Qed.

Lemma run_written_invocations (cmd log content : string) (t : py_num)
    (w : world) :
  invocations (snd (_run_paup_command_file cmd log t (write_text cmd content w)))
  = invocations w ++ [cmd].
Proof.
  erewrite run_paup_invocations; [reflexivity |].
  unfold write_text. simpl. apply lookup_insert_eq.
Qed.

Lemma search_invocations (self : self_state) (clade_taxa_names : list string)
    (idx : nat) (w : world) :
  invocations (snd (_generate_and_score_constraint_tree self clade_taxa_names
                      idx w))
  = invocations w
    ++ (if match clade_taxa_names with [] => true | _ => false end
           || (length clade_taxa_names =? length (alignment_ids self))
        then [] else [constr_cmd_fn idx]).
Proof.
  unfold _generate_and_score_constraint_tree.
  destruct clade_taxa_names as [|t ts]; simpl map; cbn [orb].
  { by rewrite app_nil_r. }
  destruct (length (t :: ts) =? length (alignment_ids self)).
  { by rewrite app_nil_r. }
  pose proof (run_written_invocations (constr_cmd_fn idx) (constr_log_fn idx)
                (paup_script
                   (constraint_script_cmds self
                      (_format_taxon_for_paup t :: map _format_taxon_for_paup ts)
                      idx)) (PyInt 600) w) as Hrun.
  destruct (_run_paup_command_file _ _ _ _) as [[cp|e] w2]; simpl in Hrun.
  - destruct (exists_nonempty (constr_tree_fn idx) w2); [exact Hrun |].
    destruct (_parse_likelihood_from_score_file (constr_score_fn idx) w2);
      [exact Hrun |].
    destruct (files w2 !! constr_log_fn idx); [| exact Hrun].
    by destruct (lnl_from_log lnl_log_patterns _).
  - exact Hrun.
Qed.

Lemma trivial_branch_false (n total : nat) :
  trivial_branch n total = false <-> 2 <= n <= total - 2.
Proof.
  unfold trivial_branch. rewrite orb_false_iff.
  rewrite Z.leb_gt, Z.geb_leb, Z.leb_gt. lia.
Qed.

Lemma branch_step_invocations (self : self_state) (total i : nat) (c : clade)
    (st : loop_state) :
  invocations (loop_world (branch_step self total i c st))
  = invocations (loop_world st)
    ++ (if attempted self total c then [constr_cmd_fn (i + 1)] else []).
Proof.
  unfold attempted.
  pose proof (search_invocations self (clade_taxa c) (i + 1) (loop_world st))
    as Hs.
  unfold branch_step.
  destruct (trivial_branch (length (clade_taxa c)) total) eqn:Etriv; simpl.
  { by rewrite app_nil_r. }
  apply trivial_branch_false in Etriv.
  destruct (clade_taxa c) as [|t ts] eqn:Etaxa; [simpl in Etriv; lia |].
  cbn [orb] in Hs. rewrite <- Etaxa in *.
  destruct (_generate_and_score_constraint_tree self (clade_taxa c) (i + 1)
              (loop_world st)) as [[rel lnl] w'].
  simpl in Hs.
  destruct (length (clade_taxa c) =? length (alignment_ids self)); simpl;
    destruct rel as [fn|]; try destruct (PyStr.truthy fn); exact Hs.
Qed.

Lemma branch_loop_invocations (self : self_state) (total : nat)
    (cl : list clade) (i : nat) (st : loop_state) :
  invocations (loop_world (branch_loop self total i cl st))
  = invocations (loop_world st) ++ loop_scripts self total i cl.
Proof.
  revert i st. induction cl as [|c cl IH]; intros i st; simpl.
  - by rewrite app_nil_r.
  - by rewrite IH, branch_step_invocations, <- app_assoc.
Qed.

Lemma loop_scripts_In (self : self_state) (total : nat) (cl : list clade)
    (i n : nat) :
  In (constr_cmd_fn n) (loop_scripts self total i cl)
  <-> exists j c, n = i + j + 1 /\ cl !! j = Some c
                  /\ attempted self total c = true.
Proof.
  revert i. induction cl as [|c cl IH]; intros i; simpl.
  - split; [done | intros (j & c & _ & Hc & _); discriminate].
  - rewrite in_app_iff, IH. split.
    + intros [Hin | (j & c' & -> & Hc' & Ha)].
      * destruct (attempted self total c) eqn:Ea; [| done].
        destruct Hin as [E | []]. apply constr_cmd_fn_inj in E.
        exists 0, c. split; [lia | done].
      * exists (S j), c'. split; [lia | done].
    + intros (j & c' & -> & Hc' & Ha). destruct j as [|j]; simpl in Hc'.
      * injection Hc' as ->. left. rewrite Ha. left. f_equal. lia.
      * right. exists j, c'. split; [lia | done].
Qed.

Lemma prefix_app (s t : string) : String.prefix s (s +:+ t) = true.
Proof.
  induction s as [|a s IH]; simpl; [by destruct t |].
  destruct (Ascii.ascii_dec a a); [exact IH | done].
Qed.

Lemma constr_cmd_fn_not_other (n : nat) : ~ other_script (constr_cmd_fn n).
Proof.
  unfold other_script, constr_cmd_fn. by rewrite prefix_app.
Qed.

Lemma site_calc_invocations (self : self_state) (fs : list string)
    (branch_id : string) (w : world) :
  exists extra,
    invocations (snd (_calculate_site_likelihoods self fs branch_id w))
    = invocations w ++ extra
    /\ Forall other_script extra.
Proof.
  unfold _calculate_site_likelihoods.
  destruct fs as [|f0 [|f1 [|f2 fs]]];
    try (exists []; split; [by rewrite app_nil_r | constructor]).
  exists ["site_analysis_" +:+ branch_id +:+ ".nex"]. split.
  - match goal with
    | |- context [_run_paup_command_file ?cmd ?log ?t (write_text ?cmd ?content w)] =>
        pose proof (run_written_invocations cmd log content t w) as Hrun;
        destruct (_run_paup_command_file cmd log t (write_text cmd content w))
          as [[cp|e] w2]
    end; simpl in Hrun; [| exact Hrun].
    by destruct (files w2 !! _).
  - repeat constructor.
Qed.

Lemma site_step_invocations (self : self_state)
    (st : PyDict.t constraint_info * world) (item : string * constraint_info) :
  exists extra,
    invocations (snd (site_step self st item)) = invocations (snd st) ++ extra
    /\ Forall other_script extra.
Proof.
  unfold site_step. destruct item as [clade_id cdata].
  destruct (PyStr.truthy (ci_tree_filename cdata)).
  - destruct (site_calc_invocations self [ML_TREE_FN; ci_tree_filename cdata]
                clade_id (snd st)) as (extra & Hinv & Hex).
    exists extra. split; [| done].
    destruct (_calculate_site_likelihoods _ _ _ _) as [[res|] w']; exact Hinv.
  - exists []. split; [by rewrite app_nil_r | constructor].
Qed.

Lemma site_fold_invocations (self : self_state)
    (items : list (string * constraint_info))
    (st : PyDict.t constraint_info * world) :
  exists extra,
    invocations (snd (fold_left (site_step self) items st))
    = invocations (snd st) ++ extra
    /\ Forall other_script extra.
Proof.
  revert st. induction items as [|item items IH]; intros st; simpl.
  - exists []. split; [by rewrite app_nil_r | constructor].
  - destruct (IH (site_step self st item)) as (e2 & -> & H2).
    destruct (site_step_invocations self st item) as (e1 & -> & H1).
    exists (e1 ++ e2). split; [by rewrite app_assoc | by apply Forall_app].
Qed.

Lemma site_phase_invocations (perform : bool) (self : self_state)
    (cmap : PyDict.t constraint_info) (w : world) :
  exists extra,
    invocations (snd (site_phase perform self cmap w)) = invocations w ++ extra
    /\ Forall other_script extra.
Proof.
  unfold site_phase. destruct perform.
  - apply (site_fold_invocations self cmap (cmap, w)).
  - exists []. split; [by rewrite app_nil_r | constructor].
Qed.

Lemma run_au_test_invocations (self : self_state) (trees : list string)
    (w : world) :
  exists extra,
    invocations (snd (run_au_test self trees w)) = invocations w ++ extra
    /\ Forall other_script extra.
Proof.
  unfold run_au_test.
  destruct trees as [|first rest];
    [exists []; split; [by rewrite app_nil_r | constructor] |].
  destruct (length (first :: rest) <? 2).
  - exists []. split; [| constructor]. rewrite app_nil_r.
    by destruct ((length (first :: rest) =? 1) && String.eqb first ML_TREE_FN),
                (ml_likelihood self).
  - exists [AU_TEST_NEX_FN]. split; [| repeat constructor].
    match goal with
    | |- context [_run_paup_command_file ?cmd ?log ?t (write_text ?cmd ?content w)] =>
        pose proof (run_written_invocations cmd log content t w) as Hrun;
        destruct (_run_paup_command_file cmd log t (write_text cmd content w))
          as [[cp|e] w2]
    end; exact Hrun.
Qed.

(** The scripts of a run that starts from a known optimum: those of the
    branch loop, then scripts that are not constrained searches. *)
Lemma decay_run_invocations (perform : bool) (self : self_state) (w : world)
    (tree : clade) (ml : float) :
  ml_tree self = Some tree ->
  ml_likelihood self = Some ml ->
  exists rest,
    invocations (snd (calculate_decay_indices perform self w))
    = invocations w
      ++ loop_scripts self (length (get_terminals tree)) 0
           (get_nonterminals tree)
      ++ rest
    /\ Forall other_script rest.
Proof.
  intros Htree Hml.
  unfold calculate_decay_indices, decay_from_optimum. rewrite Htree, Hml.
  destruct (get_nonterminals tree) as [|c0 cl] eqn:Ecl.
  { exists []. simpl. split; [by rewrite app_nil_r | constructor]. }
  pose proof (branch_loop_invocations self (length (get_terminals tree))
                (get_nonterminals tree) 0 (loop_start w)) as Hloop.
  fold (run_branch_loop self tree w) in Hloop. rewrite Ecl in Hloop.
  simpl invocations in Hloop at 2.
  destruct (constraint_info_map (run_branch_loop self tree w)) as [|e0 cm] eqn:Ecm.
  { exists []. simpl snd. rewrite Hloop, app_nil_r. split; [done | constructor]. }
  rewrite <- Ecm. clear Ecm.
  set (st := run_branch_loop self tree w) in *.
  destruct (site_phase_invocations perform self (constraint_info_map st)
              (loop_world st)) as (e1 & Hsite & H1).
  destruct (site_phase perform self (constraint_info_map st) (loop_world st))
    as [cmap w1].
  simpl in Hsite.
  destruct (run_au_test_invocations self (all_tree_files_rel st) w1)
    as (e2 & Hau & H2).
  destruct (run_au_test self (all_tree_files_rel st) w1) as [au w2].
  simpl in Hau.
  destruct (finalize cmap au (Some ml)) as [ml' d].
  exists (e1 ++ e2). simpl snd. split; [| by apply Forall_app].
  rewrite Hau, Hsite, Hloop. by rewrite <- !app_assoc.
Qed.

(** C4. In a run that starts from a known optimum on a tree with as many
    taxa as the alignment, the script of the constrained search of the
    internal clade at position [k] is handed to the engine exactly when
    the clade holds between 2 and (total taxa - 2) taxa; the scripts of
    constrained searches handed to the engine are those of such clades
    only. *)
Theorem constrained_search_iff_testable (perform : bool) (self : self_state)
    (w : world) (tree : clade) (ml : float) :
  ml_tree self = Some tree ->
  ml_likelihood self = Some ml ->
  length (alignment_ids self) = length (get_terminals tree) ->
  exists new,
    invocations (snd (calculate_decay_indices perform self w))
    = invocations w ++ new
    /\ (forall k c,
          get_nonterminals tree !! k = Some c ->
          In (constr_cmd_fn (k + 1)) new
          <-> 2 <= length (clade_taxa c) <= length (get_terminals tree) - 2)
    /\ (forall n,
          In (constr_cmd_fn n) new ->
          exists k c,
            n = k + 1 /\ get_nonterminals tree !! k = Some c
            /\ 2 <= length (clade_taxa c) <= length (get_terminals tree) - 2).
Proof.
  intros Htree Hml Halign.
  destruct (decay_run_invocations perform self w tree ml Htree Hml)
    as (rest & Hinv & Hrest).
  set (total := length (get_terminals tree)) in *.
  set (cl := get_nonterminals tree) in *.
  exists (loop_scripts self total 0 cl ++ rest).
  split; [exact Hinv |].
  assert (Hatt : forall c, attempted self total c = true
                           <-> 2 <= length (clade_taxa c) <= total - 2).
  { intros c. unfold attempted. rewrite andb_true_iff, !negb_true_iff.
    rewrite trivial_branch_false, Nat.eqb_neq. lia. }
  assert (Hin : forall n, In (constr_cmd_fn n) (loop_scripts self total 0 cl ++ rest)
                          <-> In (constr_cmd_fn n) (loop_scripts self total 0 cl)).
  { intros n. rewrite in_app_iff. split; [| by left].
    intros [Hl | Hr]; [done |].
    rewrite Forall_forall in Hrest. apply list_elem_of_In, Hrest in Hr.
    by apply constr_cmd_fn_not_other in Hr. }
  split.
  - intros k c Hc. rewrite Hin, loop_scripts_In. split.
    + intros (j & c' & Hn & Hc' & Ha).
      assert (j = k) as -> by lia. rewrite Hc in Hc'. injection Hc' as <-.
      by apply Hatt.
    + intros Hsize. exists k, c. split; [lia |]. split; [done |].
      by apply Hatt.
  - intros n Hn. apply Hin, loop_scripts_In in Hn as (j & c & -> & Hc & Ha).
    exists j, c. split; [lia |]. split; [done |]. by apply Hatt.
Qed.

End Invocations.

(** C4 at the five-taxon run: the searches of the clades (A,B) and
    (C,D) are run, and no search is run for the root. *)
Lemma constrained_search_iff_testable_witness :
  exists new,
    invocations
      (snd (calculate_decay_indices
              (H := Fixtures.externals_of Fixtures.partial_table) false
              Fixtures.five_taxa_self Fixtures.empty_world))
    = invocations Fixtures.empty_world ++ new
    /\ In (constr_cmd_fn (1 + 1)) new
    /\ In (constr_cmd_fn (2 + 1)) new.
Proof.
  destruct (constrained_search_iff_testable
              (H := Fixtures.externals_of Fixtures.partial_table) false
              Fixtures.five_taxa_self Fixtures.empty_world
              Fixtures.five_taxa 1000%float eq_refl eq_refl eq_refl)
    as (new & Hinv & Hiff & _).
  exists new. split; [exact Hinv |]. split.
  - apply (Hiff 1 Fixtures.clade_AB eq_refl). vm_compute. lia.
  - apply (Hiff 2 Fixtures.clade_CD eq_refl). vm_compute. lia.
Defined.

(** * Further properties of the modelled code *)

(** ** The engine session *)

Section EngineSession.
Context `{Externals}.

(** X1. Without the script file the session raises FileNotFoundError and
    leaves the working directory and the list of scripts run as they
    were.  With the script file, the engine is handed the script once,
    the log file exists afterwards whatever the outcome, and the session
    returns normally exactly when the engine exits with code 0, the
    returned process then carrying the captured output. *)
Theorem run_paup_command_file_outcome (cmd log : string) (t : py_num)
    (w : world) :
  (files w !! cmd = None ->
   _run_paup_command_file cmd log t w = (Raise FileNotFoundError, w))
  /\ (forall content, files w !! cmd = Some content ->
        let r := _run_paup_command_file cmd log t w in
        let outcome :=
          fst (paup (invocations w) cmd t
                 (<[log := EmptyString]> (files w))) in
        is_Some (files (snd r) !! log)
        /\ invocations (snd r) = invocations w ++ [cmd]
        /\ (forall cp, fst r = Ok cp
                       <-> outcome = Exited 0 (cp_stdout cp) (cp_stderr cp)
                           /\ cp_returncode cp = 0%Z)).
Proof.
  split.
  - intros Hnone. unfold _run_paup_command_file. by rewrite Hnone.
  - intros content Hcmd r outcome. subst r outcome.
    unfold _run_paup_command_file. rewrite Hcmd.
    destruct (paup _ _ _ _) as [[rc out err | out err |] fs]; simpl.
    + destruct (Z.eqb_spec rc 0) as [-> | Hrc]; simpl.
      * split; [rewrite lookup_insert_eq; by eexists |].
        split; [reflexivity |].
        intros [rc' out' err']. simpl. split.
        -- intros [= <- <- <-]. done.
        -- intros [[= <- <-] <-]. done.
      * split; [rewrite lookup_insert_eq; by eexists |].
        split; [reflexivity |].
        intros cp. split; [discriminate | intros [[= ? _ _] _]; done].
    + split; [rewrite lookup_insert_eq; by eexists |].
      split; [reflexivity |].
      intros cp. split; [discriminate | intros [? _]; discriminate].
    + split; [rewrite lookup_insert_eq; by eexists |].
      split; [reflexivity |].
      intros cp. split; [discriminate | intros [? _]; discriminate].
Qed.

End EngineSession.

(** X1 at a script that the table engine runs with exit code 0. *)
Lemma run_paup_command_file_outcome_witness :
  fst (_run_paup_command_file (H := Fixtures.externals_of Fixtures.au_table)
         "au_test.nex" "paup_au.log" (PyInt 1800)
         (World {[ "au_test.nex" := "#NEXUS" ]} []))
  = Ok (CompletedProcess 0 "done" EmptyString).
Proof.
  destruct (run_paup_command_file_outcome
              (H := Fixtures.externals_of Fixtures.au_table)
              "au_test.nex" "paup_au.log" (PyInt 1800)
              (World {[ "au_test.nex" := "#NEXUS" ]} [])) as [_ Hrun].
  destruct (Hrun "#NEXUS" eq_refl) as (_ & _ & Hok).
  apply Hok. split; reflexivity.
Defined.

(** ** The score-file parser, further *)

Section ScoreFileFurther.
Context `{Externals}.

Lemma scan_rows_sound (c : nat) (rows : list string) (v : float) :
  scan_rows c rows = Some v ->
  exists rows1 row rows2 val,
    rows = rows1 ++ row :: rows2
    /\ scan_rows c rows1 = None
    /\ PyStr.split (PyStr.strip row) !! c = Some val
    /\ PyStr.has_char "*" val = false
    /\ py_float val = Some v.
Proof.
  induction rows as [|r rows IH]; simpl; [discriminate |].
  assert (Hskip : scan_rows c rows = Some v ->
                  scan_rows c [r] = None ->
                  exists rows1 row rows2 val,
                    r :: rows = rows1 ++ row :: rows2
                    /\ scan_rows c rows1 = None
                    /\ PyStr.split (PyStr.strip row) !! c = Some val
                    /\ PyStr.has_char "*" val = false
                    /\ py_float val = Some v).
  { intros Hv Hr. destruct (IH Hv) as (rows1 & row & rows2 & val & -> & Hn & Hrest).
    exists (r :: rows1), row, rows2, val. split; [reflexivity |].
    split; [| exact Hrest].
    change (r :: rows1) with ([r] ++ rows1). by rewrite scan_rows_app, Hr. }
  simpl in Hskip.
  destruct (negb (PyStr.truthy (PyStr.strip r))); [by auto |].
  destruct (PyStr.split (PyStr.strip r) !! c) as [val|] eqn:Eval; [| by auto].
  destruct (PyStr.has_char "*" val) eqn:Estar; [by auto |].
  destruct (py_float val) as [x|] eqn:Ex; [| by auto].
  intros [= ->]. exists [], r, rows, val. by repeat split.
Qed.

(** X2. A missing score file gives no value, and so do lines without a
    header.  A value returned by the parser is never made up: it is the
    float of the entry in the likelihood column of a row after the
    header, that entry holds no star, and no earlier row after the
    header yields a value. *)
Theorem parse_likelihood_sound (score_file : string) (w : world) :
  (files w !! score_file = None ->
   _parse_likelihood_from_score_file score_file w = None)
  /\ (forall v, _parse_likelihood_from_score_file score_file w = Some v ->
        exists content h c rows1 row rows2 val,
          files w !! score_file = Some content
          /\ find_header 0 None (PyStr.splitlines content) = (Some h, Some c)
          /\ drop (S h) (PyStr.splitlines content) = rows1 ++ row :: rows2
          /\ scan_rows c rows1 = None
          /\ PyStr.split (PyStr.strip row) !! c = Some val
          /\ PyStr.has_char "*" val = false
          /\ py_float val = Some v).
Proof.
  unfold _parse_likelihood_from_score_file, parse_score_lines. split.
  - by intros ->.
  - intros v. destruct (files w !! score_file) as [content|]; [| discriminate].
    destruct (find_header 0 None (PyStr.splitlines content)) as [[h|] [c|]]
      eqn:Eh; try discriminate.
    intros Hscan.
    destruct (scan_rows_sound _ _ _ Hscan)
      as (rows1 & row & rows2 & val & Hrows & Hn & Hval & Hstar & Hv).
    exists content, h, c, rows1, row, rows2, val. by repeat split.
Qed.

End ScoreFileFurther.

(** X2 at the score file of the example. *)
Lemma parse_likelihood_sound_witness :
  exists content h c rows1 row rows2 val,
    files (Fixtures.score_world Fixtures.score_stars) !! "score.txt"
    = Some content
    /\ find_header 0 None (PyStr.splitlines content) = (Some h, Some c)
    /\ drop (S h) (PyStr.splitlines content) = rows1 ++ row :: rows2
    /\ scan_rows (H := Fixtures.externals_of []) c rows1 = None
    /\ PyStr.split (PyStr.strip row) !! c = Some val
    /\ PyStr.has_char "*" val = false
    /\ py_float (Externals := Fixtures.externals_of []) val
       = Some (-99.5)%float.
Proof.
  destruct (parse_likelihood_sound (H := Fixtures.externals_of [])
              "score.txt" (Fixtures.score_world Fixtures.score_stars))
    as [_ Hsound].
  apply Hsound. reflexivity.
Defined.

Section HeaderSearch.
Context `{Externals}.

(** A line before the header is passed over when it is no header
    candidate or names no likelihood column. *)
Lemma find_header_pass (pre rest : list string) (i : nat)
    (header_idx : option nat) :
  Forall (fun l => header_like (normalize_line l) = false
                   \/ find_lnl_col lnl_col_names (PyStr.split (normalize_line l))
                      = None) pre ->
  exists header_idx',
    find_header i header_idx (pre ++ rest)
    = find_header (i + length pre) header_idx' rest.
Proof.
  intros Hpre. revert i header_idx.
  induction Hpre as [|l pre Hl _ IH]; intros i header_idx;
    cbn [find_header app length].
  - exists header_idx. by rewrite Nat.add_0_r.
  - replace (i + S (length pre)) with (S i + length pre) by lia.
    destruct (header_like (normalize_line l)) eqn:Ehl.
    + destruct Hl as [Hl | Hl]; [discriminate |]. rewrite Hl. apply IH.
    + apply IH.
Qed.

(** X3. The header of a score file is its first line that is a header
    candidate (it mentions tree and a likelihood word) and has a column
    named exactly -lnl, loglk, likelihood or -loglk; a candidate line
    without such a column, like a title line, is passed over, and the
    column chosen is the one of the first of these four names that the
    header has. *)
Theorem find_header_first_accepted (lines : list string) (h c : nat) :
  find_header 0 None lines = (Some h, Some c)
  <-> exists pre line rest,
        lines = pre ++ line :: rest
        /\ h = length pre
        /\ header_like (normalize_line line) = true
        /\ find_lnl_col lnl_col_names (PyStr.split (normalize_line line))
           = Some c
        /\ Forall (fun l =>
                     header_like (normalize_line l) = false
                     \/ find_lnl_col lnl_col_names
                          (PyStr.split (normalize_line l)) = None) pre.
Proof.
  split.
  - assert (Hgen : forall i hi,
               find_header i hi lines = (Some h, Some c) ->
               exists pre line rest,
                 lines = pre ++ line :: rest
                 /\ h = i + length pre
                 /\ header_like (normalize_line line) = true
                 /\ find_lnl_col lnl_col_names
                      (PyStr.split (normalize_line line)) = Some c
                 /\ Forall (fun l =>
                              header_like (normalize_line l) = false
                              \/ find_lnl_col lnl_col_names
                                   (PyStr.split (normalize_line l)) = None)
                      pre).
    { induction lines as [|l lines IH]; intros i hi; cbn [find_header].
      - discriminate.
      - destruct (header_like (normalize_line l)) eqn:Ehl.
        + destruct (find_lnl_col lnl_col_names (PyStr.split (normalize_line l)))
            as [c'|] eqn:Ecol.
          * intros Heq. inversion Heq; subst.
            exists [], l, lines. simpl. repeat split; first [done | lia].
          * intros Hf. destruct (IH _ _ Hf)
              as (pre & line & rest & -> & -> & Hl & Hc & Hpre).
            exists (l :: pre), line, rest. simpl.
            repeat split;
              first [done | lia | constructor; [by right | done]].
        + intros Hf. destruct (IH _ _ Hf)
            as (pre & line & rest & -> & -> & Hl & Hc & Hpre).
          exists (l :: pre), line, rest. simpl.
          repeat split;
            first [done | lia | constructor; [by left | done]]. }
    intros Hf. destruct (Hgen 0 None Hf)
      as (pre & line & rest & -> & -> & Hl & Hc & Hpre).
    exists pre, line, rest. by repeat split.
  - intros (pre & line & rest & -> & -> & Hl & Hc & Hpre).
    destruct (find_header_pass pre (line :: rest) 0 None Hpre) as [hi' ->].
    cbn [find_header]. by rewrite Hl, Hc.
Qed.

End HeaderSearch.

(** X3 at a file with a title line before the header. *)
Lemma find_header_first_accepted_witness :
  find_header 0 None ["Tree likelihoods"; "Tree  Length  -lnL"; "1 12 99.5"]
  = (Some 1, Some 2).
Proof.
  apply find_header_first_accepted.
  exists ["Tree likelihoods"], "Tree  Length  -lnL", ["1 12 99.5"].
  repeat split; try reflexivity.
  constructor; [right; reflexivity | constructor].
Defined.

(** ** The constrained search, further *)

Section ConstrainedSearch.
Context `{Externals}.

(** X4. A constrained search on no taxa, or on as many taxa as the
    alignment has, returns neither tree nor likelihood and leaves the
    working directory and the list of scripts run as they were.  A run
    of the engine that fails (non-zero exit, timeout, no start) returns
    neither tree nor likelihood, whatever score file is in the
    directory.  A returned tree file name is that of the branch, it
    names a non-empty file of the directory, and the likelihood returned
    with it is the one parsed from the score file of the branch. *)
Theorem constrained_search_outcomes (self : self_state)
    (clade_taxa_names : list string) (tree_idx : nat) (w : world) :
  let r := _generate_and_score_constraint_tree self clade_taxa_names
             tree_idx w in
  (clade_taxa_names = []
   \/ length clade_taxa_names = length (alignment_ids self) ->
   r = ((None, None), w))
  /\ (forall e,
        clade_taxa_names <> [] ->
        length clade_taxa_names <> length (alignment_ids self) ->
        fst (_run_paup_command_file (constr_cmd_fn tree_idx)
               (constr_log_fn tree_idx) (PyInt 600)
               (write_text (constr_cmd_fn tree_idx)
                  (paup_script
                     (constraint_script_cmds self
                        (map _format_taxon_for_paup clade_taxa_names)
                        tree_idx)) w)) = Raise e ->
        fst r = (None, None))
  /\ (forall fn, fst (fst r) = Some fn ->
        fn = constr_tree_fn tree_idx
        /\ exists_nonempty fn (snd r) = true
        /\ snd (fst r)
           = _parse_likelihood_from_score_file (constr_score_fn tree_idx)
               (snd r)).
Proof.
  intros r. subst r. unfold _generate_and_score_constraint_tree.
  split; [| split].
  - intros [-> | Hlen]; [reflexivity |].
    destruct clade_taxa_names as [|t ts]; [reflexivity |].
    apply Nat.eqb_eq in Hlen. cbn [map]. by rewrite Hlen.
  - intros e Hne Hlen Hrun.
    destruct clade_taxa_names as [|t ts]; [done |].
    apply Nat.eqb_neq in Hlen. cbn [map] in *. rewrite Hlen.
    destruct (_run_paup_command_file _ _ _ _) as [[cp|e'] w2];
      [discriminate | reflexivity].
  - intros fn.
    destruct clade_taxa_names as [|t ts]; [discriminate |]. cbn [map].
    destruct (length (t :: ts) =? length (alignment_ids self));
      [discriminate |].
    destruct (_run_paup_command_file _ _ _ _) as [[cp|e'] w2];
      [| discriminate].
    destruct (exists_nonempty (constr_tree_fn tree_idx) w2) eqn:Etree.
    + simpl. intros [= <-]. by repeat split.
    + destruct (_parse_likelihood_from_score_file (constr_score_fn tree_idx) w2);
        [discriminate |].
      destruct (files w2 !! constr_log_fn tree_idx); [| discriminate].
      by destruct (lnl_from_log lnl_log_patterns _).
Qed.

End ConstrainedSearch.

(** X4 at a clade that holds all five taxa of the alignment. *)
Lemma constrained_search_outcomes_witness :
  fst (_generate_and_score_constraint_tree
         (H := Fixtures.externals_of Fixtures.partial_table)
         Fixtures.five_taxa_self ["A"; "B"; "C"; "D"; "E"] 1
         Fixtures.empty_world)
  = (None, None).
Proof.
  destruct (constrained_search_outcomes
              (H := Fixtures.externals_of Fixtures.partial_table)
              Fixtures.five_taxa_self ["A"; "B"; "C"; "D"; "E"] 1
              Fixtures.empty_world) as [Hall _].
  rewrite Hall; [reflexivity | by right].
Defined.

(** ** The decay computation, further *)

Section DecayFurther.
Context `{Externals}.

Lemma branch_loop_all_trivial (self : self_state) (total : nat)
    (cl : list clade) (i : nat) (st : loop_state) :
  Forall (fun c => trivial_branch (length (clade_taxa c)) total = true) cl ->
  branch_loop self total i cl st = st.
Proof.
  intros Hall. revert i. induction Hall as [|c cl Hc _ IH]; intros i; simpl.
  - reflexivity.
  - unfold branch_step. rewrite Hc. apply IH.
Qed.

Lemma trivial_branch_few_taxa (n total : nat) :
  total <= 3 -> trivial_branch n total = true.
Proof.
  intros Hfew. destruct (trivial_branch n total) eqn:E; [reflexivity |].
  apply trivial_branch_false in E. lia.
Qed.

(** X5. Without an optimum likelihood the decay computation returns an
    empty result and changes nothing.  On an optimum tree with at most
    three taxa no branch passes the size test: the result is empty, the
    working directory is left as it was and the engine is never run. *)
Theorem decay_indices_nothing_to_test (perform : bool) (self : self_state)
    (w : world) (tree : clade) :
  ml_tree self = Some tree ->
  (ml_likelihood self = None ->
   calculate_decay_indices perform self w = ([], self, w))
  /\ (length (get_terminals tree) <= 3 ->
      fst (fst (calculate_decay_indices perform self w)) = []
      /\ snd (calculate_decay_indices perform self w) = w).
Proof.
  intros Htree. unfold calculate_decay_indices, decay_from_optimum.
  rewrite Htree. split.
  - by intros ->.
  - intros Hfew. destruct (ml_likelihood self) as [ml|]; [| done].
    destruct (get_nonterminals tree) as [|c0 cl] eqn:Ecl; [done |].
    unfold run_branch_loop. rewrite branch_loop_all_trivial; [done |].
    apply Forall_forall. intros c _. by apply trivial_branch_few_taxa.
Qed.

End DecayFurther.

(** X5 at a tree with three taxa. *)
Lemma decay_indices_nothing_to_test_witness :
  fst (fst (calculate_decay_indices
              (H := Fixtures.externals_of Fixtures.partial_table) true
              (Fixtures.self_of ["A"; "B"; "C"]
                 (Some (Clade EmptyString
                          [Fixtures.clade_AB; Fixtures.leaf "C"]))
                 (Some 1000%float))
              Fixtures.empty_world)) = []
  /\ snd (calculate_decay_indices
            (H := Fixtures.externals_of Fixtures.partial_table) true
            (Fixtures.self_of ["A"; "B"; "C"]
               (Some (Clade EmptyString
                        [Fixtures.clade_AB; Fixtures.leaf "C"]))
               (Some 1000%float))
            Fixtures.empty_world) = Fixtures.empty_world.
Proof.
  apply (decay_indices_nothing_to_test
           (H := Fixtures.externals_of Fixtures.partial_table) true
           (Fixtures.self_of ["A"; "B"; "C"]
              (Some (Clade EmptyString [Fixtures.clade_AB; Fixtures.leaf "C"]))
              (Some 1000%float))
           Fixtures.empty_world
           (Clade EmptyString [Fixtures.clade_AB; Fixtures.leaf "C"])
           eq_refl).
  vm_compute. lia.
Defined.

Section DecayShape.
Context `{Externals}.

Lemma dict_set_In {V : Type} (k k' : string) (v v' : V) (d : PyDict.t V) :
  In (k', v') (PyDict.set k v d) -> (k', v') = (k, v) \/ In (k', v') d.
Proof.
  induction d as [|[k0 v0] d IH]; simpl.
  - intros [E | []]. left. done.
  - destruct (String.eqb_spec k k0) as [-> | Hne]; simpl.
    + intros [E | Hin]; [left; done | right; by right].
    + intros [E | Hin]; [right; by left |].
      destruct (IH Hin) as [E | Hin']; [by left | right; by right].
Qed.

Lemma branch_step_indexed (self : self_state) (total i : nat) (c : clade)
    (st : loop_state) :
  indexed st -> indexed (branch_step self total i c st).
Proof.
  intros [Hhead Hidx]. rewrite branch_step_spec.
  destruct (stored_info self total i c st) as [info|] eqn:Einfo.
  - assert (Hfields : ci_paup_tree_index info
                      = length (all_tree_files_rel st ++ [ci_tree_filename info])).
    { unfold stored_info in Einfo.
      destruct (trivial_branch _ _); [discriminate |].
      destruct (fst (fst (search_of self i c st))) as [fn|]; [| discriminate].
      destruct (PyStr.truthy fn); [| discriminate].
      by injection Einfo as <-. }
    assert (Hlen : 1 <= length (all_tree_files_rel st)).
    { destruct (all_tree_files_rel st); [discriminate | simpl; lia]. }
    split; simpl.
    + destruct (all_tree_files_rel st); [discriminate | done].
    + intros cid info' Hin. rewrite length_app. simpl.
      apply dict_set_In in Hin as [E | Hin].
      * injection E as -> ->. rewrite Hfields, length_app. simpl.
        split; [lia |].
        replace (length (all_tree_files_rel st) + 1 - 1)
          with (length (all_tree_files_rel st) + 0) by lia.
        by rewrite lookup_app_r, Nat.add_0_r, Nat.sub_diag by lia.
      * destruct (Hidx cid info' Hin) as [Hb Hl]. split; [lia |].
        rewrite lookup_app_l by lia. exact Hl.
  - by destruct (trivial_branch _ _).
Qed.

Lemma branch_loop_indexed (self : self_state) (total : nat) (cl : list clade)
    (i : nat) (st : loop_state) :
  indexed st -> indexed (branch_loop self total i cl st).
Proof.
  revert i st. induction cl as [|c cl IH]; intros i st Hst; simpl; [done |].
  by apply IH, branch_step_indexed.
Qed.

(** X6. After the branch loop, the list of tree files handed to the
    joint test starts with the optimum tree file, and the tree index
    stored for every branch is at least 2 and is the 1-based position of
    the tree file of the branch in that list. *)
Theorem tree_index_is_position (self : self_state) (tree : clade) (w : world) :
  let st := run_branch_loop self tree w in
  head (all_tree_files_rel st) = Some ML_TREE_FN
  /\ forall cid info,
       PyDict.get cid (constraint_info_map st) = Some info ->
       2 <= ci_paup_tree_index info
       /\ all_tree_files_rel st !! (ci_paup_tree_index info - 1)
          = Some (ci_tree_filename info).
Proof.
  intros st.
  assert (Hinv : indexed st).
  { apply branch_loop_indexed. split; [reflexivity | intros ? ? []]. }
  destruct Hinv as [Hhead Hidx]. split; [exact Hhead |].
  intros cid info Hget. apply dict_get_In in Hget.
  destruct (Hidx cid info Hget) as [Hb Hl]. split; [lia | exact Hl].
Qed.

(** The keys the loop adds are those of increasing positions. *)
Lemma branch_loop_keys (self : self_state) (total : nat) (cl : list clade)
    (i0 : nat) (st : loop_state) :
  (forall j, i0 <= j ->
     PyDict.get (clade_id_of (j + 1)) (constraint_info_map st) = None) ->
  exists ks,
    PyDict.keys (constraint_info_map (branch_loop self total i0 cl st))
    = PyDict.keys (constraint_info_map st)
      ++ map (fun k => clade_id_of (k + 1)) ks
    /\ StronglySorted lt ks
    /\ Forall (fun k => i0 <= k) ks.
Proof.
  revert i0 st. induction cl as [|c cl IH]; intros i0 st Hfresh; simpl.
  - exists []. rewrite app_nil_r. repeat split; constructor.
  - destruct (IH (S i0) (branch_step self total i0 c st)) as (ks & Hk & Hs & Hge).
    { intros j Hj. rewrite branch_step_get_other by lia. apply Hfresh. lia. }
    rewrite Hk. rewrite branch_step_spec.
    destruct (stored_info self total i0 c st) as [info|].
    + exists (i0 :: ks). simpl constraint_info_map.
      rewrite dict_set_fresh by (apply dict_get_None, Hfresh; lia).
      unfold PyDict.keys. rewrite map_app. simpl. rewrite <- app_assoc.
      split; [reflexivity |]. split.
      * constructor; [done |]. eapply Forall_impl; [exact Hge |].
        simpl. intros; lia.
      * constructor; [lia |]. eapply Forall_impl; [exact Hge |].
        simpl. intros; lia.
    + exists ks. split.
      * by destruct (trivial_branch _ _).
      * split; [done |]. eapply Forall_impl; [exact Hge |]. simpl. intros; lia.
Qed.

(** The result of a run that starts from a known optimum: one initial
    record for every entry of a dictionary that has the keys of the one
    left by the branch loop, in the same order. *)
Lemma decay_run_shape (perform : bool) (self : self_state) (w : world)
    (tree : clade) (ml : float) :
  ml_tree self = Some tree ->
  ml_likelihood self = Some ml ->
  exists cmap,
    fst (fst (calculate_decay_indices perform self w))
    = map (fun kv => (fst kv, initial_record (snd kv))) cmap
    /\ PyDict.keys cmap
       = PyDict.keys (constraint_info_map (run_branch_loop self tree w)).
Proof.
  intros Htree Hml.
  unfold calculate_decay_indices, decay_from_optimum. rewrite Htree, Hml.
  destruct (get_nonterminals tree) as [|c0 cl] eqn:Ecl.
  { exists []. unfold run_branch_loop. by rewrite Ecl. }
  clear c0 cl Ecl.
  pose proof (branch_loop_NoDup self (length (get_terminals tree))
                (get_nonterminals tree) 0 (loop_start w)
                (NoDup_nil_2 : NoDup (PyDict.keys (constraint_info_map (loop_start w)))))
    as Hnd.
  pose proof (branch_loop_trees self (length (get_terminals tree))
                (get_nonterminals tree) 0 (loop_start w)) as Hcov.
  fold (run_branch_loop self tree w) in Hnd, Hcov.
  destruct (constraint_info_map (run_branch_loop self tree w))
    as [|e0 cmap0] eqn:Ecm.
  { exists []. done. }
  rewrite <- Ecm in *.
  set (st := run_branch_loop self tree w) in *.
  destruct (site_phase perform self (constraint_info_map st) (loop_world st))
    as [cmap w1] eqn:Esite.
  assert (Hlen : 2 <= length (all_tree_files_rel st)).
  { destruct Hcov as [_ Hcov]; [split; simpl; [lia | done] |].
    apply Hcov. by rewrite Ecm. }
  pose proof (run_au_test_many self (all_tree_files_rel st) w1 Hlen) as Hau.
  destruct (run_au_test self (all_tree_files_rel st) w1) as [au w2].
  simpl in Hau. subst au.
  assert (Hkeys : PyDict.keys cmap = PyDict.keys (constraint_info_map st)).
  { pose proof (site_phase_keys self perform (constraint_info_map st)
                  (loop_world st)) as Hk. by rewrite Esite in Hk. }
  exists cmap. unfold finalize. simpl. split; [| exact Hkeys].
  apply populate_map. by rewrite Hkeys.
Qed.

(** X7. In a run that starts from a known optimum, the records of the
    result come in the order of the branches: the keys are Clade_(k+1)
    for strictly increasing positions k of internal clades, and the
    record of position k lists the leaf names of that clade, which are
    between 2 and (total taxa - 2) in number. *)
Theorem decay_records_in_branch_order (perform : bool) (self : self_state)
    (w : world) (tree : clade) (ml : float) :
  ml_tree self = Some tree ->
  ml_likelihood self = Some ml ->
  let d := fst (fst (calculate_decay_indices perform self w)) in
  exists ks,
    PyDict.keys d = map (fun k => clade_id_of (k + 1)) ks
    /\ StronglySorted lt ks
    /\ forall k, In k ks ->
         exists c r,
           get_nonterminals tree !! k = Some c
           /\ PyDict.get (clade_id_of (k + 1)) d = Some r
           /\ taxa r = clade_taxa c
           /\ 2 <= length (taxa r) <= length (get_terminals tree) - 2.
Proof.
  intros Htree Hml d.
  destruct (decay_run_shape perform self w tree ml Htree Hml)
    as (cmap & Hd & Hkeys).
  fold d in Hd.
  destruct (branch_loop_keys self (length (get_terminals tree))
              (get_nonterminals tree) 0 (loop_start w))
    as (ks & Hks & Hsorted & _).
  { intros j _. reflexivity. }
  fold (run_branch_loop self tree w) in Hks. simpl in Hks.
  exists ks. split; [| split; [exact Hsorted |]].
  - by rewrite Hd, dict_keys_map, Hkeys, Hks.
  - intros k Hk.
    destruct (decay_run_records perform self w tree ml Htree Hml) as [_ Hrec].
    specialize (Hrec k). fold d in Hrec.
    assert (Hin : clade_id_of (k + 1) ∈ PyDict.keys d).
    { rewrite Hd, dict_keys_map, Hkeys, Hks.
      apply list_elem_of_In, in_map_iff. by exists k. }
    destruct (PyDict.get (clade_id_of (k + 1)) d) as [r|] eqn:Er.
    2:{ apply dict_get_None in Er. done. }
    unfold stored_at in Hrec.
    destruct (get_nonterminals tree !! k) as [c|]; [| discriminate].
    destruct (stored_info self (length (get_terminals tree)) k c
                (state_before self tree w k)) as [info|] eqn:Einfo;
      [| discriminate].
    destruct (stored_info_fields _ _ _ _ _ _ Einfo) as (Htaxa & _ & _).
    assert (Hsome : is_Some (stored_info self (length (get_terminals tree)) k c
                               (state_before self tree w k)))
      by (rewrite Einfo; by eexists).
    apply stored_info_Some in Hsome as [Htriv _].
    apply trivial_branch_false in Htriv.
    simpl in Hrec. unfold record_summary, info_summary in Hrec.
    injection Hrec as Ht _ _ _ _.
    exists c, r. rewrite Ht, Htaxa. repeat split; first [done | lia].
Qed.

(** X8. In a run that starts from a known optimum, no record of the
    result carries a p-value or a significance flag: the joint test over
    the optimum tree and the constrained trees never yields a result. *)
Theorem decay_records_lack_pvalues (perform : bool) (self : self_state)
    (w : world) (tree : clade) (ml : float) (cid : string) (r : decay_record) :
  ml_tree self = Some tree ->
  ml_likelihood self = Some ml ->
  PyDict.get cid (fst (fst (calculate_decay_indices perform self w))) = Some r ->
  AU_pvalue r = None /\ significant_AU r = None.
Proof.
  intros Htree Hml Hget.
  destruct (decay_run_shape perform self w tree ml Htree Hml)
    as (cmap & Hd & _).
  rewrite Hd, dict_get_map in Hget.
  destruct (PyDict.get cid cmap) as [cdata|]; [| discriminate].
  injection Hget as <-. done.
Qed.

End DecayShape.

(** X7 at the five-taxon run. *)
Lemma decay_records_in_branch_order_witness :
  exists ks,
    PyDict.keys
      (fst (fst (calculate_decay_indices
                   (H := Fixtures.externals_of Fixtures.partial_table) false
                   Fixtures.five_taxa_self Fixtures.empty_world)))
    = map (fun k => clade_id_of (k + 1)) ks
    /\ StronglySorted lt ks.
Proof.
  destruct (decay_records_in_branch_order
              (H := Fixtures.externals_of Fixtures.partial_table) false
              Fixtures.five_taxa_self Fixtures.empty_world
              Fixtures.five_taxa 1000%float eq_refl eq_refl)
    as (ks & Hkeys & Hsorted & _).
  exists ks. by split.
Defined.

(** X8 at branch 2 of the five-taxon run. *)
Lemma decay_records_lack_pvalues_witness :
  exists r,
    PyDict.get "Clade_2"
      (fst (fst (calculate_decay_indices
                   (H := Fixtures.externals_of Fixtures.partial_table) false
                   Fixtures.five_taxa_self Fixtures.empty_world))) = Some r
    /\ AU_pvalue r = None /\ significant_AU r = None.
Proof.
  eexists. split; [vm_compute; reflexivity |].
  apply (decay_records_lack_pvalues
           (H := Fixtures.externals_of Fixtures.partial_table) false
           Fixtures.five_taxa_self Fixtures.empty_world
           Fixtures.five_taxa 1000%float "Clade_2");
    vm_compute; reflexivity.
Defined.

(** ** The joint-test pass over the records *)

Section JointPass.

Lemma dict_values_set {V : Type} (P : V -> Prop) (k : string) (v : V)
    (d : PyDict.t V) :
  P v -> Forall (fun kv => P (snd kv)) d ->
  Forall (fun kv => P (snd kv)) (PyDict.set k v d).
Proof.
  intros Hv Hd. induction Hd as [|[k0 v0] d H0 Hd IH]; simpl.
  - by constructor.
  - destruct (String.eqb k k0); constructor; simpl in *; auto.
Qed.

Lemma dict_values_alter {V : Type} (P : V -> Prop) (f : V -> V) (k : string)
    (d : PyDict.t V) :
  (forall v, P v -> P (f v)) -> Forall (fun kv => P (snd kv)) d ->
  Forall (fun kv => P (snd kv)) (PyDict.alter f k d).
Proof.
  intros Hf Hd. induction Hd as [|[k0 v0] d H0 Hd IH]; simpl.
  - constructor.
  - destruct (String.eqb k k0); constructor; simpl in *; auto.
Qed.

Lemma dict_values_get {V : Type} (P : V -> Prop) (k : string) (v : V)
    (d : PyDict.t V) :
  Forall (fun kv => P (snd kv)) d -> PyDict.get k d = Some v -> P v.
Proof.
  intros Hd Hg. apply dict_get_In in Hg.
  rewrite Forall_forall in Hd. by apply (Hd (k, v)), list_elem_of_In.
Qed.

Lemma populate_values (P : decay_record -> Prop)
    (cmap : PyDict.t constraint_info) :
  Forall (fun kv => P (initial_record (snd kv))) cmap ->
  Forall (fun kv => P (snd kv)) (populate cmap).
Proof.
  unfold populate. intros Hc.
  assert (Hgen : forall acc,
             Forall (fun kv => P (snd kv)) acc ->
             Forall (fun kv => P (snd kv))
               (fold_left
                  (fun d item => PyDict.set (fst item) (initial_record (snd item)) d)
                  cmap acc)).
  { induction Hc as [|[k c] cmap Hk Hc IH]; intros acc Hacc; simpl; [done |].
    apply IH. by apply dict_values_set. }
  apply Hgen. constructor.
Qed.

Lemma au_update_record_agrees (e : au_entry) (m : float) (r : decay_record) :
  diff_agrees m r -> diff_agrees m (au_update_record e (Some m) r).
Proof.
  intros Hr c. unfold au_update_record.
  destruct (match constrained_lnl r with
            | Some current => PyFloat.gt (abs (current - au_lnL e)) 0.001
            | None => true
            end); simpl.
  - by intros [= <-].
  - apply Hr.
Qed.

Lemma recalc_diff_agrees (m : float) (r : decay_record) :
  diff_agrees m (recalc_diff m r).
Proof.
  unfold recalc_diff, diff_agrees.
  destruct (constrained_lnl r) as [c|] eqn:E; simpl.
  - by intros c' [= <-].
  - rewrite E. discriminate.
Qed.

(** X9. Whatever the joint test returns, the last phase keeps every
    difference in step with the likelihoods it stores: when the
    differences of the branch loop are constrained minus optimum, the
    phase ends with an optimum likelihood and, in every record that has
    a constrained likelihood, with a difference equal to that
    constrained likelihood minus that final optimum (the very float of
    the subtraction), also after the test overwrote either of them. *)
Theorem finalize_differences_agree (cmap : PyDict.t constraint_info)
    (au : option (gmap Z au_entry)) (ml : float) :
  Forall (fun kv => diff_agrees ml (initial_record (snd kv))) cmap ->
  exists ml',
    fst (finalize cmap au (Some ml)) = Some ml'
    /\ forall cid r,
         PyDict.get cid (snd (finalize cmap au (Some ml))) = Some r ->
         diff_agrees ml' r.
Proof.
  intros Hc. pose proof (populate_values (diff_agrees ml) cmap Hc) as Hpop.
  unfold finalize. destruct (au_truthy au) as [res|].
  - assert (Hml : exists ml',
               fst (au_update_ml res (Some ml) (populate cmap)) = Some ml'
               /\ Forall (fun kv => diff_agrees ml' (snd kv))
                    (snd (au_update_ml res (Some ml) (populate cmap)))).
    { unfold au_update_ml. destruct (res !! 1%Z) as [e|].
      - destruct (PyFloat.gt (abs (au_lnL e - ml)) 0.001).
        + exists (au_lnL e). split; [reflexivity |]. simpl.
          apply Forall_map, Forall_forall. intros kv _. simpl.
          apply recalc_diff_agrees.
        + by exists ml.
      - by exists ml. }
    destruct (au_update_ml res (Some ml) (populate cmap)) as [mlo d1].
    destruct Hml as (ml' & Hm & Hd1). simpl in Hm, Hd1. subst mlo.
    exists ml'. split; [reflexivity |]. simpl.
    assert (Hfold : forall items d,
               Forall (fun kv => diff_agrees ml' (snd kv)) d ->
               Forall (fun kv => diff_agrees ml' (snd kv))
                 (fold_left (au_step res (Some ml')) items d)).
    { induction items as [|item items IH]; intros d Hd; simpl; [done |].
      apply IH. unfold au_step.
      destruct (res !! Z.of_nat (ci_paup_tree_index (snd item))) as [e|];
        [| done].
      apply dict_values_alter; [| done].
      intros r. apply au_update_record_agrees. }
    intros cid r Hg.
    exact (dict_values_get _ _ _ _ (Hfold cmap d1 Hd1) Hg).
  - exists ml. split; [reflexivity |]. simpl.
    intros cid r Hg. exact (dict_values_get _ _ _ _ Hpop Hg).
Qed.

End JointPass.

(** X9 at one branch and a test that scores the constrained tree
    differently. *)
Lemma finalize_differences_agree_witness :
  exists ml',
    fst (finalize Fixtures.one_branch_map
           (Some {[ 2%Z := AUEntry 1006%float (Some 0.01%float) ]})
           (Some 1000%float)) = Some ml'
    /\ forall cid r,
         PyDict.get cid
           (snd (finalize Fixtures.one_branch_map
                   (Some {[ 2%Z := AUEntry 1006%float (Some 0.01%float) ]})
                   (Some 1000%float))) = Some r ->
         forall c, constrained_lnl r = Some c ->
                   lnl_diff r = Some (c - ml')%float.
Proof.
  apply (finalize_differences_agree Fixtures.one_branch_map
           (Some {[ 2%Z := AUEntry 1006%float (Some 0.01%float) ]})
           1000%float).
  constructor; [| constructor].
  intros c. simpl. intros [= <-]. reflexivity.
Defined.

Section JointPassValues.

Lemma dict_In_get {V : Type} (k : string) (v : V) (d : PyDict.t V) :
  NoDup (PyDict.keys d) -> In (k, v) d -> PyDict.get k d = Some v.
Proof.
  unfold PyDict.keys. induction d as [|[k0 v0] d IH]; simpl; [done |].
  intros Hnd [E | Hin].
  - injection E as -> ->. by rewrite String.eqb_refl.
  - apply NoDup_cons in Hnd as [Hk Hnd].
    destruct (String.eqb_spec k k0) as [-> | Hne]; [| by apply IH].
    exfalso. apply Hk, list_elem_of_In, in_map_iff. by exists (k0, v).
Qed.

(** What the loop that attaches the results leaves under a key, when the
    keys of the branches are distinct. *)
Lemma au_fold_get (res : gmap Z au_entry) (ml : option float)
    (items : PyDict.t constraint_info) (d : PyDict.t decay_record)
    (cid : string) :
  NoDup (PyDict.keys items) ->
  PyDict.get cid (fold_left (au_step res ml) items d)
  = match PyDict.get cid items with
    | Some cdata =>
        match res !! Z.of_nat (ci_paup_tree_index cdata) with
        | Some e => au_update_record e ml <$> PyDict.get cid d
        | None => PyDict.get cid d
        end
    | None => PyDict.get cid d
    end.
Proof.
  revert d. induction items as [|[k0 c0] items IH]; intros d Hnd; simpl;
    [reflexivity |].
  change (PyDict.keys ((k0, c0) :: items)) with (k0 :: PyDict.keys items) in Hnd.
  apply NoDup_cons in Hnd as [Hk Hnd]. rewrite IH by done.
  destruct (String.eqb_spec cid k0) as [-> | Hne].
  - apply dict_get_None in Hk. rewrite Hk. unfold au_step. simpl.
    destruct (res !! Z.of_nat (ci_paup_tree_index c0)); [| reflexivity].
    by rewrite dict_get_alter, String.eqb_refl.
  - assert (Hsame : PyDict.get cid (au_step res ml d (k0, c0))
                    = PyDict.get cid d).
    { unfold au_step. simpl.
      destruct (res !! Z.of_nat (ci_paup_tree_index c0)); [| reflexivity].
      rewrite dict_get_alter. apply String.eqb_neq in Hne. by rewrite Hne. }
    by rewrite Hsame.
Qed.

Lemma au_update_ml_get (res : gmap Z au_entry) (ml : option float)
    (d : PyDict.t decay_record) (cid : string) (r : decay_record) :
  PyDict.get cid (snd (au_update_ml res ml d)) = Some r ->
  exists r0, PyDict.get cid d = Some r0
             /\ AU_pvalue r = AU_pvalue r0
             /\ significant_AU r = significant_AU r0.
Proof.
  unfold au_update_ml.
  destruct (res !! 1%Z) as [e|], ml as [m|]; simpl; try (by eexists).
  destruct (PyFloat.gt (abs (au_lnL e - m)) 0.001); simpl; [| by eexists].
  rewrite dict_get_map. destruct (PyDict.get cid d) as [r0|]; [| discriminate].
  simpl. intros [= <-]. exists r0. split; [reflexivity |].
  unfold recalc_diff. by destruct (constrained_lnl r0).
Qed.

Lemma au_update_ml_has (res : gmap Z au_entry) (ml : option float)
    (d : PyDict.t decay_record) (cid : string) :
  is_Some (PyDict.get cid d) ->
  is_Some (PyDict.get cid (snd (au_update_ml res ml d))).
Proof.
  intros [r0 Hr0]. unfold au_update_ml.
  destruct (res !! 1%Z) as [e|], ml as [m|]; simpl; try (by eexists).
  destruct (PyFloat.gt (abs (au_lnL e - m)) 0.001); simpl; [| by eexists].
  rewrite dict_get_map, Hr0. by eexists.
Qed.

(** X10. When the joint test returns data and the keys of the branches
    are distinct, every branch has a record after the last phase; its
    p-value is the one the test gives for the tree index of the branch
    (none when the test has no entry for that index), and its
    significance flag is present exactly when the p-value is, and says
    whether the p-value is below 0.05. *)
Theorem finalize_attaches_pvalues (cmap : PyDict.t constraint_info)
    (au : option (gmap Z au_entry)) (res : gmap Z au_entry)
    (ml : option float) (cid : string) (cdata : constraint_info) :
  NoDup (PyDict.keys cmap) ->
  au_truthy au = Some res ->
  In (cid, cdata) cmap ->
  exists r,
    PyDict.get cid (snd (finalize cmap au ml)) = Some r
    /\ AU_pvalue r
       = (res !! Z.of_nat (ci_paup_tree_index cdata)) ≫= au_AU_pvalue
    /\ significant_AU r
       = (fun p => PyFloat.lt p 0.05%float) <$> AU_pvalue r.
Proof.
  intros Hnd Hres Hin. unfold finalize. rewrite Hres.
  pose proof (dict_In_get cid cdata cmap Hnd Hin) as Hget.
  assert (Hpop : PyDict.get cid (populate cmap) = Some (initial_record cdata)).
  { rewrite populate_map by done. by rewrite dict_get_map, Hget. }
  pose proof (au_update_ml_has res ml (populate cmap) cid) as Hhas.
  pose proof (au_update_ml_get res ml (populate cmap) cid) as Hml.
  destruct (au_update_ml res ml (populate cmap)) as [ml' d1]. simpl in *.
  destruct Hhas as [r1 Hr1]; [rewrite Hpop; by eexists |].
  destruct (Hml r1 Hr1) as (r0 & Hr0 & Hp & Hs).
  rewrite Hpop in Hr0. injection Hr0 as <-. simpl in Hp, Hs.
  rewrite au_fold_get by done. rewrite Hget, Hr1.
  destruct (res !! Z.of_nat (ci_paup_tree_index cdata)) as [e|]; simpl.
  - eexists. split; [reflexivity |].
    unfold au_update_record.
    destruct (match constrained_lnl r1 with
              | Some current => PyFloat.gt (abs (current - au_lnL e)) 0.001
              | None => true
              end); simpl; (split; [reflexivity |]);
      destruct (au_AU_pvalue e); simpl; congruence.
  - exists r1. split; [reflexivity |]. by rewrite Hp, Hs.
Qed.

End JointPassValues.

(** X10 at one branch whose tree gets the p-value 0.01. *)
Lemma finalize_attaches_pvalues_witness :
  exists r,
    PyDict.get "Clade_2"
      (snd (finalize Fixtures.one_branch_map
              (Some {[ 2%Z := AUEntry 1005.2%float (Some 0.01%float) ]})
              (Some 1000%float))) = Some r
    /\ AU_pvalue r = Some 0.01%float
    /\ significant_AU r = Some true.
Proof.
  destruct (finalize_attaches_pvalues Fixtures.one_branch_map
              (Some {[ 2%Z := AUEntry 1005.2%float (Some 0.01%float) ]})
              {[ 2%Z := AUEntry 1005.2%float (Some 0.01%float) ]}
              (Some 1000%float) "Clade_2"
              (ConstraintInfo ["A"; "B"] 2 (Some 1005.2%float)
                 (Some (1005.2 - 1000)%float) "constraint_tree_2.tre" None))
    as (r & Hget & Hp & Hs).
  - repeat constructor. apply not_elem_of_nil.
  - reflexivity.
  - by left.
  - exists r. split; [exact Hget |].
    assert (Hp' : AU_pvalue r = Some 0.01%float) by (rewrite Hp; reflexivity).
    split; [exact Hp' |]. rewrite Hs, Hp'. reflexivity.
Defined.

(** ** The optimum tree *)

Section Optimum.
Context `{Externals}.

Lemma text_after_cleaned (content : string) :
  text_after_semicolon (before_semicolon content +:+ ";") = false.
Proof.
  induction content as [|a content IH]; simpl; [reflexivity |].
  destruct (Ascii.eqb a ";") eqn:Ea; simpl; [reflexivity |].
  by rewrite Ea, IH.
Qed.

Lemma text_after_split (content : string) :
  text_after_semicolon content = true ->
  exists rest,
    rest <> EmptyString
    /\ content = before_semicolon content +:+ ";" +:+ rest.
Proof.
  induction content as [|a content IH]; simpl; [discriminate |].
  destruct (Ascii.eqb_spec a ";") as [-> | Hne]; simpl.
  - intros Hrest. exists content. split; [| reflexivity].
    destruct content; [discriminate | done].
  - intros Hrest. destruct (IH Hrest) as (rest & Hne' & Heq).
    exists rest. split; [done |].
    change (String a content
            = String a (before_semicolon content +:+ ";" +:+ rest)).
    by rewrite <- Heq.
Qed.

Lemma cleaned_path_differs (tree_path : string) :
  tree_path +:+ ".cleaned" <> tree_path.
Proof.
  intros E. apply (f_equal String.length) in E.
  rewrite string_length_app in E. simpl in E. lia.
Qed.

(** Text follows a semicolon when some semicolon is followed by at least
    one character, whatever the character is. *)
Lemma text_after_iff (content : string) :
  text_after_semicolon content = true
  <-> exists body c rest, content = body +:+ ";" +:+ String c rest.
Proof.
  split.
  - intros Htext. destruct (text_after_split content Htext)
      as (rest & Hne & Heq).
    destruct rest as [|c rest]; [done |].
    by exists (before_semicolon content), c, rest.
  - intros (body & c & rest & ->).
    induction body as [|a body IH]; [reflexivity |].
    change (String a body +:+ ";" +:+ String c rest)
      with (String a (body +:+ ";" +:+ String c rest)).
    simpl. rewrite IH. apply orb_true_r.
Qed.

(** X11. Cleaning a tree file never changes the file itself.  Text
    follows a semicolon when some semicolon of the file is followed by
    at least one character of any kind, a blank or a line break
    included.  When no character follows a semicolon the file is used as
    it is and nothing is written; otherwise the text up to and including
    the first semicolon is written to a file with the suffix [.cleaned],
    which is returned and noted for deletion.  In both cases no
    character follows a semicolon in the file returned, so cleaning it
    again changes nothing. *)
Theorem clean_newick_tree_result (self : self_state) (tree_path : string)
    (w : world) (content : string) :
  files w !! tree_path = Some content ->
  let r := _clean_newick_tree self tree_path w in
  (text_after_semicolon content = true
   <-> exists body c rest, content = body +:+ ";" +:+ String c rest)
  /\ files (snd r) !! tree_path = Some content
  /\ invocations (snd r) = invocations w
  /\ ml_tree (snd (fst r)) = ml_tree self
  /\ (text_after_semicolon content = false ->
      r = (tree_path, self, w))
  /\ (text_after_semicolon content = true ->
      fst (fst r) = tree_path +:+ ".cleaned"
      /\ files_to_cleanup (snd (fst r))
         = files_to_cleanup self ++ [tree_path +:+ ".cleaned"]
      /\ exists rest,
           rest <> EmptyString
           /\ content = before_semicolon content +:+ ";" +:+ rest
           /\ files (snd r) !! (tree_path +:+ ".cleaned")
              = Some (before_semicolon content +:+ ";"))
  /\ exists cleaned,
       files (snd r) !! fst (fst r) = Some cleaned
       /\ text_after_semicolon cleaned = false.
Proof.
  intros Hfile r. split; [apply text_after_iff |].
  subst r. unfold _clean_newick_tree. rewrite Hfile.
  destruct (text_after_semicolon content) eqn:Etext; simpl.
  - repeat split; try done.
    + rewrite lookup_insert_ne by apply cleaned_path_differs. exact Hfile.
    + destruct (text_after_split content Etext) as (rest & Hne & Heq).
      exists rest. split; [done |]. split; [done |]. apply lookup_insert_eq.
    + exists (before_semicolon content +:+ ";").
      split; [apply lookup_insert_eq | apply text_after_cleaned].
  - repeat split; try done. by exists content.
Qed.

(** X12. Building the optimum tree hands one script to the engine.  When
    it returns normally the object has an optimum tree and the tree file
    of the optimum is a non-empty file of the working directory; when it
    raises, the optimum tree of the object is the one it had.  The
    alignment and the decay indices of the object are never touched. *)
Theorem build_ml_tree_result (self : self_state) (w : world) :
  let r := build_ml_tree self w in
  invocations (snd r) = invocations w ++ [ML_SEARCH_NEX_FN]
  /\ (fst (fst r) = Ok tt ->
      is_Some (ml_tree (snd (fst r)))
      /\ exists_nonempty ML_TREE_FN (snd r) = true)
  /\ (forall e, fst (fst r) = Raise e ->
        ml_tree (snd (fst r)) = ml_tree self)
  /\ alignment_ids (snd (fst r)) = alignment_ids self
  /\ decay_indices (snd (fst r)) = decay_indices self.
Proof.
  intros r. subst r. unfold build_ml_tree.
  set (w0 := match user_paup_block self, starting_tree self with
             | None, Some (Some start_content) =>
                 write_text "start_tree.tre" start_content w
             | _, _ => w
             end).
  assert (Hw0 : invocations w0 = invocations w).
  { subst w0. by destruct (user_paup_block self), (starting_tree self) as [[?|]|]. }
  pose proof (run_written_invocations ML_SEARCH_NEX_FN ML_LOG_FN
                (paup_script (ml_script_cmds self)) (PyInt 3600) w0) as Hrun.
  rewrite Hw0 in Hrun.
  destruct (_run_paup_command_file _ _ _ _) as [[cp|e] w2]; simpl in Hrun.
  2:{ simpl. repeat split; try done. }
  set (fallback := match _parse_likelihood_from_score_file ML_SCORE_FN w2 with
                   | Some _ => _
                   | None => _
                   end).
  destruct fallback as [lnl|e].
  2:{ simpl. repeat split; try done. }
  destruct (exists_nonempty ML_TREE_FN w2) eqn:Etree.
  2:{ simpl. repeat split; try done. }
  unfold _clean_newick_tree.
  destruct (files w2 !! ML_TREE_FN) as [content|] eqn:Econtent.
  2:{ unfold exists_nonempty in Etree. by rewrite Econtent in Etree. }
  destruct (text_after_semicolon content).
  - assert (Hl : files (write_text (ML_TREE_FN +:+ ".cleaned")
                          (before_semicolon content +:+ ";") w2)
                 !! (ML_TREE_FN +:+ ".cleaned")
                 = Some (before_semicolon content +:+ ";"))
      by apply lookup_insert_eq.
    rewrite Hl.
    destruct (phylo_read _) as [t|e]; simpl; repeat split; try done;
      try (by eexists).
    unfold exists_nonempty, write_text. simpl.
    rewrite lookup_insert_ne by apply cleaned_path_differs.
    unfold exists_nonempty in Etree. exact Etree.
  - rewrite Econtent.
    destruct (phylo_read _) as [t|e]; simpl; repeat split; try done;
      try (by eexists).
Qed.

End Optimum.

(** X11 at a tree file that ends in a semicolon and a line break: the
    line break is text after the semicolon, and the cleaned copy is
    written. *)
Lemma clean_newick_tree_result_witness :
  files
    (snd (_clean_newick_tree (Fixtures.self_of [] None None) "ml_tree.tre"
            (World {[ "ml_tree.tre" := "((A,B),C);" +:+ nl ]} [])))
  !! "ml_tree.tre.cleaned" = Some "((A,B),C);".
Proof.
  assert (Hf : files (World {[ "ml_tree.tre" := "((A,B),C);" +:+ nl ]} [])
               !! "ml_tree.tre" = Some ("((A,B),C);" +:+ nl))
    by (vm_compute; reflexivity).
  destruct (clean_newick_tree_result (Fixtures.self_of [] None None)
              "ml_tree.tre"
              (World {[ "ml_tree.tre" := "((A,B),C);" +:+ nl ]} [])
              ("((A,B),C);" +:+ nl) Hf)
    as (_ & _ & _ & _ & _ & Hclean & _).
  destruct (Hclean eq_refl) as (_ & _ & rest & _ & _ & Hfile).
  exact Hfile.
Defined.

(** ** The site data *)

Section SiteData.

Lemma sorted_le_NoDup_lt (l : list Z) :
  StronglySorted Z.le l -> NoDup l -> StronglySorted Z.lt l.
Proof.
  induction 1 as [|x l Hs IH Hall]; intros Hnd; constructor.
  - apply IH. by apply NoDup_cons in Hnd as [_ ?].
  - apply NoDup_cons in Hnd as [Hx _].
    rewrite Forall_forall in Hall. apply Forall_forall. intros y Hy.
    assert (x <> y) by (intros ->; done).
    specialize (Hall y Hy). lia.
Qed.

Lemma omap_keeps_keys {B : Type} (f : Z -> option (Z * B)) (l : list Z) :
  (forall s, s ∈ l -> exists b, f s = Some (s, b)) ->
  map fst (omap f l) = l.
Proof.
  induction l as [|s l IH]; intros Hf; simpl; [reflexivity |].
  destruct (Hf s) as [b Hb]; [by left |]. rewrite Hb. simpl. f_equal.
  apply IH. intros s' Hs'. apply Hf. by right.
Qed.

(** X13. The site data has one entry for every site that both trees
    have a likelihood for, and for no other site; the entries come in
    strictly increasing order of the site number; every entry holds the
    two likelihoods of its site, their difference (optimum minus
    constrained) and the flag saying whether the difference is below
    zero. *)
Theorem site_data_common_sites (tree1_lnl tree2_lnl : gmap Z float) :
  let sd := make_site_data tree1_lnl tree2_lnl in
  StronglySorted Z.lt (map fst sd)
  /\ (forall s, In s (map fst sd)
                <-> is_Some (tree1_lnl !! s) /\ is_Some (tree2_lnl !! s))
  /\ (forall s info, In (s, info) sd ->
        tree1_lnl !! s = Some (lnL_ML info)
        /\ tree2_lnl !! s = Some (lnL_constrained info)
        /\ delta_lnL info = (lnL_ML info - lnL_constrained info)%float
        /\ supports_branch info = PrimFloat.ltb (delta_lnL info) 0%float).
Proof.
  intros sd. subst sd. unfold make_site_data.
  set (sites := merge_sort Z.le (elements (dom tree1_lnl ∩ dom tree2_lnl))).
  assert (Hperm : sites ≡ₚ elements (dom tree1_lnl ∩ dom tree2_lnl))
    by apply merge_sort_Permutation.
  assert (Hmem : forall s, s ∈ sites
                           <-> is_Some (tree1_lnl !! s)
                               /\ is_Some (tree2_lnl !! s)).
  { intros s. rewrite Hperm, elem_of_elements, elem_of_intersection.
    by rewrite !elem_of_dom. }
  set (f := fun site_num : Z =>
              match tree1_lnl !! site_num, tree2_lnl !! site_num with
              | Some ml_lnl, Some constrained =>
                  Some (site_num,
                        SiteInfo ml_lnl constrained (ml_lnl - constrained)%float
                          (is_supporting (ml_lnl - constrained)%float))
              | _, _ => None
              end).
  assert (Hkeys : map fst (omap f sites) = sites).
  { apply omap_keeps_keys. intros s Hs. apply Hmem in Hs as [[a Ha] [b Hb]].
    subst f. simpl. rewrite Ha, Hb. by eexists. }
  split; [| split].
  - rewrite Hkeys. apply sorted_le_NoDup_lt.
    + apply StronglySorted_merge_sort; apply _.
    + rewrite Hperm. apply NoDup_elements.
  - intros s. rewrite Hkeys, <- list_elem_of_In. apply Hmem.
  - intros s info Hin. apply list_elem_of_In, list_elem_of_omap in Hin
      as (s' & _ & Hf).
    subst f. simpl in Hf.
    destruct (tree1_lnl !! s') as [a|] eqn:Ea; [| discriminate].
    destruct (tree2_lnl !! s') as [b|] eqn:Eb; [| discriminate].
    injection Hf as <- <-. simpl. by repeat split.
Qed.

Lemma ltb_zero_asym (d : float) :
  PrimFloat.ltb d 0%float = true -> PrimFloat.ltb 0%float d = false.
Proof.
  rewrite !FloatAxioms.ltb_spec, Prim2SF_zero.
  destruct (Prim2SF d) as [s|s| |s m e]; unfold SFltb, SFcompare;
    try discriminate; destruct s; try discriminate; reflexivity.
Qed.

Lemma counts_disjoint (deltas : list float) :
  count_if is_supporting deltas + count_if is_conflicting deltas
  <= length deltas.
Proof.
  induction deltas as [|d deltas IH]; [done |].
  rewrite !count_if_cons. simpl length.
  unfold is_supporting at 1, is_conflicting at 1, PyFloat.lt, PyFloat.gt.
  destruct (PrimFloat.ltb d 0%float) eqn:E.
  - rewrite (ltb_zero_asym d E). lia.
  - destruct (PrimFloat.ltb 0%float d); lia.
Qed.

(** X14. No site is counted both as supporting and as conflicting: the
    two counts together never exceed the number of deltas, the neutral
    count never exceeds it either, so the three counts sum to at most
    twice the number of sites. *)
Theorem site_counts_bounded (sd : list (Z * site_info)) (deltas : list float) :
  let r := site_summary sd deltas in
  supporting_sites r + conflicting_sites r <= length deltas
  /\ neutral_sites r <= length deltas
  /\ supporting_sites r + conflicting_sites r + neutral_sites r
     <= 2 * length deltas.
Proof.
  intros r. subst r. simpl.
  pose proof (counts_disjoint deltas). pose proof (count_if_le is_neutral deltas).
  lia.
Qed.

End SiteData.

(** ** Taxon names, further *)

Section TaxonNames.

Lemma format_taxon_needs_quote (taxon_name : string) (c : ascii) :
  PyStr.In_str c taxon_name ->
  PyStr.isspace c = true \/ PyStr.In_str c nexus_special_chars
  \/ c = ":"%char ->
  _format_taxon_for_paup taxon_name = quoted taxon_name.
Proof.
  intros Hin Hc. unfold _format_taxon_for_paup.
  destruct Hc as [Hc | [Hc | ->]].
  - assert (re_search_quote_class taxon_name = true) as ->; [| reflexivity].
    apply re_search_quote_class_spec. exists c. split; [done |].
    apply in_quote_class_spec. by left.
  - assert (re_search_quote_class taxon_name = true) as ->; [| reflexivity].
    apply re_search_quote_class_spec. exists c. split; [done |].
    apply in_quote_class_spec. by right.
  - apply has_char_In in Hin. rewrite Hin, orb_true_r. reflexivity.
Qed.

Lemma replace_char_keeps (old new c : ascii) (s : string) :
  c <> old -> PyStr.In_str c s ->
  PyStr.In_str c (PyStr.replace_char old new s).
Proof.
  intros Hne. induction s as [|d s IH]; simpl; [done |].
  intros [-> | Hin]; [left | right; by apply IH].
  apply Ascii.eqb_neq in Hne. by rewrite Hne.
Qed.

Lemma replace_char_absent (old new : ascii) (s : string) :
  ~ PyStr.In_str old s -> PyStr.replace_char old new s = s.
Proof.
  induction s as [|d s IH]; simpl; [done |].
  intros Hnot. rewrite IH by tauto.
  destruct (Ascii.eqb_spec d old) as [-> | Hne]; [tauto | reflexivity].
Qed.

(** X15. Formatting is not injective and not idempotent.  A name that
    holds a single quote and some other character that calls for
    quoting is formatted to the same text as the different name in
    which every single quote is replaced by an underscore; and
    formatting the formatted form of any name that calls for quoting
    changes it again. *)
Theorem format_taxon_collisions (taxon_name : string) (c : ascii) :
  PyStr.In_str c taxon_name ->
  PyStr.isspace c = true \/ PyStr.In_str c nexus_special_chars
  \/ c = ":"%char ->
  _format_taxon_for_paup (_format_taxon_for_paup taxon_name)
  <> _format_taxon_for_paup taxon_name
  /\ (c <> single_quote ->
      PyStr.In_str single_quote taxon_name ->
      PyStr.replace_char single_quote "_" taxon_name <> taxon_name
      /\ _format_taxon_for_paup
           (PyStr.replace_char single_quote "_" taxon_name)
         = _format_taxon_for_paup taxon_name).
Proof.
  intros Hin Hc.
  rewrite (format_taxon_needs_quote taxon_name c Hin Hc). split.
  - rewrite (format_taxon_needs_quote (quoted taxon_name) single_quote).
    + intros E. apply (f_equal String.length) in E.
      rewrite !quoted_longer in E. lia.
    + unfold quoted. simpl. by left.
    + right. left. apply has_char_In. reflexivity.
  - intros Hne Hq. split.
    + intros E. rewrite <- E in Hq. revert Hq.
      apply replace_char_gone. discriminate.
    + rewrite (format_taxon_needs_quote _ c
                 (replace_char_keeps _ _ _ _ Hne Hin) Hc).
      unfold quoted. rewrite (replace_char_absent single_quote "_"
                                (PyStr.replace_char single_quote "_" taxon_name)).
      * reflexivity.
      * apply replace_char_gone. discriminate.
Qed.

End TaxonNames.

(** X15 at the names [O'Brien sp] and [O_Brien sp]. *)
Lemma format_taxon_collisions_witness :
  _format_taxon_for_paup "O_Brien sp" = _format_taxon_for_paup "O'Brien sp".
Proof.
  destruct (format_taxon_collisions "O'Brien sp" " "%char) as [_ Hcol].
  - simpl. tauto.
  - left. reflexivity.
  - destruct Hcol as [_ Heq]; [discriminate | simpl; tauto |]. exact Heq.
Defined.

(** ** Threads and model settings of the constructor *)

Lemma of_Z_not_all (z : Z) :
  String.eqb (PyStr.lower (PyStr.of_Z z)) "all" = false.
Proof.
  unfold PyStr.of_Z. destruct (Z.to_int z) as [d | d]; [| reflexivity].
  by destruct d.
Qed.

Section Threads.
Context `{Externals}.

Lemma limit_threads_bounds (n cpu_count : Z) :
  (1 <= cpu_count)%Z -> (1 <= limit_threads n cpu_count <= cpu_count)%Z.
Proof.
  intros Hc. unfold limit_threads.
  destruct (Z.ltb_spec n 1); [lia |].
  destruct (Z.ltb_spec cpu_count n); lia.
Qed.

Lemma limit_threads_cases (n cpu_count : Z) :
  ((n < 1)%Z -> limit_threads n cpu_count = 1%Z)
  /\ ((1 <= n)%Z -> (cpu_count < n)%Z -> limit_threads n cpu_count = cpu_count)
  /\ ((1 <= n <= cpu_count)%Z -> limit_threads n cpu_count = n).
Proof.
  unfold limit_threads.
  destruct (Z.ltb_spec n 1), (Z.ltb_spec cpu_count n); repeat split; lia.
Qed.

(** X16. The thread block of the constructor, for a [threads] argument
    that is [None], a text, an [int] or a [float], on a machine with at
    least one core.  Whenever the block sets a thread count, the count
    lies between one and the number of cores.  It raises TypeError
    exactly for [None], which ends the constructor; a text or an [int]
    always gives a count.  The text [auto] leaves at least one core free
    when there is more than one; a text that reads [all] in lower case
    gives all cores.  Any other text gives one thread when it is no
    number and else its number, limited; an [int] gives itself, limited;
    a [float] that is a NaN gives one thread and an infinite one raises
    OverflowError.  A limited number is 1 below 1, the number of cores
    above it, and the number itself in between. *)
Theorem init_threads_within_cores (threads : threads_arg) (cpu_count : Z) :
  (1 <= cpu_count)%Z ->
  (forall n, init_threads threads cpu_count = Threads n ->
             (1 <= n <= cpu_count)%Z)
  /\ (init_threads threads cpu_count = TypeError <-> threads = ThreadsNone)
  /\ (forall s, threads = ThreadsStr s ->
        exists n, init_threads threads cpu_count = Threads n)
  /\ (forall z, threads = ThreadsInt z ->
        init_threads threads cpu_count = Threads (limit_threads z cpu_count))
  /\ (threads = ThreadsStr "auto" ->
      exists n, init_threads threads cpu_count = Threads n
                /\ ((1 < cpu_count)%Z -> (n < cpu_count)%Z))
  /\ (forall s, threads = ThreadsStr s -> PyStr.lower s = "all" ->
        init_threads threads cpu_count = Threads cpu_count)
  /\ (forall s, threads = ThreadsStr s -> s <> "auto" ->
        PyStr.lower s <> "all" ->
        (py_int s = None -> init_threads threads cpu_count = Threads 1)
        /\ forall n, py_int s = Some n ->
             init_threads threads cpu_count
             = Threads (limit_threads n cpu_count))
  /\ (forall f, threads = ThreadsFloat f ->
        PyStr.lower (py_str_float f) <> "all" ->
        (Prim2SF f = S754_nan -> init_threads threads cpu_count = Threads 1)
        /\ (forall negative, Prim2SF f = S754_infinity negative ->
              init_threads threads cpu_count = OverflowError))
  /\ (forall n,
        ((n < 1)%Z -> limit_threads n cpu_count = 1%Z)
        /\ ((cpu_count < n)%Z -> limit_threads n cpu_count = cpu_count)
        /\ ((1 <= n <= cpu_count)%Z -> limit_threads n cpu_count = n)).
Proof.
  intros Hc. split; [| split; [| split; [| split; [| split; [| split;
    [| split; [| split]]]]]]].
  - intros n. destruct threads as [| s | z | f]; simpl; [done | | |].
    + destruct (String.eqb s "auto").
      * destruct (Z.ltb_spec 2 cpu_count); [intros [= <-]; lia |].
        destruct (Z.ltb_spec 1 cpu_count); intros [= <-]; lia.
      * destruct (String.eqb (PyStr.lower s) "all"); [intros [= <-]; lia |].
        destruct (py_int s); intros [= <-];
          [by apply limit_threads_bounds | lia].
    + rewrite of_Z_not_all. intros [= <-]. by apply limit_threads_bounds.
    + destruct (String.eqb _ "all"); [intros [= <-]; lia |].
      destruct (int_of_float f); intros [= <-];
        [by apply limit_threads_bounds | lia].
  - destruct threads as [| s | z | f]; simpl; [done | | |].
    + split; [| done].
      destruct (String.eqb s "auto").
      * destruct (2 <? cpu_count)%Z; [done |].
        by destruct (1 <? cpu_count)%Z.
      * destruct (String.eqb (PyStr.lower s) "all"); [done |].
        by destruct (py_int s).
    + rewrite of_Z_not_all. done.
    + split; [| done]. destruct (String.eqb _ "all"); [done |].
      by destruct (int_of_float f).
  - intros s ->. simpl. destruct (String.eqb s "auto").
    + destruct (2 <? cpu_count)%Z; [by eexists |].
      destruct (1 <? cpu_count)%Z; by eexists.
    + destruct (String.eqb (PyStr.lower s) "all"); [by eexists |].
      destruct (py_int s); by eexists.
  - intros z ->. simpl. by rewrite of_Z_not_all.
  - intros ->. simpl.
    destruct (Z.ltb_spec 2 cpu_count); [eexists; split; [done | lia] |].
    destruct (Z.ltb_spec 1 cpu_count); eexists; (split; [done | lia]).
  - intros s -> Hall. simpl.
    destruct (String.eqb_spec s "auto") as [-> | _]; [discriminate |].
    by rewrite Hall.
  - intros s -> Hauto Hall. simpl.
    apply String.eqb_neq in Hauto, Hall. rewrite Hauto, Hall.
    split; [by intros -> | by intros n ->].
  - intros f -> Hall. simpl. apply String.eqb_neq in Hall. rewrite Hall.
    unfold int_of_float. split; [by intros -> | by intros b ->].
  - intros n. destruct (limit_threads_cases n cpu_count) as (H1 & H2 & H3).
    split; [done |]. split; [intros; apply H2; lia | done].
Qed.

End Threads.

(** X16 at the texts [12] and [four] on eight cores. *)
Lemma init_threads_within_cores_witness :
  @init_threads (Fixtures.externals_of []) (ThreadsStr "12") 8 = Threads 8
  /\ @init_threads (Fixtures.externals_of []) (ThreadsStr "four") 8
     = Threads 1.
Proof.
  destruct (@init_threads_within_cores (Fixtures.externals_of [])
              (ThreadsStr "12") 8%Z) as (_ & _ & _ & _ & _ & _ & H12 & _);
    [lia |].
  destruct (@init_threads_within_cores (Fixtures.externals_of [])
              (ThreadsStr "four") 8%Z) as (_ & _ & _ & _ & _ & _ & H4 & _);
    [lia |].
  split.
  - destruct (H12 "12" eq_refl) as [_ Hn]; [discriminate | discriminate |].
    apply (Hn 12%Z). reflexivity.
  - destruct (H4 "four" eq_refl) as [Hnone _]; [discriminate | discriminate |].
    apply Hnone. reflexivity.
Defined.

Lemma str_app_cons (a : ascii) (s t : string) :
  String a s +:+ t = String a (s +:+ t).
Proof. reflexivity. Qed.

Lemma str_app_assoc (s t u : string) : (s +:+ t) +:+ u = s +:+ (t +:+ u).
Proof.
  induction s as [|a s IH]; [reflexivity |]. by rewrite !str_app_cons, IH.
Qed.

Lemma str_app_nil_r (s : string) : s +:+ EmptyString = s.
Proof.
  induction s as [|a s IH]; [reflexivity |]. by rewrite str_app_cons, IH.
Qed.

Lemma hd_split_on_cons (sep c : ascii) (s : string) :
  c <> sep ->
  hd EmptyString (PyStr.split_on sep (String c s))
  = String c (hd EmptyString (PyStr.split_on sep s)).
Proof.
  intros Hne. simpl. apply Ascii.eqb_neq in Hne. rewrite Hne.
  by destruct (PyStr.split_on sep s).
Qed.

Lemma hd_split_on_app (sep : ascii) (u s : string) :
  PyStr.has_char sep u = false ->
  hd EmptyString (PyStr.split_on sep (u +:+ s))
  = u +:+ hd EmptyString (PyStr.split_on sep s).
Proof.
  induction u as [|c u IH]; intros Hu; [reflexivity |].
  simpl in Hu. apply orb_false_iff in Hu as [Hc Hu].
  rewrite str_app_cons, hd_split_on_cons.
  - by rewrite IH.
  - intros ->. by rewrite Ascii.eqb_refl in Hc.
Qed.

Lemma upper_char_plus (c : ascii) :
  c <> "+"%char -> PyStr.has_char "+" (PyStr.upper_char c) = false.
Proof.
  destruct c as [[] [] [] [] [] [] [] []]; intros Hne;
    try reflexivity; by destruct Hne.
Qed.

Lemma upper_app (s t : string) :
  PyStr.upper (s +:+ t) = PyStr.upper s +:+ PyStr.upper t.
Proof.
  induction s as [|c s IH]; [reflexivity |].
  rewrite str_app_cons.
  change (PyStr.upper (String c ?x)) with (PyStr.upper_char c +:+ PyStr.upper x).
  by rewrite IH, str_app_assoc.
Qed.

Lemma upper_split_first (model_str : string) :
  PyStr.upper (hd EmptyString (PyStr.split_on "+" model_str))
  = hd EmptyString (PyStr.split_on "+" (PyStr.upper model_str)).
Proof.
  induction model_str as [|c s IH]; [reflexivity |].
  destruct (Ascii.eqb_spec c "+") as [-> | Hne]; [reflexivity |].
  rewrite hd_split_on_cons by done.
  change (PyStr.upper (String c s)) with (PyStr.upper_char c +:+ PyStr.upper s).
  rewrite hd_split_on_app by by apply upper_char_plus.
  change (PyStr.upper (String c ?x)) with (PyStr.upper_char c +:+ PyStr.upper x).
  simpl. by rewrite IH.
Qed.

Lemma upper_char_lower (c : ascii) :
  PyStr.upper_char (PyStr.lower_char c) = PyStr.upper_char c.
Proof. by destruct c as [[] [] [] [] [] [] [] []]. Qed.

Lemma upper_lower (s : string) : PyStr.upper (PyStr.lower s) = PyStr.upper s.
Proof.
  induction s as [|c s IH]; [reflexivity |].
  simpl. by rewrite upper_char_lower, IH.
Qed.

Lemma upper_upper_char (c : ascii) :
  PyStr.upper (PyStr.upper_char c) = PyStr.upper_char c.
Proof. by destruct c as [[] [] [] [] [] [] [] []]. Qed.

Lemma upper_upper (s : string) : PyStr.upper (PyStr.upper s) = PyStr.upper s.
Proof.
  induction s as [|c s IH]; [reflexivity |].
  simpl. by rewrite upper_app, upper_upper_char, IH.
Qed.

Section ModelCase.
Context `{Externals}.

Lemma model_cmd_parts_upper (data_type model_str : string)
    (gamma_shape prop_invar : option float)
    (base_freq rates protein_model : option string) (nst : option Z) :
  model_cmd_parts data_type model_str gamma_shape prop_invar base_freq rates
    protein_model nst
  = let u := PyStr.upper model_str in
    rate_cmd_parts (PyStr.contains "+G" u) (PyStr.contains "+I" u)
      gamma_shape prop_invar rates
      (let base_model_name := hd EmptyString (PyStr.split_on "+" u) in
       if String.eqb data_type "dna"
       then dna_cmd_parts base_model_name base_freq nst
       else if String.eqb data_type "protein"
       then protein_cmd_parts base_model_name protein_model
       else if String.eqb data_type "discrete"
       then discrete_cmd_parts base_freq
       else []).
Proof. unfold model_cmd_parts. by rewrite upper_split_first. Qed.

(** X17. The command built from the model arguments depends on the model
    string only up to letter case: two model strings with the same
    upper-case form give the same command and the same object, and so
    does the lower-case form of either. *)
Theorem convert_model_ignores_case (self : self_state)
    (model_str other_str : string) (gamma_shape prop_invar : option float)
    (base_freq rates protein_model : option string) (nst : option Z)
    (parsmodel_user_intent : option bool) :
  PyStr.upper model_str = PyStr.upper other_str ->
  _convert_model_to_paup self model_str gamma_shape prop_invar base_freq
    rates protein_model nst parsmodel_user_intent
  = _convert_model_to_paup self other_str gamma_shape prop_invar base_freq
      rates protein_model nst parsmodel_user_intent
  /\ _convert_model_to_paup self (PyStr.lower model_str) gamma_shape
       prop_invar base_freq rates protein_model nst parsmodel_user_intent
     = _convert_model_to_paup self other_str gamma_shape prop_invar base_freq
         rates protein_model nst parsmodel_user_intent.
Proof.
  intros Hup. unfold _convert_model_to_paup.
  rewrite !model_cmd_parts_upper, upper_lower, Hup. done.
Qed.

End ModelCase.

(** X17 at the model strings [gtr+g] and [GTR+G]. *)
Lemma convert_model_ignores_case_witness :
  fst (@_convert_model_to_paup (Fixtures.externals_of [])
         (Fixtures.self_of [] None None) "gtr+g" None None None None None
         None None)
  = fst (@_convert_model_to_paup (Fixtures.externals_of [])
         (Fixtures.self_of [] None None) "GTR+G" None None None None None
         None None).
Proof.
  apply (f_equal fst).
  apply (@convert_model_ignores_case (Fixtures.externals_of [])
           (Fixtures.self_of [] None None) "gtr+g" "GTR+G").
  reflexivity.
Defined.


Lemma contains_cons (sub : string) (c : ascii) (s : string) :
  PyStr.contains sub (String c s)
  = String.prefix sub (String c s) || PyStr.contains sub s.
Proof. reflexivity. Qed.

Lemma prefix_has_char (c : ascii) (sub s : string) :
  String.prefix sub s = true -> PyStr.has_char c sub = true ->
  PyStr.has_char c s = true.
Proof.
  revert s. induction sub as [|a sub IH]; intros s Hp Hc; [done |].
  destruct s as [|b s]; [done |]. simpl in Hp.
  destruct (ascii_dec a b) as [<- | Hne]; [| done].
  simpl in *. apply orb_true_iff in Hc as [Hc | Hc].
  - by rewrite Hc.
  - rewrite (IH s Hp Hc). apply orb_true_r.
Qed.

Lemma contains_has_char (c : ascii) (sub s : string) :
  PyStr.has_char c sub = true -> PyStr.has_char c s = false ->
  PyStr.contains sub s = false.
Proof.
  intros Hc. induction s as [|b s IH]; intros Hs.
  - simpl. destruct sub; [done | reflexivity].
  - rewrite contains_cons. simpl in Hs.
    apply orb_false_iff in Hs as [Hb Hs]. rewrite (IH Hs), orb_false_r.
    destruct (String.prefix sub (String b s)) eqn:Hp; [| done].
    pose proof (prefix_has_char c sub (String b s) Hp Hc) as Hin.
    simpl in Hin. by rewrite Hb, Hs in Hin.
Qed.

Lemma split_on_plain (sep : ascii) (v : string) :
  PyStr.has_char sep v = false -> PyStr.split_on sep v = [v].
Proof.
  induction v as [|c v IH]; intros Hv; [reflexivity |].
  simpl in Hv. apply orb_false_iff in Hv as [Hc Hv]. simpl.
  rewrite Ascii.eqb_sym, Hc, (IH Hv). reflexivity.
Qed.

Lemma split_on_key (sep : ascii) (k v : string) :
  PyStr.has_char sep k = false ->
  PyStr.split_on sep (k +:+ String sep v) = k :: PyStr.split_on sep v.
Proof.
  induction k as [|c k IH]; intros Hk.
  - change (EmptyString +:+ String sep v) with (String sep v).
    simpl. by rewrite Ascii.eqb_refl.
  - simpl in Hk. apply orb_false_iff in Hk as [Hc Hk].
    rewrite str_app_cons. simpl. rewrite Ascii.eqb_sym, Hc, (IH Hk).
    reflexivity.
Qed.

Lemma uint_no_equals (d : Decimal.uint) :
  PyStr.has_char "=" (NilEmpty.string_of_uint d) = false.
Proof. induction d; simpl; done. Qed.

Lemma of_Z_no_equals (z : Z) : PyStr.has_char "=" (PyStr.of_Z z) = false.
Proof.
  unfold PyStr.of_Z. destruct (Z.to_int z); simpl; apply uint_no_equals.
Qed.

Lemma of_Z_inj (a b : Z) : PyStr.of_Z a = PyStr.of_Z b -> a = b.
Proof.
  unfold PyStr.of_Z. intros E.
  apply (f_equal NilEmpty.int_of_string) in E.
  rewrite !NilEmpty.isi in E. injection E as E.
  apply (f_equal Z.of_int) in E. by rewrite !DecimalZ.of_to in E.
Qed.

Lemma has_equals_lower (s : string) :
  PyStr.has_char "=" (PyStr.lower s) = PyStr.has_char "=" s.
Proof.
  induction s as [|c s IH]; [reflexivity |]. simpl. rewrite IH. f_equal.
  by destruct c as [[] [] [] [] [] [] [] []].
Qed.

Lemma has_char_app (c : ascii) (s t : string) :
  PyStr.has_char c (s +:+ t) = PyStr.has_char c s || PyStr.has_char c t.
Proof.
  induction s as [|a s IH]; [reflexivity |].
  rewrite str_app_cons. simpl. by rewrite IH, orb_assoc.
Qed.

Lemma has_equals_upper (s : string) :
  PyStr.has_char "=" (PyStr.upper s) = PyStr.has_char "=" s.
Proof.
  induction s as [|c s IH]; [reflexivity |].
  change (PyStr.upper (String c s)) with (PyStr.upper_char c +:+ PyStr.upper s).
  rewrite has_char_app, IH. simpl. f_equal.
  by destruct c as [[] [] [] [] [] [] [] []].
Qed.

(** The value of a part [key=value] whose value holds no equals sign. *)
Lemma key_value (key value : string) :
  PyStr.has_char "=" key = false -> PyStr.has_char "=" value = false ->
  nth 1 (PyStr.split_on "=" (key +:+ String "=" value)) EmptyString = value.
Proof.
  intros Hk Hv. by rewrite split_on_key, split_on_plain.
Qed.


Lemma given_no_equals (x : option string) (s : string) :
  no_equals_sign x -> given x = Some s -> PyStr.has_char "=" s = false.
Proof.
  intros Hx. unfold given. destruct x as [t|]; [| done].
  destruct (PyStr.truthy t); [| done]. intros [= <-]. by apply Hx.
Qed.

Ltac expose_text :=
  repeat rewrite str_app_cons;
  repeat match goal with
         | |- context [EmptyString +:+ ?v] =>
             change (EmptyString +:+ v) with v
         end.

Ltac scan_text :=
  expose_text;
  repeat (rewrite contains_cons; simpl String.prefix; rewrite ?orb_false_l).

Lemma nst_no_rates (v : string) :
  PyStr.has_char "=" v = false ->
  PyStr.contains "rates=" ("nst=" +:+ v) = false.
Proof. intros Hv. scan_text. by apply (contains_has_char "="). Qed.

Lemma basefreq_no_rates (v : string) :
  PyStr.has_char "=" v = false ->
  PyStr.contains "rates=" ("basefreq=" +:+ v) = false.
Proof. intros Hv. scan_text. by apply (contains_has_char "="). Qed.

Lemma protein_no_rates (v : string) :
  PyStr.has_char "=" v = false ->
  PyStr.contains "rates=" ("protein=" +:+ v) = false.
Proof. intros Hv. scan_text. by apply (contains_has_char "="). Qed.

Lemma nst_value (v : string) :
  PyStr.has_char "=" v = false ->
  next_value "nst=" ["nst=" +:+ v] = Some v.
Proof.
  intros Hv. unfold next_value.
  assert (PyStr.contains "nst=" ("nst=" +:+ v) = true) as ->.
  { expose_text. rewrite contains_cons. simpl String.prefix.
    by destruct v. }
  f_equal. by apply (key_value "nst" v).
Qed.

Lemma rates_value (pre : list string) (v : string) :
  Forall (fun p => PyStr.contains "rates=" p = false) pre ->
  PyStr.has_char "=" v = false ->
  next_value "rates=" (pre ++ ["rates=" +:+ v]) = Some v.
Proof.
  intros Hpre Hv. induction Hpre as [|p pre Hp _ IH].
  - change ([] ++ ["rates=" +:+ v]) with ["rates=" +:+ v]. unfold next_value.
    assert (PyStr.contains "rates=" ("rates=" +:+ v) = true) as ->.
    { expose_text. rewrite contains_cons. simpl String.prefix.
      by destruct v. }
    f_equal. by apply (key_value "rates" v).
  - change (next_value "rates=" ((p :: pre) ++ ["rates=" +:+ v]))
      with (if PyStr.contains "rates=" p
            then Some (nth 1 (PyStr.split_on "="%char p) EmptyString)
            else next_value "rates=" (pre ++ ["rates=" +:+ v])).
    by rewrite Hp.
Qed.

Section ModelSubstitution.
Context `{Externals}.

(** The parts added for rate variation come after the parts so far; none
    of them is a directive for the rate matrix or the ratio. *)
Lemma rate_cmd_parts_tail (has_gamma has_invar : bool)
    (gamma_shape prop_invar : option float) (rates : option string)
    (cmd_parts : list string) :
  exists tl,
    rate_cmd_parts has_gamma has_invar gamma_shape prop_invar rates cmd_parts
    = cmd_parts ++ tl
    /\ ~ In "rmatrix=estimate" tl /\ ~ In "tratio=estimate" tl.
Proof.
  unfold rate_cmd_parts.
  set (r := match given rates with
            | Some r => "rates=" +:+ r
            | None => if has_gamma then "rates=gamma" else "rates=equal"
            end).
  set (sh := match gamma_shape with Some _ => _ | None => _ end).
  set (pv := match prop_invar with Some _ => _ | None => _ end).
  exists ([r] ++ sh ++ [pv]). split; [by rewrite <- !app_assoc |].
  assert (Hr : r <> "rmatrix=estimate" /\ r <> "tratio=estimate").
  { subst r. destruct (given rates); [| by destruct has_gamma]. by split. }
  assert (Hpv : pv <> "rmatrix=estimate" /\ pv <> "tratio=estimate").
  { subst pv. destruct prop_invar; [| by destruct has_invar]. by split. }
  assert (Hsh : forall p, In p sh ->
                  p <> "rmatrix=estimate" /\ p <> "tratio=estimate").
  { subst sh. intros p.
    destruct gamma_shape, (_ || _); simpl; intros Hin;
      repeat (destruct Hin as [Hin | Hin]); subst; try done; by split. }
  split; intros Hin; apply in_app_or in Hin as [[E | []] | Hin];
    try (by destruct Hr);
    apply in_app_or in Hin as [Hin | [E | []]];
    try (by destruct Hpv); by destruct (Hsh _ Hin).
Qed.

(** X18. For DNA data the command starts with the number of substitution
    types: the number given by the caller whatever the model name says,
    and otherwise 6, 2 or 1 by the name before the first plus sign, 6
    for a name that is not known.  The rate matrix is estimated exactly
    when that number is 6 and the ratio exactly when it is 2, so neither
    directive is given for any other number. *)
Theorem dna_substitution_parts (model_str : string)
    (gamma_shape prop_invar : option float)
    (base_freq rates protein_model : option string) (nst : option Z) :
  let base_model_name :=
    PyStr.upper (hd EmptyString (PyStr.split_on "+" model_str)) in
  let cmd_parts :=
    model_cmd_parts "dna" model_str gamma_shape prop_invar base_freq rates
      protein_model nst in
  exists k,
    hd_error cmd_parts = Some ("nst=" +:+ PyStr.of_Z k)
    /\ (forall n, nst = Some n -> k = n)
    /\ (nst = None ->
        k = if String.eqb base_model_name "GTR" then 6%Z
            else if PyStr.in_names base_model_name
                      ["HKY"; "K2P"; "K80"; "TN93"] then 2%Z
            else if PyStr.in_names base_model_name ["JC"; "JC69"; "F81"]
            then 1%Z
            else 6%Z)
    /\ (In "rmatrix=estimate" cmd_parts <-> k = 6%Z)
    /\ (In "tratio=estimate" cmd_parts <-> k = 2%Z).
Proof.
  intros base_model_name cmd_parts. subst cmd_parts. unfold model_cmd_parts.
  fold base_model_name. change (String.eqb "dna" "dna") with true. cbv iota.
  destruct (rate_cmd_parts_tail
              (PyStr.contains "+G" (PyStr.upper model_str))
              (PyStr.contains "+I" (PyStr.upper model_str))
              gamma_shape prop_invar rates
              (dna_cmd_parts base_model_name base_freq nst))
    as (tl & -> & Hrm & Htr).
  set (k := match nst with
            | Some n => n
            | None =>
                if String.eqb base_model_name "GTR" then 6%Z
                else if PyStr.in_names base_model_name
                          ["HKY"; "K2P"; "K80"; "TN93"] then 2%Z
                else if PyStr.in_names base_model_name ["JC"; "JC69"; "F81"]
                then 1%Z
                else 6%Z
            end).
  assert (Hfirst : match nst with
                   | Some n => "nst=" +:+ PyStr.of_Z n
                   | None =>
                       if String.eqb base_model_name "GTR" then "nst=6"
                       else if PyStr.in_names base_model_name
                                 ["HKY"; "K2P"; "K80"; "TN93"] then "nst=2"
                       else if PyStr.in_names base_model_name
                                 ["JC"; "JC69"; "F81"] then "nst=1"
                       else "nst=6"
                   end = "nst=" +:+ PyStr.of_Z k).
  { subst k. destruct nst; [reflexivity |].
    destruct (String.eqb base_model_name "GTR"); [reflexivity |].
    destruct (PyStr.in_names base_model_name ["HKY"; "K2P"; "K80"; "TN93"]);
      [reflexivity |].
    by destruct (PyStr.in_names base_model_name ["JC"; "JC69"; "F81"]). }
  assert (Hgtr : String.eqb base_model_name "GTR"
                 && match nst with None => true | Some _ => false end = true
                 -> k = 6%Z).
  { subst k. destruct nst; [by rewrite andb_false_r |].
    by destruct (String.eqb base_model_name "GTR"). }
  assert (Hhky : PyStr.in_names base_model_name ["HKY"; "K2P"]
                 && match nst with None => true | Some _ => false end = true
                 -> k = 2%Z \/ k = 6%Z).
  { subst k. destruct nst; [by rewrite andb_false_r |].
    destruct (String.eqb base_model_name "GTR"); [by right |].
    intros Hin. rewrite andb_true_r in Hin. left.
    assert (PyStr.in_names base_model_name ["HKY"; "K2P"; "K80"; "TN93"]
            = true) as ->; [| reflexivity].
    unfold PyStr.in_names in *. simpl in *.
    apply orb_true_iff in Hin as [-> | Hin]; [reflexivity |].
    apply orb_true_iff in Hin as [-> | Hin]; [| done].
    by rewrite orb_true_r. }
  exists k. unfold dna_cmd_parts. rewrite Hfirst.
  rewrite (nst_value (PyStr.of_Z k)) by apply of_Z_no_equals.
  split; [reflexivity |]. split; [by intros n -> |].
  split; [by intros -> |].
  set (six := bool_decide (Some (PyStr.of_Z k) = Some "6")).
  set (two := bool_decide (Some (PyStr.of_Z k) = Some "2")).
  assert (Hsix : six = true <-> k = 6%Z).
  { subst six. rewrite bool_decide_eq_true. split.
    - intros [= E]. by apply (of_Z_inj k 6).
    - by intros ->. }
  assert (Htwo : two = true <-> k = 2%Z).
  { subst two. rewrite bool_decide_eq_true. split.
    - intros [= E]. by apply (of_Z_inj k 2).
    - by intros ->. }
  set (bf := match given base_freq with Some _ => _ | None => _ end).
  assert (Hbf : bf <> "rmatrix=estimate" /\ bf <> "tratio=estimate").
  { subst bf. destruct (given base_freq); [by split |].
    by destruct (PyStr.in_names base_model_name
                   ["JC"; "K2P"; "JC69"; "K80"]). }
  assert (Hno : forall P : Prop,
             (bf = "rmatrix=estimate" -> P) /\ (bf = "tratio=estimate" -> P)
             /\ (In "rmatrix=estimate" tl -> P)
             /\ (In "tratio=estimate" tl -> P)).
  { intros P. destruct Hbf. repeat split; intros; exfalso; tauto. }
  destruct six eqn:E6.
  - assert (k = 6%Z) as Hk by by apply Hsix. simpl.
    split; [split; [done | tauto] |]. split; [| lia].
    intros Hin; repeat (destruct Hin as [Hin | Hin]); try done;
      match goal with |- ?G => destruct (Hno G) as (? & ? & ? & ?); auto end.
  - assert (k <> 6%Z) as Hk6 by (intros E; apply Hsix in E; done).
    rewrite orb_false_l.
    destruct (String.eqb base_model_name "GTR"
              && match nst with None => true | Some _ => false end) eqn:Eg;
      [by destruct Hk6; apply Hgtr |].
    destruct two eqn:E2.
    + assert (k = 2%Z) as Hk by by apply Htwo. simpl.
      split; [| split; [done | tauto]]. split; [| lia].
      intros Hin; repeat (destruct Hin as [Hin | Hin]); try done;
        match goal with |- ?G => destruct (Hno G) as (? & ? & ? & ?); auto end.
    + assert (k <> 2%Z) as Hk2 by (intros E; apply Htwo in E; done).
      rewrite orb_false_l.
      destruct (PyStr.in_names base_model_name ["HKY"; "K2P"]
                && match nst with None => true | Some _ => false end) eqn:Eh;
        [destruct (Hhky eq_refl); done |].
      simpl. split; (split; [| done]);
        intros Hin; repeat (destruct Hin as [Hin | Hin]); try done;
        match goal with |- ?G => destruct (Hno G) as (? & ? & ? & ?); auto end.
Qed.

End ModelSubstitution.

Lemma in_names_no_equals (x : string) :
  PyStr.in_names x valid_protein_models = true ->
  PyStr.has_char "=" x = false.
Proof.
  unfold PyStr.in_names, valid_protein_models. simpl. intros Hin.
  repeat (apply orb_true_iff in Hin as [Hin | Hin];
          [apply String.eqb_eq in Hin; by subst |]).
  done.
Qed.

Lemma substring_all (s : string) : substring 0 (String.length s) s = s.
Proof. induction s as [|c s IH]; [reflexivity |]. simpl. by rewrite IH. Qed.

Lemma replace_first_lset (rest : string) :
  PyStr.replace_first "lset " EmptyString ("lset " +:+ rest) = rest.
Proof.
  expose_text. unfold PyStr.replace_first.
  assert (String.prefix "lset " (String "l" (String "s" (String "e"
            (String "t" (String " " rest))))) = true) as ->.
  { simpl. by destruct rest. }
  simpl. rewrite Nat.sub_0_r. apply substring_all.
Qed.

Section ModelRates.
Context `{Externals}.

Lemma dna_parts_no_rates (base_model_name : string)
    (base_freq : option string) (nst : option Z) :
  no_equals_sign base_freq ->
  Forall (fun p => PyStr.contains "rates=" p = false)
    (dna_cmd_parts base_model_name base_freq nst).
Proof.
  intros Hbf. unfold dna_cmd_parts.
  repeat apply Forall_app_2.
  - apply Forall_singleton. destruct nst as [n|].
    + apply nst_no_rates, of_Z_no_equals.
    + destruct (String.eqb base_model_name "GTR"); [reflexivity |].
      destruct (PyStr.in_names base_model_name _); [reflexivity |].
      by destruct (PyStr.in_names base_model_name _).
  - destruct (_ || _); [by apply Forall_singleton |].
    destruct (_ || _); [by apply Forall_singleton | constructor].
  - apply Forall_singleton. destruct (given base_freq) as [bf|] eqn:E.
    + apply basefreq_no_rates. by apply (given_no_equals base_freq).
    + by destruct (PyStr.in_names base_model_name _).
Qed.

Lemma protein_parts_no_rates (base_model_name : string)
    (protein_model : option string) :
  no_equals_sign protein_model ->
  Forall (fun p => PyStr.contains "rates=" p = false)
    (protein_cmd_parts base_model_name protein_model).
Proof.
  intros Hpm. unfold protein_cmd_parts. apply Forall_singleton.
  destruct (given protein_model) as [pm|] eqn:E.
  - apply protein_no_rates. rewrite has_equals_lower.
    by apply (given_no_equals protein_model).
  - destruct (PyStr.in_names (PyStr.upper base_model_name) _) eqn:Ev;
      [| reflexivity].
    apply protein_no_rates. rewrite has_equals_lower, <- has_equals_upper.
    by apply in_names_no_equals.
Qed.

Lemma discrete_parts_no_rates (base_freq : option string) :
  no_equals_sign base_freq ->
  Forall (fun p => PyStr.contains "rates=" p = false)
    (discrete_cmd_parts base_freq).
Proof.
  intros Hbf. unfold discrete_cmd_parts.
  constructor; [reflexivity |]. apply Forall_singleton.
  destruct (given base_freq) as [bf|] eqn:E; [| reflexivity].
  apply basefreq_no_rates. by apply (given_no_equals base_freq).
Qed.

(** X19. When no model argument holds an equals sign, the command ends
    with one rates part, then a shape part, then the part for invariable
    sites, and no earlier part holds the text [rates=].  The rates are
    the ones given, else gamma when the model string has [+G], else
    equal.  The shape part is present exactly when the model string has
    [+G] or the rates given are [gamma], also when the rates given are
    [equal]; it holds the shape given, else [estimate]; a shape given
    without either is dropped. *)
Theorem rate_parts_follow_rates (data_type model_str : string)
    (gamma_shape prop_invar : option float)
    (base_freq rates protein_model : option string) (nst : option Z) :
  no_equals_sign base_freq -> no_equals_sign rates ->
  no_equals_sign protein_model ->
  let has_gamma := PyStr.contains "+G" (PyStr.upper model_str) in
  let has_invar := PyStr.contains "+I" (PyStr.upper model_str) in
  exists pre,
    model_cmd_parts data_type model_str gamma_shape prop_invar base_freq
      rates protein_model nst
    = pre
      ++ ["rates=" +:+ match given rates with
                       | Some r => r
                       | None => if has_gamma then "gamma" else "equal"
                       end]
      ++ (if has_gamma || bool_decide (given rates = Some "gamma")
          then ["shape=" +:+ match gamma_shape with
                             | Some shape => py_str_float shape
                             | None => "estimate"
                             end]
          else [])
      ++ ["pinvar=" +:+ match prop_invar with
                        | Some p => py_str_float p
                        | None => if has_invar then "estimate" else "0"
                        end]
    /\ Forall (fun p => PyStr.contains "rates=" p = false) pre.
Proof.
  intros Hbf Hrates Hpm has_gamma has_invar. unfold model_cmd_parts.
  fold has_gamma has_invar.
  set (pre := if String.eqb data_type "dna" then _ else _).
  assert (Hpre : Forall (fun p => PyStr.contains "rates=" p = false) pre).
  { subst pre. destruct (String.eqb data_type "dna");
      [by apply dna_parts_no_rates |].
    destruct (String.eqb data_type "protein");
      [by apply protein_parts_no_rates |].
    destruct (String.eqb data_type "discrete");
      [by apply discrete_parts_no_rates | constructor]. }
  exists pre. split; [| done]. unfold rate_cmd_parts.
  set (R := match given rates with
            | Some r => r
            | None => if has_gamma then "gamma" else "equal"
            end).
  assert (HR : match given rates with
               | Some r => "rates=" +:+ r
               | None => if has_gamma then "rates=gamma" else "rates=equal"
               end = "rates=" +:+ R).
  { subst R. destruct (given rates); [reflexivity |]. by destruct has_gamma. }
  assert (HRv : PyStr.has_char "=" R = false).
  { subst R. destruct (given rates) as [r|] eqn:E.
    - by apply (given_no_equals rates).
    - by destruct has_gamma. }
  rewrite HR, (rates_value pre R Hpre HRv).
  assert (Hforce : String.eqb R "gamma" || has_gamma
                   = has_gamma || bool_decide (given rates = Some "gamma")).
  { subst R. destruct (given rates) as [r|].
    - rewrite orb_comm. f_equal.
      destruct (String.eqb_spec r "gamma") as [-> | Hne].
      + by rewrite bool_decide_eq_true_2.
      + rewrite bool_decide_eq_false_2; [done | congruence].
    - by destruct has_gamma. }
  rewrite Hforce. rewrite <- !app_assoc. f_equal. f_equal. f_equal.
  - by destruct gamma_shape, (has_gamma || _).
  - f_equal. destruct prop_invar; [reflexivity |]. by destruct has_invar.
Qed.

(** X20. The model lines of every script, for an object set up by the
    constructor.  With a block of the user they are that block, whatever
    the model arguments are.  Without one, the thread count and the
    parts of the model form one [lset] command, the only [lset] removed
    from the converted model being the leading one; the criterion
    follows; for discrete data the options line follows and then the
    parsimony model, unless the caller turned it off. *)
Theorem model_setup_of_settings (self : self_state) (model_str : string)
    (gamma_shape prop_invar : option float)
    (base_freq rates protein_model : option string) (nst : option Z)
    (parsmodel_arg : option bool) :
  _get_paup_model_setup_cmds
    (init_model_settings self model_str gamma_shape prop_invar base_freq
       rates protein_model nst parsmodel_arg)
  = match user_paup_block self with
    | Some block => block
    | None =>
        PyStr.join nl
          (map (fun cmd => "    " +:+ cmd)
             (["lset nthreads=" +:+ PyStr.of_nat (threads self) +:+ " "
               +:+ PyStr.join " "
                     (model_cmd_parts (data_type self) model_str gamma_shape
                        prop_invar base_freq rates protein_model nst)
               +:+ ";";
               "set criterion=likelihood;"]
              ++ (if String.eqb (data_type self) "discrete"
                  then "options deftype=unord polytcount=minsteps;"
                       :: match parsmodel_arg with
                          | Some false => []
                          | _ => ["set parsmodel=yes;"]
                          end
                  else [])))
    end.
Proof.
  unfold init_model_settings.
  assert (Hb : forall p c, user_paup_block (set_model p c self)
                           = user_paup_block self) by reflexivity.
  rewrite Hb. destruct (user_paup_block self) as [block|] eqn:Eb.
  - unfold _get_paup_model_setup_cmds. simpl. by rewrite Eb.
  - unfold _convert_model_to_paup.
    change (data_type (set_model false (paup_model_cmds self) self))
      with (data_type self).
    unfold _get_paup_model_setup_cmds.
    destruct (String.eqb (data_type self) "discrete") eqn:Ed.
    + cbn [set_model user_paup_block paup_model_cmds threads data_type
             parsmodel].
      rewrite Eb, Ed, replace_first_lset. by destruct parsmodel_arg as [[]|].
    + cbn [set_model user_paup_block paup_model_cmds threads data_type
             parsmodel].
      rewrite Eb, Ed, replace_first_lset. reflexivity.
Qed.

End ModelRates.

(** X19 at the model string [GTR+G] with the rates given as [equal]. *)
Lemma rate_parts_follow_rates_witness :
  exists pre,
    @model_cmd_parts (Fixtures.externals_of []) "dna" "GTR+G" None None None
      (Some "equal") None None
    = pre ++ ["rates=equal"] ++ ["shape=estimate"] ++ ["pinvar=0"].
Proof.
  destruct (@rate_parts_follow_rates (Fixtures.externals_of []) "dna" "GTR+G"
              None None None (Some "equal") None None)
    as (pre & Heq & _).
  - intros s. discriminate.
  - intros s [= <-]. reflexivity.
  - intros s. discriminate.
  - exists pre. exact Heq.
Defined.

(** ** The bootstrap run and the final clean-up *)

Section BootstrapFacts.
Context `{Externals}.

(** X21. The bootstrap run hands one script to the engine and never
    touches the optimum tree, the optimum likelihood or the decay
    indices of the object.  A tree is returned only when the engine left
    a non-empty tree file, and it is then the tree read from the text of
    that file up to and including its first semicolon when text follows
    one, and from the whole text otherwise. *)
Theorem run_bootstrap_analysis_result (self : self_state)
    (num_replicates : Z) (w : world) :
  let r := run_bootstrap_analysis self num_replicates w in
  invocations (snd r) = invocations w ++ [BOOTSTRAP_NEX_FN]
  /\ ml_tree (snd (fst r)) = ml_tree self
  /\ ml_likelihood (snd (fst r)) = ml_likelihood self
  /\ decay_indices (snd (fst r)) = decay_indices self
  /\ (forall bootstrap_tree,
        fst (fst r) = Some bootstrap_tree ->
        exists content,
          files (snd r) !! BOOTSTRAP_TREE_FN = Some content
          /\ content <> EmptyString
          /\ phylo_read (if text_after_semicolon content
                         then before_semicolon content +:+ ";"
                         else content)
             = Ok bootstrap_tree).
Proof.
  intros r. subst r. unfold run_bootstrap_analysis.
  pose proof (run_written_invocations BOOTSTRAP_NEX_FN BOOTSTRAP_LOG_FN
                (paup_script (bootstrap_script_cmds self num_replicates))
                (PyInt (Z.max 3600 (60 * num_replicates))) w) as Hrun.
  destruct (_run_paup_command_file _ _ _ _) as [[cp|e] w2]; simpl in Hrun.
  2:{ simpl. repeat split; try done. }
  destruct (exists_nonempty BOOTSTRAP_TREE_FN w2) eqn:Etree.
  2:{ simpl. repeat split; try done. }
  unfold _clean_newick_tree.
  destruct (files w2 !! BOOTSTRAP_TREE_FN) as [content|] eqn:Econtent.
  2:{ unfold exists_nonempty in Etree. by rewrite Econtent in Etree. }
  assert (Hne : content <> EmptyString).
  { unfold exists_nonempty in Etree. rewrite Econtent in Etree.
    by destruct content. }
  destruct (text_after_semicolon content) eqn:Etext.
  - assert (Hl : files (write_text (BOOTSTRAP_TREE_FN +:+ ".cleaned")
                          (before_semicolon content +:+ ";") w2)
                 !! (BOOTSTRAP_TREE_FN +:+ ".cleaned")
                 = Some (before_semicolon content +:+ ";"))
      by apply lookup_insert_eq.
    rewrite Hl.
    assert (Hkeep : files (write_text (BOOTSTRAP_TREE_FN +:+ ".cleaned")
                             (before_semicolon content +:+ ";") w2)
                    !! BOOTSTRAP_TREE_FN = Some content).
    { unfold write_text. simpl.
      rewrite lookup_insert_ne by apply cleaned_path_differs. exact Econtent. }
    destruct (phylo_read _) as [t|e] eqn:Eread; simpl;
      repeat split; try done.
    intros t' [= <-]. exists content. split; [exact Hkeep |].
    split; [done |]. by rewrite Etext.
  - rewrite Econtent.
    destruct (phylo_read _) as [t|e] eqn:Eread; simpl;
      repeat split; try done.
    intros t' [= <-]. exists content. split; [exact Econtent |].
    split; [done |]. by rewrite Etext.
Qed.

End BootstrapFacts.

Lemma endswith_app (s suffix : string) :
  PyStr.endswith suffix (s +:+ suffix) = true.
Proof.
  unfold PyStr.endswith. rewrite string_length_app.
  apply andb_true_iff. split; [apply Nat.leb_le; lia |].
  replace (String.length s + String.length suffix - String.length suffix)
    with (String.length s) by lia.
  apply String.eqb_eq. symmetry.
  induction s as [|c s IH].
  - change (EmptyString +:+ suffix) with suffix. apply substring_all.
  - rewrite str_app_cons. exact IH.
Qed.

Lemma cleaned_is_intermediate (tree_path : string) :
  is_intermediate (tree_path +:+ ".cleaned") = true.
Proof.
  unfold is_intermediate, intermediate_patterns.
  cbn [existsb]. apply orb_true_iff. left. unfold glob_star.
  cbn [fst snd]. rewrite endswith_app, string_length_app.
  rewrite andb_true_r.
  apply andb_true_iff. split; [by destruct (tree_path +:+ ".cleaned") |].
  apply Nat.leb_le. simpl. lia.
Qed.

Lemma framed_is_intermediate (before after middle : string) :
  In (before, after) intermediate_patterns ->
  is_intermediate (before +:+ middle +:+ after) = true.
Proof.
  intros Hin. unfold is_intermediate. apply existsb_exists.
  exists (before, after). split; [done |]. unfold glob_star. cbn [fst snd].
  rewrite prefix_app. rewrite <- str_app_assoc, endswith_app.
  rewrite !string_length_app. apply Nat.leb_le. lia.
Qed.

Lemma unmark_lookup (marked : list string) (fs : gmap string string)
    (name : string) :
  fold_left (fun fs file_path => delete file_path fs) marked fs !! name
  = if bool_decide (name ∈ marked) then None else fs !! name.
Proof.
  revert fs. induction marked as [|m marked IH]; intros fs; cbn [fold_left].
  - rewrite bool_decide_eq_false_2; [done | apply not_elem_of_nil].
  - rewrite IH. destruct (decide (name ∈ marked)) as [Hin | Hnin].
    + rewrite !bool_decide_eq_true_2; [done | by apply elem_of_cons; right
                                       | done].
    + rewrite (bool_decide_eq_false_2 (name ∈ marked)) by done.
      destruct (decide (name = m)) as [-> | Hne].
      * rewrite lookup_delete_eq, bool_decide_eq_true_2;
          [done | by apply elem_of_cons; left].
      * rewrite lookup_delete_ne by done.
        rewrite bool_decide_eq_false_2; [done |].
        intros [E | E]%elem_of_cons; done.
Qed.

Lemma sweep_lookup (patterns : list (string * string))
    (fs : gmap string string) (name : string) :
  fold_left
    (fun fs pattern =>
       filter (fun entry => glob_star pattern (fst entry) = false) fs)
    patterns fs !! name
  = if existsb (fun pattern => glob_star pattern name) patterns
    then None else fs !! name.
Proof.
  revert fs. induction patterns as [|p patterns IH]; intros fs;
    cbn [fold_left existsb].
  - reflexivity.
  - rewrite IH. destruct (glob_star p name) eqn:Ep; cbn [orb].
    + destruct (existsb _ patterns); [done |].
      apply map_lookup_filter_None. right. intros x _. simpl. by rewrite Ep.
    + destruct (existsb _ patterns); [done |].
      destruct (fs !! name) as [x|] eqn:Ex.
      * apply map_lookup_filter_Some. by split.
      * apply map_lookup_filter_None. by left.
Qed.

(** X22. The final clean-up runs no engine session and does nothing
    when one of the two flags is set.  Otherwise a file is left exactly
    when it is neither marked for deletion nor matched by a pattern, and
    it is left as it was.  Every cleaned copy of a tree file, every
    constraint tree and every file of site likelihoods is matched by a
    pattern; the alignment, the optimum tree and its score file are
    not. *)
Theorem cleanup_intermediate_files_result (debug keep_files : bool)
    (self : self_state) (w : world) :
  let w' := cleanup_intermediate_files debug keep_files self w in
  invocations w' = invocations w
  /\ (debug || keep_files = true -> w' = w)
  /\ (debug || keep_files = false ->
      forall name,
        files w' !! name
        = if bool_decide (name ∈ files_to_cleanup self)
             || is_intermediate name
          then None else files w !! name)
  /\ (forall tree_path, is_intermediate (tree_path +:+ ".cleaned") = true)
  /\ (forall tree_idx, is_intermediate (constr_tree_fn tree_idx) = true)
  /\ (forall branch_id,
        is_intermediate ("site_lnl_" +:+ branch_id +:+ ".txt") = true)
  /\ is_intermediate NEXUS_ALIGNMENT_FN = false
  /\ is_intermediate ML_TREE_FN = false
  /\ is_intermediate ML_SCORE_FN = false.
Proof.
  intros w'. subst w'. unfold cleanup_intermediate_files.
  destruct (debug || keep_files) eqn:Eflags; cbn [files invocations].
  - repeat split; try done.
    + apply cleaned_is_intermediate.
    + intros i. apply (framed_is_intermediate "constraint_tree_" ".tre").
      simpl. tauto.
    + intros b. apply (framed_is_intermediate "site_lnl_" ".txt").
      simpl. tauto.
  - repeat split; try done.
    + intros _ name. rewrite sweep_lookup, unmark_lookup.
      fold (is_intermediate name).
      by destruct (bool_decide _), (is_intermediate name).
    + apply cleaned_is_intermediate.
    + intros i. apply (framed_is_intermediate "constraint_tree_" ".tre").
      simpl. tauto.
    + intros b. apply (framed_is_intermediate "site_lnl_" ".txt").
      simpl. tauto.
Qed.

(** ** A run whose joint test gives no result *)

Section DegradedRun.
Context `{Externals}.

(** C6. A run that starts from a known optimum, whose branch loop left
    at least one branch, and whose joint test fails (its result is
    [None]) or returns no data (an empty result).  The run returns the
    records as its result and keeps the same dictionary in
    [decay_indices]; the optimum likelihood is not changed and the
    working directory is the one the test left.  The result has one
    record for every branch the loop stored, in the same order; every
    record is the record of a branch [Clade_k+1] and holds the taxa, the
    difference and the constrained likelihood that the turn for that
    branch stored, the difference being the constrained likelihood minus
    the optimum; it has neither a p-value nor a significance flag. *)
Theorem decay_indices_without_au_results (perform : bool)
    (self : self_state) (w : world) (tree : clade) (ml : float) :
  ml_tree self = Some tree ->
  ml_likelihood self = Some ml ->
  constraint_info_map (run_branch_loop self tree w) <> [] ->
  fst (joint_test_of perform self tree w) = None
  \/ fst (joint_test_of perform self tree w) = Some ∅ ->
  let run := calculate_decay_indices perform self w in
  decay_indices (snd (fst run)) = fst (fst run)
  /\ ml_likelihood (snd (fst run)) = Some ml
  /\ snd run = snd (joint_test_of perform self tree w)
  /\ PyDict.keys (fst (fst run))
     = PyDict.keys (constraint_info_map (run_branch_loop self tree w))
  /\ forall cid r,
       PyDict.get cid (fst (fst run)) = Some r ->
       exists k info,
         cid = clade_id_of (k + 1)
         /\ stored_at self tree w k = Some info
         /\ taxa r = ci_taxa info
         /\ lnl_diff r = ci_lnl_diff info
         /\ constrained_lnl r = ci_constrained_lnl info
         /\ lnl_diff r = (fun c => (c - ml)%float) <$> constrained_lnl r
         /\ AU_pvalue r = None
         /\ significant_AU r = None.
Proof.
  intros Htree Hml Hmap Hau run. subst run.
  unfold joint_test_of, before_joint_test in Hau |- *.
  unfold calculate_decay_indices, decay_from_optimum. rewrite Htree, Hml.
  destruct (get_nonterminals tree) as [|c0 cl] eqn:Ecl.
  { destruct Hmap. unfold run_branch_loop. by rewrite Ecl. }
  clear c0 cl Ecl.
  pose proof (run_branch_loop_get self tree w) as Hget.
  pose proof (branch_loop_NoDup self (length (get_terminals tree))
                (get_nonterminals tree) 0 (loop_start w)
                (NoDup_nil_2 : NoDup (PyDict.keys (constraint_info_map (loop_start w)))))
    as Hnd.
  destruct (branch_loop_keys self (length (get_terminals tree))
              (get_nonterminals tree) 0 (loop_start w))
    as (ks & Hks & _); [intros; apply loop_start_fresh |].
  fold (run_branch_loop self tree w) in Hnd, Hks.
  set (st := run_branch_loop self tree w) in *.
  destruct (constraint_info_map st) as [|e0 cmap0] eqn:Ecm; [done |].
  rewrite <- Ecm in *. clear e0 cmap0 Ecm.
  pose proof (site_phase_keys self perform (constraint_info_map st)
                (loop_world st)) as Hkeys.
  pose proof (site_phase_get self perform (constraint_info_map st)
                (loop_world st)) as Hsite.
  destruct (site_phase perform self (constraint_info_map st) (loop_world st))
    as [cmap w1]. simpl in Hkeys, Hsite, Hau |- *.
  destruct (run_au_test self (all_tree_files_rel st) w1) as [au w2].
  simpl in Hau |- *.
  destruct (finalize_falsy_au cmap au (Some ml) Hau) as (-> & _ & _).
  simpl.
  assert (Hpop : populate cmap
                 = map (fun kv => (fst kv, initial_record (snd kv))) cmap).
  { apply populate_map. by rewrite Hkeys. }
  split; [reflexivity |]. split; [reflexivity |]. split; [reflexivity |].
  split.
  - by rewrite Hpop, dict_keys_map.
  - intros cid r Hr. rewrite Hpop, dict_get_map in Hr.
    destruct (PyDict.get cid cmap) as [cd|] eqn:Ecd; [| discriminate].
    injection Hr as <-.
    assert (Hin : cid ∈ PyDict.keys (constraint_info_map st)).
    { rewrite <- Hkeys. apply dec_stable. intros Hnot.
      apply dict_get_None in Hnot. congruence. }
    rewrite Hks in Hin. simpl in Hin.
    apply list_elem_of_fmap in Hin as (k & -> & _).
    exists k. specialize (Hsite (clade_id_of (k + 1))).
    rewrite Ecd, Hget in Hsite.
    destruct (stored_at self tree w k) as [info|] eqn:Einfo; [| discriminate].
    exists info. simpl in Hsite. unfold info_summary in Hsite.
    injection Hsite as Ht Hd Hc. repeat split; try done.
    simpl. rewrite Hd, Hc. unfold stored_at in Einfo.
    destruct (get_nonterminals tree !! k) as [c|]; [| discriminate].
    destruct (stored_info_fields _ _ _ _ _ _ Einfo) as (_ & -> & ->).
    rewrite Hml. by destruct (snd (fst (search_of self k c _))).
Qed.

End DegradedRun.

(** C6 at the five-taxon run, whose joint test fails: the result is kept
    on the object and holds the record of branch 2. *)
Lemma decay_indices_without_au_results_witness :
  let run := calculate_decay_indices
               (H := Fixtures.externals_of Fixtures.partial_table) false
               Fixtures.five_taxa_self Fixtures.empty_world in
  decay_indices (snd (fst run)) = fst (fst run)
  /\ PyDict.keys (decay_indices (snd (fst run))) = ["Clade_2"]
  /\ ml_likelihood (snd (fst run)) = Some 1000%float.
Proof.
  assert (Hkeys : PyDict.keys
                    (constraint_info_map
                       (run_branch_loop
                          (H := Fixtures.externals_of Fixtures.partial_table)
                          Fixtures.five_taxa_self Fixtures.five_taxa
                          Fixtures.empty_world)) = ["Clade_2"])
    by (vm_compute; reflexivity).
  destruct (decay_indices_without_au_results
              (H := Fixtures.externals_of Fixtures.partial_table) false
              Fixtures.five_taxa_self Fixtures.empty_world
              Fixtures.five_taxa 1000%float eq_refl eq_refl)
    as (Hself & Hml & _ & Hk & _).
  - intros E. rewrite E in Hkeys. discriminate.
  - left. vm_compute. reflexivity.
  - intros run. subst run. split; [exact Hself |].
    split; [| exact Hml]. by rewrite Hself, Hk.
Defined.

(** ** Taxon names in the files handed to the engine *)

Lemma prefix_app_l (sub s t : string) :
  String.prefix sub s = true -> String.prefix sub (s +:+ t) = true.
Proof.
  revert s. induction sub as [|a sub IH]; intros s Hp; [by destruct (s +:+ t) |].
  destruct s as [|b s]; [done |]. rewrite str_app_cons. simpl in *.
  destruct (ascii_dec a b); [by apply IH | done].
Qed.

Lemma contains_app_l (sub s t : string) :
  PyStr.contains sub s = true -> PyStr.contains sub (s +:+ t) = true.
Proof.
  induction s as [|c s IH]; intros Hc.
  - simpl in Hc. destruct sub; [| done]. by destruct t.
  - rewrite str_app_cons, contains_cons. rewrite contains_cons in Hc.
    apply orb_true_iff in Hc as [Hp | Hc].
    + rewrite <- str_app_cons, (prefix_app_l _ _ _ Hp). reflexivity.
    + rewrite (IH Hc). apply orb_true_r.
Qed.

Lemma contains_app_r (sub s t : string) :
  PyStr.contains sub t = true -> PyStr.contains sub (s +:+ t) = true.
Proof.
  intros Hc. induction s as [|c s IH]; [exact Hc |].
  rewrite str_app_cons, contains_cons, IH. apply orb_true_r.
Qed.

Lemma contains_self (s : string) : PyStr.contains s s = true.
Proof.
  destruct s as [|c s]; [reflexivity |]. rewrite contains_cons.
  rewrite <- (str_app_nil_r (String c s)) at 2. by rewrite prefix_app.
Qed.

Lemma contains_concat (sep x : string) (l : list string) :
  In x l -> PyStr.contains x (String.concat sep l) = true.
Proof.
  induction l as [|y l IH]; [done |]. intros [-> | Hin].
  - destruct l as [|z l]; simpl.
    + apply contains_self.
    + apply contains_app_l, contains_self.
  - destruct l as [|z l]; [done |].
    change (String.concat sep (y :: z :: l))
      with (y +:+ sep +:+ String.concat sep (z :: l)).
    apply contains_app_r, contains_app_r. by apply IH.
Qed.

Lemma log_is_not_script (tree_idx : nat) :
  constr_log_fn tree_idx <> constr_cmd_fn tree_idx.
Proof. unfold constr_log_fn, constr_cmd_fn. discriminate. Qed.

Section TaxonNamesInFiles.
Context `{Externals}.

Lemma constraint_script_kept (self : self_state) (clade_taxa : list string)
    (tree_idx : nat) (w : world) :
  clade_taxa <> [] ->
  length clade_taxa <> length (alignment_ids self) ->
  (forall ran timeout fs,
     snd (paup ran (constr_cmd_fn tree_idx) timeout fs)
     !! constr_cmd_fn tree_idx = fs !! constr_cmd_fn tree_idx) ->
  files (snd (_generate_and_score_constraint_tree self clade_taxa tree_idx w))
  !! constr_cmd_fn tree_idx
  = Some (paup_script
            (constraint_script_cmds self
               (map _format_taxon_for_paup clade_taxa) tree_idx)).
Proof.
  intros Hne Hlen Hkeep. unfold _generate_and_score_constraint_tree.
  destruct clade_taxa as [|t ts]; [done |]. cbn [map].
  apply Nat.eqb_neq in Hlen. rewrite Hlen.
  set (script := paup_script _).
  assert (Hrun : files (snd (_run_paup_command_file (constr_cmd_fn tree_idx)
                               (constr_log_fn tree_idx) (PyInt 600)
                               (write_text (constr_cmd_fn tree_idx) script w)))
                 !! constr_cmd_fn tree_idx = Some script).
  { unfold _run_paup_command_file, write_text. cbn [files invocations].
    rewrite lookup_insert_eq.
    specialize (Hkeep (invocations w) (PyInt 600)
                  (<[constr_log_fn tree_idx := EmptyString]>
                     (<[constr_cmd_fn tree_idx := script]> (files w)))).
    destruct (paup _ _ _ _) as [[rc out err | out err |] fs];
      cbn [snd] in Hkeep.
    - assert (files (World (<[constr_log_fn tree_idx :=
                                log_text_exited out err]> fs)
                       (invocations w ++ [constr_cmd_fn tree_idx]))
              !! constr_cmd_fn tree_idx = Some script) as Hw.
      { cbn [files]. rewrite lookup_insert_ne by apply log_is_not_script.
        rewrite Hkeep, lookup_insert_ne by apply log_is_not_script.
        apply lookup_insert_eq. }
      by destruct (rc =? 0)%Z.
    - cbn [snd files]. rewrite lookup_insert_ne by apply log_is_not_script.
      rewrite Hkeep, lookup_insert_ne by apply log_is_not_script.
      apply lookup_insert_eq.
    - cbn [snd files]. rewrite lookup_insert_ne by apply log_is_not_script.
      apply lookup_insert_eq. }
  destruct (_run_paup_command_file _ _ _ _) as [[cp|e] w2]; cbn [snd] in Hrun;
    [| exact Hrun].
  destruct (exists_nonempty _ w2); [exact Hrun |].
  destruct (_parse_likelihood_from_score_file _ w2); [exact Hrun |].
  destruct (files w2 !! constr_log_fn tree_idx); [| exact Hrun].
  by destruct (lnl_from_log _ _).
Qed.

Lemma constraint_script_names (self : self_state)
    (formatted_clade_taxa : list string) (tree_idx : nat) :
  PyStr.contains
    ("constraints clade_constraint (MONOPHYLY) = (("
     +:+ PyStr.join ", " formatted_clade_taxa +:+ "));")
    (paup_script (constraint_script_cmds self formatted_clade_taxa tree_idx))
  = true.
Proof.
  unfold paup_script. do 4 apply contains_app_r. apply contains_app_l.
  apply contains_concat. unfold constraint_script_cmds.
  apply in_or_app. right. apply in_or_app. left. by left.
Qed.

Lemma nexus_text_rows (data_type : string) (aln : alignment)
    (record : seq_record) :
  In record (records aln) ->
  PyStr.contains (nexus_row record) (nexus_text data_type aln) = true.
Proof.
  intros Hin. unfold nexus_text.
  do 19 apply contains_app_r. apply contains_app_l.
  apply contains_concat. apply in_map_iff. by exists record.
Qed.

End TaxonNamesInFiles.

Section TaxonNamesTheorem.
Context `{Externals}.

(** C10. Taxon formatting is the identity exactly on the names without
    whitespace, special character or colon; any other name comes back
    wrapped in single quotes with each single quote inside it replaced
    by an underscore, so a name holding a single quote is altered and no
    single quote is left between the wrapping quotes.  The files refer
    to the formatted names: the alignment file written by
    [_convert_to_nexus] holds, for every record, the line made of the
    formatted id and the sequence; and the script of a constrained
    search, as found in the working directory after the search when the
    engine leaves its script as it is, holds the constraint on the
    formatted names of the clade. *)
Theorem format_taxon_quoting (taxon_name : string) (self : self_state)
    (aln : alignment) (clade_taxa : list string) (tree_idx : nat)
    (w : world) :
  ((exists c, PyStr.In_str c taxon_name /\
              (PyStr.isspace c = true \/ PyStr.In_str c nexus_special_chars
               \/ c = ":"%char)) ->
   _format_taxon_for_paup taxon_name = quoted taxon_name)
  /\ ((forall c, PyStr.In_str c taxon_name ->
                 PyStr.isspace c = false
                 /\ ~ PyStr.In_str c nexus_special_chars /\ c <> ":"%char) ->
      _format_taxon_for_paup taxon_name = taxon_name)
  /\ (PyStr.In_str single_quote taxon_name ->
      _format_taxon_for_paup taxon_name = quoted taxon_name
      /\ _format_taxon_for_paup taxon_name <> taxon_name)
  /\ ~ PyStr.In_str single_quote
         (PyStr.replace_char single_quote "_" taxon_name)
  /\ files (_convert_to_nexus self aln w) !! NEXUS_ALIGNMENT_FN
     = Some (nexus_text (data_type self) aln)
  /\ (forall record,
        In record (records aln) ->
        PyStr.contains
          ("  " +:+ _format_taxon_for_paup (rec_id record) +:+ " "
           +:+ rec_seq record +:+ nl)
          (nexus_text (data_type self) aln) = true)
  /\ (clade_taxa <> [] ->
      length clade_taxa <> length (alignment_ids self) ->
      (forall ran timeout fs,
         snd (paup ran (constr_cmd_fn tree_idx) timeout fs)
         !! constr_cmd_fn tree_idx = fs !! constr_cmd_fn tree_idx) ->
      exists script,
        files (snd (_generate_and_score_constraint_tree self clade_taxa
                      tree_idx w))
        !! constr_cmd_fn tree_idx = Some script
        /\ PyStr.contains
             ("constraints clade_constraint (MONOPHYLY) = (("
              +:+ PyStr.join ", " (map _format_taxon_for_paup clade_taxa)
              +:+ "));")
             script = true).
Proof.
  assert (Hq : (exists c, PyStr.In_str c taxon_name /\
              (PyStr.isspace c = true \/ PyStr.In_str c nexus_special_chars
               \/ c = ":"%char)) ->
               _format_taxon_for_paup taxon_name = quoted taxon_name).
  { intros (c & Hin & Hc). by apply (format_taxon_needs_quote taxon_name c). }
  split; [exact Hq |]. split; [| split; [| split; [| split; [| split]]]].
  - intros Hnone. unfold _format_taxon_for_paup.
    assert (re_search_quote_class taxon_name = false) as ->.
    { destruct (re_search_quote_class taxon_name) eqn:E; [| done].
      apply re_search_quote_class_spec in E as (c & Hin & Hc).
      apply in_quote_class_spec in Hc.
      destruct (Hnone c Hin) as (Hs & Hsp & _).
      destruct Hc; [congruence | tauto]. }
    assert (PyStr.has_char ":" taxon_name = false) as ->; [| reflexivity].
    apply has_char_false. intros Hin. by destruct (Hnone _ Hin) as (_ & _ & ?).
  - intros Hin.
    assert (E : _format_taxon_for_paup taxon_name = quoted taxon_name).
    { apply Hq. exists single_quote. split; [done |]. right. left.
      apply has_char_In. reflexivity. }
    split; [exact E |]. rewrite E. intros Heq.
    apply (f_equal String.length) in Heq. rewrite quoted_longer in Heq. lia.
  - apply replace_char_gone. discriminate.
  - unfold _convert_to_nexus, write_text. cbn [files]. apply lookup_insert_eq.
  - intros record Hin. by apply (nexus_text_rows (data_type self) aln record).
  - intros Hne Hlen Hkeep. eexists. split.
    + by apply constraint_script_kept.
    + apply constraint_script_names.
Qed.

End TaxonNamesTheorem.

(** The table engine of the five-taxon run leaves the script of branch 2
    as it is. *)
Lemma table_engine_keeps_script (fs : gmap string string) (ran : list string)
    (timeout : py_num) :
  snd (Fixtures.table_engine Fixtures.partial_table ran
         "constraint_search_2.nex" timeout fs)
  !! "constraint_search_2.nex" = fs !! "constraint_search_2.nex".
Proof.
  unfold Fixtures.table_engine, Fixtures.partial_table. cbn [PyDict.get].
  change (String.eqb "constraint_search_2.nex" "constraint_search_2.nex")
    with true. cbn [snd fold_left fst].
  rewrite !lookup_insert_ne by discriminate. reflexivity.
Qed.

(** C10 at the names [O'Brien sp] and [Pan], in the alignment file and
    in the script of a constrained search. *)
Lemma format_taxon_quoting_witness :
  _format_taxon_for_paup "O'Brien sp" = "'O_Brien sp'"
  /\ _format_taxon_for_paup "Pan" = "Pan"
  /\ PyStr.contains ("  'O_Brien sp' ACGT" +:+ nl)
       (nexus_text "dna"
          (Alignment [SeqRecord "O'Brien sp" "ACGT"; SeqRecord "Pan" "ACGA"]
             4)) = true
  /\ exists script,
       files
         (snd (_generate_and_score_constraint_tree
                 (H := Fixtures.externals_of Fixtures.partial_table)
                 (Fixtures.self_of ["O'Brien sp"; "Pan"; "C"; "D"; "E"] None
                    None)
                 ["O'Brien sp"; "Pan"] 2 Fixtures.empty_world))
       !! "constraint_search_2.nex" = Some script
       /\ PyStr.contains
            "constraints clade_constraint (MONOPHYLY) = (('O_Brien sp', Pan));"
            script = true.
Proof.
  destruct (format_taxon_quoting
              (H := Fixtures.externals_of Fixtures.partial_table)
              "O'Brien sp"
              (Fixtures.self_of ["O'Brien sp"; "Pan"; "C"; "D"; "E"] None None)
              (Alignment [SeqRecord "O'Brien sp" "ACGT"; SeqRecord "Pan" "ACGA"]
                 4)
              ["O'Brien sp"; "Pan"] 2 Fixtures.empty_world)
    as (_ & _ & Hq & _ & _ & Hrow & Hscript).
  destruct (format_taxon_quoting
              (H := Fixtures.externals_of Fixtures.partial_table)
              "Pan"
              (Fixtures.self_of ["O'Brien sp"; "Pan"; "C"; "D"; "E"] None None)
              (Alignment [] 0) [] 2 Fixtures.empty_world)
    as (_ & Hid & _).
  split; [| split; [| split]].
  - destruct Hq as [Hq _]; [simpl; tauto |]. rewrite Hq. reflexivity.
  - apply Hid. intros c Hin. simpl in Hin.
    destruct Hin as [-> | [-> | [-> | []]]]; repeat split;
      try reflexivity; try discriminate;
      (intros Hc; apply has_char_In in Hc; discriminate).
  - apply (Hrow (SeqRecord "O'Brien sp" "ACGT")). simpl. tauto.
  - apply Hscript.
    + discriminate.
    + simpl. lia.
    + intros ran timeout fs. apply table_engine_keeps_script.
Defined.
